(** * Face verification kiosk: the similarity scorer and the verification flow

    A shallow embedding of

    - [src/hooks/useFaceDetection.ts]: [detectFaces], [extractFaceEmbedding],
      [compareFaces];
    - [src/components/FaceVerification.tsx]: [startCamera],
      [startVerification], [verifyFace], [extractEmbeddingFromImage].

    JavaScript numbers are IEEE 754 binary64 values.  The arithmetic the
    scorer uses is collected in the class [JsNumber]; the instance
    [Float64] is the arithmetic the program runs on (Rocq's primitive
    floats), the instance [Exact] is the same program read over the real
    numbers.  The asynchronous flow is written in a state monad over a
    world that records the event trace, the audit table and the number of
    calls made to the detection capability.  Console logging and toast
    notifications are left out; every other statement of the source has a
    counterpart below. *)

From Stdlib Require Import List String Ascii Bool ZArith Lia.
From Stdlib Require Import Floats.
From Stdlib Require Import Reals Lra Psatz.
Import ListNotations.

Set Implicit Arguments.
Set Warnings "-inexact-float".

(** ** Numbers *)

Class JsNumber (num : Type) := {
  n_zero : num;
  n_one : num;
  n_two : num;
  n_threshold : num;                 (* the literal 0.65 *)
  n_add : num -> num -> num;         (* a + b *)
  n_mul : num -> num -> num;         (* a * b *)
  n_div : num -> num -> num;         (* a / b *)
  n_sqrt : num -> num;               (* Math.sqrt(a) *)
  n_eqb : num -> num -> bool;        (* a === b *)
  n_geb : num -> num -> bool;        (* a >= b *)
  n_ltb : num -> num -> bool         (* a < b *)
}.

(** binary64, as the JavaScript engine computes. *)
#[export] Instance Float64 : JsNumber float := {
  n_zero := 0%float;
  n_one := 1%float;
  n_two := 2%float;
  n_threshold := 0.65%float;
  n_add := PrimFloat.add;
  n_mul := PrimFloat.mul;
  n_div := PrimFloat.div;
  n_sqrt := PrimFloat.sqrt;
  n_eqb := PrimFloat.eqb;
  n_geb := fun a b => PrimFloat.leb b a;
  n_ltb := PrimFloat.ltb
}.

Definition Reqb (a b : R) : bool := if Req_dec_T a b then true else false.
Definition Rgeb (a b : R) : bool := if Rle_dec b a then true else false.
Definition Rltb (a b : R) : bool := if Rlt_dec a b then true else false.

(** The same operations without rounding. *)
#[export] Instance Exact : JsNumber R := {
  n_zero := 0%R;
  n_one := 1%R;
  n_two := 2%R;
  n_threshold := (65 / 100)%R;
  n_add := Rplus;
  n_mul := Rmult;
  n_div := Rdiv;
  n_sqrt := R_sqrt.sqrt;
  n_eqb := Reqb;
  n_geb := Rgeb;
  n_ltb := Rltb
}.

(** ** useFaceDetection.ts *)

Section Scorer.

Context {num : Type} `{JsNumber num}.

(** interface FaceEmbedding { descriptor: number[]; timestamp: number } *)
Record FaceEmbedding := {
  descriptor : list num;
  timestamp : Z
}.

(** The accumulators [dotProduct], [norm1], [norm2] of [compareFaces]. *)
Record Sums := { dotProduct : num; norm1 : num; norm2 : num }.

(** The body of [for (let i = 0; i < desc1.length; i++)], which runs only
    when the two arrays have the same length. *)
Fixpoint accumulate (desc1 desc2 : list num) (acc : Sums) : Sums :=
  match desc1, desc2 with
  | x :: desc1', y :: desc2' =>
      accumulate desc1' desc2'
        {| dotProduct := n_add (dotProduct acc) (n_mul x y);
           norm1 := n_add (norm1 acc) (n_mul x x);
           norm2 := n_add (norm2 acc) (n_mul y y) |}
  | _, _ => acc
  end.

Definition compareDescriptors (desc1 desc2 : list num) : num :=
  if negb (Nat.eqb (List.length desc1) (List.length desc2)) then n_zero
  else
    let s := accumulate desc1 desc2
               {| dotProduct := n_zero; norm1 := n_zero; norm2 := n_zero |} in
    let norm1 := n_sqrt (norm1 s) in
    let norm2 := n_sqrt (norm2 s) in
    if n_eqb norm1 n_zero || n_eqb norm2 n_zero then n_zero
    else
      let cosineSimilarity := n_div (dotProduct s) (n_mul norm1 norm2) in
      n_div (n_add cosineSimilarity n_one) n_two.

Definition compareFaces (embedding1 embedding2 : FaceEmbedding) : num :=
  compareDescriptors (descriptor embedding1) (descriptor embedding2).

(** The scorer as section 4.2 of the specification words it. *)
Definition dot (a b : list num) : num :=
  fold_left (fun acc xy => n_add acc (n_mul (fst xy) (snd xy))) (combine a b) n_zero.

Definition magnitude (a : list num) : num :=
  n_sqrt (fold_left (fun acc x => n_add acc (n_mul x x)) a n_zero).

Definition cosine (a b : list num) : num :=
  n_div (dot a b) (n_mul (magnitude a) (magnitude b)).

Definition score_reference (a b : list num) : num :=
  if negb (Nat.eqb (List.length a) (List.length b)) then n_zero
  else if n_eqb (magnitude a) n_zero || n_eqb (magnitude b) n_zero then n_zero
  else n_div (n_add (cosine a b) n_one) n_two.

End Scorer.

Arguments FaceEmbedding num : clear implicits.
Arguments Sums num : clear implicits.

(** ** Strings

    A string is a sequence of code units below 256, which is enough for the
    URLs and identifiers the flow handles. *)

Definition is_white_space (c : ascii) : bool :=
  let n := nat_of_ascii c in
  ((9 <=? n) && (n <=? 13) || (n =? 32) || (n =? 160))%nat.

Fixpoint trimStart (s : string) : string :=
  match s with
  | EmptyString => EmptyString
  | String c s' => if is_white_space c then trimStart s' else s
  end.

Fixpoint trimEnd (s : string) : string :=
  match s with
  | EmptyString => EmptyString
  | String c s' =>
      match trimEnd s' with
      | EmptyString => if is_white_space c then EmptyString else String c EmptyString
      | t => String c t
      end
  end.

(** String.prototype.trim *)
Definition trim (s : string) : string := trimEnd (trimStart s).

(** String.prototype.startsWith *)
Definition startsWith (s p : string) : bool := String.prefix p s.

(** String.prototype.endsWith *)
Definition endsWith (s p : string) : bool :=
  (String.length p <=? String.length s)%nat &&
  String.eqb (substring (String.length s - String.length p) (String.length p) s) p.

(** String.prototype.slice, with its treatment of negative indices. *)
Definition slice (s : string) (b e : Z) : string :=
  let len := Z.of_nat (String.length s) in
  let from := if (b <? 0)%Z then Z.max (len + b) 0 else Z.min b len in
  let to := if (e <? 0)%Z then Z.max (len + e) 0 else Z.min e len in
  substring (Z.to_nat from) (Z.to_nat (Z.max (to - from) 0)) s.

Definition quote : string := String (ascii_of_nat 34) EmptyString.

(** Lines 225-228 of FaceVerification.tsx: the clean-up of the stored URL. *)
Definition cleanImageUrl (face_image_url : string) : string :=
  let imageUrl := trim face_image_url in
  if startsWith imageUrl quote && endsWith imageUrl quote
  then slice imageUrl 1 (-1)
  else imageUrl.

(** Line 233: the scheme test. *)
Definition isPublicUrl (imageUrl : string) : bool :=
  startsWith imageUrl "http://" || startsWith imageUrl "https://".

(** ** The world the flow runs in *)

Inductive Status := idle | success | failed.

(** The two continuations of [FaceVerificationProps]. *)
Inductive Continuation :=
| onVerified (userId : string)
| onFailed.

(** A row of the table [verification_events]. *)
Record AuditEvent := {
  user_id : string;
  rfid_tag : string;
  face_verified : bool;
  rfid_verified : bool
}.

(** What the flow does that another component can observe, in order. *)
Inductive Event :=
| GetUserMedia
| SelectUser (tag : string)            (* from('users').select(..).eq('id', tag) *)
| Attempt (n : nat)                    (* an iteration of the retry loop begins *)
| DetectAllFaces (call : nat)          (* the detection capability is invoked *)
| SetFaceDetected (b : bool)
| Sleep (ms : Z)                       (* await new Promise(r => setTimeout(r, ms)) *)
| Timeout (ms : Z)                     (* setTimeout(callback, ms); the callback's events follow *)
| SetVerificationStatus (s : Status)
| StopCamera
| LoadImage (url : string)             (* img.src = url *)
| InsertVerificationEvent (row : AuditEvent)
| Fire (k : Continuation).

(** The exit of [verifyFace] that was taken.  The source shows it to the
    user as a toast; the names follow section 7 of the specification.  The
    code has one exit for an image that cannot be loaded and for an image
    without a face (ReferenceImageFailed), and two exits the specification
    does not name (VideoElementMissing, UnexpectedError). *)
Inductive Reason :=
| VideoElementMissing      (* line 89 *)
| UserNotFound             (* line 108 *)
| NoReferenceData          (* line 120 *)
| ModelsNotReady           (* line 140 *)
| NoLiveFace               (* line 204 *)
| InvalidReference         (* line 233 *)
| ReferenceImageFailed     (* line 252 *)
| BelowThreshold           (* line 288 *)
| UnexpectedError.         (* line 297 *)

Inductive Outcome :=
| Matched (userId : string)
| Rejected (reason : Reason).

(** HTMLVideoElement, as far as the code reads it. *)
Record Video := { videoWidth : Z; videoHeight : Z }.

(** What awaiting a promise can lead to: a value, a rejection, or a promise
    that never settles. *)
Inductive Res (A : Type) :=
| Ok (a : A)
| Throw
| Hang.
Arguments Throw {A}.
Arguments Hang {A}.

Record State := {
  verification_events : list AuditEvent;   (* the audit table *)
  calls : nat;                             (* invocations of the detection capability so far *)
  clock : Z                                (* milliseconds spent in timers *)
}.

Record Step (A : Type) := {
  result : Res A;
  after : State;
  emitted : list Event
}.

Definition M (A : Type) : Type := State -> Step A.

Definition ret {A} (a : A) : M A :=
  fun s => {| result := Ok a; after := s; emitted := [] |}.

Definition bind {A B} (m : M A) (f : A -> M B) : M B :=
  fun s =>
    let r := m s in
    match result r with
    | Ok a =>
        let r' := f a (after r) in
        {| result := result r'; after := after r'; emitted := emitted r ++ emitted r' |}
    | Throw => {| result := Throw; after := after r; emitted := emitted r |}
    | Hang => {| result := Hang; after := after r; emitted := emitted r |}
    end.

Definition throw {A} : M A :=
  fun s => {| result := Throw; after := s; emitted := [] |}.

Definition hang {A} : M A :=
  fun s => {| result := Hang; after := s; emitted := [] |}.

(** try { m } catch { handler } *)
Definition try_catch {A} (m : M A) (handler : M A) : M A :=
  fun s =>
    let r := m s in
    match result r with
    | Throw =>
        let r' := handler (after r) in
        {| result := result r'; after := after r'; emitted := emitted r ++ emitted r' |}
    | _ => r
    end.

Definition emit (e : Event) : M unit :=
  fun s => {| result := Ok tt; after := s; emitted := [e] |}.

Definition advance (ms : Z) : M unit :=
  fun s => {| result := Ok tt;
              after := {| verification_events := verification_events s;
                          calls := calls s;
                          clock := (clock s + ms)%Z |};
              emitted := [] |}.

Declare Scope flow_scope.
Delimit Scope flow_scope with flow.
Notation "x <- m ;; k" := (bind m (fun x => k))
  (at level 61, m at next level, right associativity) : flow_scope.
Notation "m ;; k" := (bind m (fun _ => k))
  (at level 61, right associativity) : flow_scope.
Local Open Scope flow_scope.

(** await new Promise(resolve => setTimeout(resolve, ms)) *)
Definition sleep (ms : Z) : M unit := emit (Sleep ms) ;; advance ms.

(** setTimeout(() => { ... }, ms) as the last statement before a return:
    the callback is the next thing this control path does. *)
Definition setTimeout {A} (ms : Z) (callback : M A) : M A :=
  emit (Timeout ms) ;; advance ms ;; callback.

(** Date.now(), counted from the start of the run in awaited milliseconds. *)
Definition now : M Z :=
  fun s => {| result := Ok (clock s); after := s; emitted := [] |}.

(** await supabase.from('verification_events').insert(row).  The client
    resolves with an error field rather than rejecting, and line 277 does
    not read it: when the table refuses the row ([accepted] is false: a
    policy, a constraint, the network) the table stays as it was and the
    flow goes on as it does when the row is accepted. *)
Definition insertVerificationEvent (accepted : bool) (row : AuditEvent) : M unit :=
  fun s => {| result := Ok tt;
              after := {| verification_events :=
                            if accepted then verification_events s ++ [row]
                            else verification_events s;
                          calls := calls s;
                          clock := clock s |};
              emitted := [InsertVerificationEvent row] |}.

(** What awaiting a promise of the browser leads to. *)
Inductive Settles := Resolves | Rejects | Pends.

Section Flow.

Context {num : Type} `{JsNumber num}.

(** One element of the array face-api returns: the descriptor and the
    detection score (the bounding box is only logged). *)
Record Detection := {
  det_descriptor : list num;
  det_score : num
}.

(** faceapi.detectAllFaces(..).withFaceLandmarks().withFaceDescriptors() *)
Inductive Capability :=
| DetectThrows
| Detected (detections : list Detection).

(** The state of the hook [useFaceDetection] as the closures of one render
    see it: [isLoading] (which the component calls [detectorLoading]) and
    [modelsLoaded] are constants of that render, so a call reads the same
    value each time. *)
Record Hook := {
  isLoading : bool;
  modelsLoaded : bool
}.

(** The column [face_embedding] is untyped JSON ([storedEmbedding as any]);
    [compareFaces] reads nothing of it but [.descriptor], of that its
    [.length], and, when the length is that of the live descriptor, its
    elements under the coercion of [*].  A falsy value (null, 0, false, the
    empty string) is no value: [None].  A truthy value is one of:
    - [StoredEmbedding]: its descriptor has a length that is a natural
      number (the descriptor is an array, a string, or an object with
      such a [length]); the list holds the number each element is coerced
      to;
    - [StoredUnsized]: its descriptor is neither null nor undefined and
      the [length] of the descriptor is not a natural number (the
      descriptor is a number, a boolean, or an object without such a
      [length]): it differs from the length of every array;
    - [StoredNoDescriptor]: its descriptor is null or undefined (the value
      is a bare array, a number, a string, true, or an object without a
      usable [descriptor]): reading the [length] of the descriptor
      throws. *)
Inductive StoredFace :=
| StoredEmbedding (e : FaceEmbedding num)
| StoredUnsized
| StoredNoDescriptor.

(** A row of the table [users]. *)
Record UserRow := {
  id : string;
  name : string;
  face_embedding : option StoredFace;
  face_image_url : option string
}.

(** What loading the reference image into a scratch video element leads to. *)
Inductive ImageResult :=
| ImageError               (* img.onerror *)
| NoCanvasContext          (* canvas.getContext('2d') is null *)
| PlayRejected             (* tempVideo.play() rejects *)
| Playing (tempVideo : Video).

(** Everything outside the component. *)
Record Env := {
  getUserMedia : Settles;                (* navigator.mediaDevices.getUserMedia *)
  play : Settles;                        (* videoRef.current.play() *)
  poll : option nat;                     (* lines 40-48: how many ticks of the 100 ms
                                            interval fail the test of line 42 (the
                                            element is there and reports a width)
                                            before the one that passes; None when
                                            none ever passes *)
  videoRef : option Video;               (* videoRef.current *)
  hook : Hook;
  users : list UserRow;                  (* the table users *)
  select_error : bool;                   (* the query on users reports an error *)
  detectAllFaces : nat -> Capability;    (* the outcome of the n-th detection *)
  loadImage : string -> ImageResult;
  insert_accepted : bool                 (* verification_events accepts the row *)
}.

Variable env : Env.

(** *** useFaceDetection.ts, lines 49-103 *)

Definition detectFaces (videoElement : option Video) : M (option (list Detection)) :=
  if negb (modelsLoaded (hook env)) then ret None
  else
    match videoElement with
    | None => ret None
    | Some v =>
        if (videoWidth v =? 0)%Z || (videoHeight v =? 0)%Z then ret None
        else
          fun s =>
            {| result :=
                 Ok match detectAllFaces env (calls s) with
                    | DetectThrows => None
                    | Detected detections => Some detections
                    end;
               after := {| verification_events := verification_events s;
                           calls := S (calls s);
                           clock := clock s |};
               emitted := [DetectAllFaces (calls s)] |}
    end.

Definition extractFaceEmbedding (videoElement : option Video) : M (option (FaceEmbedding num)) :=
  detections <- detectFaces videoElement ;;
  match detections with
  | None | Some [] => ret None
  | Some (detection :: _) =>
      t <- now ;;
      ret (Some {| descriptor := det_descriptor detection; timestamp := t |})
  end.

(** *** FaceVerification.tsx *)

Definition maxRetries : nat := 10.

(** .maybeSingle() *)
Inductive QueryResult :=
| QueryError
| QueryData (user : option UserRow).

Definition maybeSingle (rows : list UserRow) : QueryResult :=
  match rows with
  | [] => QueryData None
  | [u] => QueryData (Some u)
  | _ => QueryError
  end.

(** Lines 98-102: the rows of [users] whose key equals the tag, then
    [maybeSingle], which yields the row, null when there is none, and an
    error when there are several. *)
Definition selectUser (rfidTag : string) : M QueryResult :=
  emit (SelectUser rfidTag) ;;
  ret (if select_error env then QueryError
       else maybeSingle (filter (fun u => String.eqb (id u) rfidTag) (users env))).

(** The block every rejecting exit of [verifyFace] ends with:
    setVerificationStatus('failed'); setTimeout(() => { stopCamera(); onFailed(); }, ms); return. *)
Definition reject (ms : Z) (reason : Reason) : M Outcome :=
  emit (SetVerificationStatus failed) ;;
  setTimeout ms (emit StopCamera ;; emit (Fire onFailed)) ;;
  ret (Rejected reason).

(** Lines 167-202.  [remaining] counts the iterations left, so that the
    loop runs while [attempt <= maxRetries]. *)
Fixpoint attempts (remaining attempt : nat) : M (option (FaceEmbedding num)) :=
  match remaining with
  | O => ret None
  | S remaining' =>
      emit (Attempt attempt) ;;
      faces <- detectFaces (videoRef env) ;;
      emit (SetFaceDetected match faces with
                            | Some (_ :: _) => true
                            | _ => false
                            end) ;;
      currentEmbedding <- extractFaceEmbedding (videoRef env) ;;
      match currentEmbedding with
      | Some e => ret (Some e)
      | None =>
          (if (attempt <? maxRetries)%nat then sleep 1500 else ret tt) ;;
          attempts remaining' (S attempt)
      end
  end.

(** Lines 307-387. *)
Definition extractEmbeddingFromImage (imageUrl : string) : M (FaceEmbedding num) :=
  emit (LoadImage imageUrl) ;;
  match loadImage env imageUrl with
  | ImageError => throw
  | NoCanvasContext => throw
  | PlayRejected => throw
  | Playing tempVideo =>
      sleep 500 ;;
      embedding <- extractFaceEmbedding (Some tempVideo) ;;
      match embedding with
      | None => throw
      | Some e => ret e
      end
  end.

(** JavaScript truthiness of the column [face_image_url]: null and the
    empty string are falsy. *)
Definition truthy (url : option string) : bool :=
  match url with
  | Some u => negb (String.eqb u "")
  | None => false
  end.

(** Lines 220-262: [storedEmbedding] after the block that fills it from the
    stored image when the row has no descriptor.  [inl] is an exit of
    [verifyFace]. *)
Definition resolveStored (user : UserRow) : M (Outcome + option StoredFace) :=
  let storedEmbedding := face_embedding user in
  match storedEmbedding, face_image_url user with
  | None, Some url =>
      if truthy (Some url) then
        let imageUrl := cleanImageUrl url in
        if negb (isPublicUrl imageUrl) then
          r <- reject 3000 InvalidReference ;; ret (inl r)
        else
          try_catch
            (e <- extractEmbeddingFromImage imageUrl ;; ret (inr (Some (StoredEmbedding e))))
            (r <- reject 2000 ReferenceImageFailed ;; ret (inl r))
      else ret (inr storedEmbedding)
  | _, _ => ret (inr storedEmbedding)
  end.

(** compareFaces(storedEmbedding as any, currentEmbedding).  Reading
    [.descriptor] of null, or [.length] of a descriptor that is null or
    undefined, throws a TypeError (lines 106-109); a length that is not
    the length of the live descriptor returns 0 at line 111. *)
Definition compareStored (storedEmbedding : option StoredFace)
    (currentEmbedding : FaceEmbedding num) : M num :=
  match storedEmbedding with
  | Some (StoredEmbedding e) => ret (compareFaces e currentEmbedding)
  | Some StoredUnsized => ret n_zero
  | Some StoredNoDescriptor => throw
  | None => throw
  end.

(** Lines 264-296. *)
Definition scoring (rfidTag : string) (user : UserRow)
    (storedEmbedding : option StoredFace) (currentEmbedding : FaceEmbedding num) : M Outcome :=
  similarity <- compareStored storedEmbedding currentEmbedding ;;
  if n_geb similarity n_threshold then
    emit (SetVerificationStatus success) ;;
    insertVerificationEvent (insert_accepted env)
                            {| user_id := id user;
                               rfid_tag := rfidTag;
                               face_verified := true;
                               rfid_verified := true |} ;;
    setTimeout 3000 (emit StopCamera ;; emit (Fire (onVerified (id user)))) ;;
    ret (Matched (id user))
  else
    reject 3000 BelowThreshold.

(** Line 120, negated: user.face_embedding || user.face_image_url. *)
Definition hasFaceData (user : UserRow) : bool :=
  match face_embedding user with
  | Some _ => true
  | None => truthy (face_image_url user)
  end.

(** Lines 88-305. *)
Definition verifyFace (rfidTag : string) : M Outcome :=
  match videoRef env with
  | None => emit (Fire onFailed) ;; ret (Rejected VideoElementMissing)
  | Some _ =>
      try_catch
        (q <- selectUser rfidTag ;;
         match q with
         | QueryError | QueryData None => reject 2000 UserNotFound
         | QueryData (Some user) =>
             if negb (hasFaceData user) then reject 2000 NoReferenceData
             else
               (if isLoading (hook env) then sleep 2000 else ret tt) ;;
               if isLoading (hook env) then reject 2000 ModelsNotReady
               else
                 sleep 1500 ;;
                 currentEmbedding <- attempts maxRetries 1 ;;
                 match currentEmbedding with
                 | None => reject 2000 NoLiveFace
                 | Some current =>
                     stored <- resolveStored user ;;
                     match stored with
                     | inl exit => ret exit
                     | inr storedEmbedding => scoring rfidTag user storedEmbedding current
                     end
                 end
         end)
        (reject 2000 UnexpectedError)
  end.

(** [n] ticks of the interval of line 41. *)
Fixpoint ticks (n : nat) : M unit :=
  match n with
  | O => ret tt
  | S n' => sleep 100 ;; ticks n'
  end.

(** Lines 29-56.  An awaited promise that never settles, and an interval
    none of whose ticks passes the test of line 42, leave the function
    pending; the promise of lines 40-48 is resolved by the first tick that
    passes the test. *)
Definition startCamera : M unit :=
  try_catch
    (emit GetUserMedia ;;
     match getUserMedia env with
     | Resolves =>
         match videoRef env with
         | Some _ =>
             match play env with
             | Resolves =>
                 match poll env with
                 | Some misses => ticks (S misses)
                 | None => hang
                 end
             | Rejects => throw
             | Pends => hang
             end
         | None => ret tt
         end
     | Rejects => throw
     | Pends => hang
     end)
    (emit (Fire onFailed)).

(** Lines 65-76.  The overlay of [startVisualDebug] runs beside the flow
    and is not part of it. *)
Definition startVerification (rfidTag : string) : M Outcome :=
  startCamera ;;
  setTimeout 3500 (verifyFace rfidTag).

End Flow.

Arguments Detection num : clear implicits.
Arguments Capability num : clear implicits.
Arguments StoredFace num : clear implicits.
Arguments UserRow num : clear implicits.
Arguments Env num : clear implicits.
Arguments QueryResult num : clear implicits.
Arguments DetectThrows {num}.

Definition initial : State :=
  {| verification_events := []; calls := 0; clock := 0 |}.

(** * The vocabulary of the properties *)

(** ** Descriptors to compute with *)

Definition F64 (l : list float) : FaceEmbedding float :=
  {| descriptor := l; timestamp := 0 |}.

Definition Real (l : list R) : FaceEmbedding R :=
  {| descriptor := l; timestamp := 0 |}.

Definition basis (n : nat) : list float := 1%float :: repeat 0%float n.

Definition unit_sums : Sums float :=
  {| dotProduct := 1%float; norm1 := 1%float; norm2 := 1%float |}.

Definition zero_sums : Sums R := {| dotProduct := 0%R; norm1 := 0%R; norm2 := 0%R |}.

(** The quadratic [norm1 * t^2 + 2 * dot * t + norm2] is a sum of squares. *)
Definition sum_of_squares (s : Sums R) : Prop :=
  (0 <= norm1 s /\ 0 <= norm2 s /\
   forall t, 0 <= norm1 s * t * t + 2 * dotProduct s * t + norm2 s)%R.

Section ScorerVocabulary.

Context {num : Type} `{JsNumber num}.

Definition sq_sum (a : list num) (init : num) : num :=
  fold_left (fun acc x => n_add acc (n_mul x x)) a init.

Definition dot_sum (a b : list num) (init : num) : num :=
  fold_left (fun acc xy => n_add acc (n_mul (fst xy) (snd xy))) (combine a b) init.

End ScorerVocabulary.

(** The order laws the threshold test relies on; both arithmetics have them. *)
Class JsOrder (num : Type) `{JsNumber num} := {
  ltb_not_geb : forall a b : num, n_ltb a b = true -> n_geb a b = false
}.

(** ** Traces *)

Definition is_Fire (e : Event) : bool :=
  match e with Fire _ => true | _ => false end.

Definition is_Attempt (e : Event) : bool :=
  match e with Attempt _ => true | _ => false end.

Definition is_LoadImage (e : Event) : bool :=
  match e with LoadImage _ => true | _ => false end.

Definition is_Insert (e : Event) : bool :=
  match e with InsertVerificationEvent _ => true | _ => false end.

(** How many times a continuation was called. *)
Definition fires (evs : list Event) : nat := List.length (filter is_Fire evs).

(** The attempts and the awaited delays of a trace, in order. *)
Definition marks (evs : list Event) : list Event :=
  filter (fun e => match e with Attempt _ | Sleep _ => true | _ => false end) evs.

(** The position of the first event that satisfies [p]. *)
Fixpoint position (p : Event -> bool) (evs : list Event) : option nat :=
  match evs with
  | [] => None
  | e :: evs' => if p e then Some O else option_map S (position p evs')
  end.

(** Events that neither end the verification nor touch the audit table. *)
Definition quiet (e : Event) : Prop :=
  match e with
  | Fire _ | InsertVerificationEvent _ | SetVerificationStatus _ | Timeout _ | StopCamera => False
  | _ => True
  end.

(** Events that are neither an attempt nor the loading of the reference
    image; events that are not an attempt; events that are not a load. *)
Definition early (e : Event) : Prop := is_Attempt e = false /\ is_LoadImage e = false.
Definition late (e : Event) : Prop := is_Attempt e = false.
Definition live (e : Event) : Prop := is_LoadImage e = false.

(** The row line 277 inserts. *)
Definition audit_row (userId rfidTag : string) : AuditEvent :=
  {| user_id := userId; rfid_tag := rfidTag; face_verified := true; rfid_verified := true |}.

(** The last events of an accepting and of a rejecting exit. *)
Definition accept_block (userId rfidTag : string) : list Event :=
  [SetVerificationStatus success; InsertVerificationEvent (audit_row userId rfidTag);
   Timeout 3000; StopCamera; Fire (onVerified userId)].

Definition reject_block (ms : Z) : list Event :=
  [SetVerificationStatus failed; Timeout ms; StopCamera; Fire onFailed].

(** The rows a run asks the audit table to insert, given how it ended. *)
Definition requested (rfidTag : string) (r : Res Outcome) : list AuditEvent :=
  match r with
  | Ok (Matched userId) => [audit_row userId rfidTag]
  | _ => []
  end.

(** The rows a run adds to the audit table, given how it ended and
    whether the table accepts the insert. *)
Definition audit_delta (accepted : bool) (rfidTag : string) (r : Res Outcome) :
    list AuditEvent :=
  if accepted then requested rfidTag r else [].

(** The marks of a loop that starts at [attempt] and makes [more] further
    iterations: a 1500 ms delay before each further attempt, none after
    the last. *)
Definition between (attempt more : nat) : list Event :=
  Attempt attempt :: flat_map (fun a => [Sleep 1500; Attempt a]) (seq (S attempt) more).

(** ** Computations *)

(** A computation is silent when it emits only quiet events, leaves the
    audit table alone and settles. *)
Definition silent {A} (m : M A) : Prop :=
  forall s,
    Forall quiet (emitted (m s)) /\
    verification_events (after (m s)) = verification_events s /\
    result (m s) <> Hang.

(** A computation returns when it neither throws nor hangs. *)
Definition returns {A} (m : M A) : Prop :=
  forall s, exists a, result (m s) = Ok a.

Definition emits {A} (P : Event -> Prop) (m : M A) : Prop :=
  forall s, Forall P (emitted (m s)).

(** A step that started in [before] ends well for the tag [rfidTag] when,
    if it returned, it emitted quiet events followed by exactly one closing
    block: the accepting block, with the audit row appended if the table
    accepts it, or a rejecting block, with the audit table as it was.  A
    step that threw has emitted only quiet events. *)
Definition ends_well (accepted : bool) (rfidTag : string) (before : State)
    (r : Step Outcome) : Prop :=
  match result r with
  | Ok (Matched userId) =>
      userId = rfidTag /\
      (exists pre, Forall quiet pre /\ emitted r = pre ++ accept_block rfidTag rfidTag) /\
      verification_events (after r) =
        verification_events before ++
        (if accepted then [audit_row rfidTag rfidTag] else [])
  | Ok (Rejected _) =>
      (exists pre ms, Forall quiet pre /\ (ms = 2000 \/ ms = 3000)%Z /\
                      emitted r = pre ++ reject_block ms) /\
      verification_events (after r) = verification_events before
  | Throw =>
      Forall quiet (emitted r) /\
      verification_events (after r) = verification_events before
  | Hang => False
  end.

Definition closes (accepted : bool) (rfidTag : string) (m : M Outcome) : Prop :=
  forall s, ends_well accepted rfidTag s (m s).

Definition bump (s : State) : State :=
  {| verification_events := verification_events s; calls := S (calls s); clock := clock s |}.

Definition delayed (ms : Z) (s : State) : State :=
  {| verification_events := verification_events s;
     calls := calls s;
     clock := (clock s + ms)%Z |}.

Section FlowVocabulary.

Context {num : Type} `{JsNumber num}.
Variable env : Env num.

(** Whether a call of [detectFaces] on [videoElement] reaches the detection
    capability. *)
Definition reaches (videoElement : option Video) : bool :=
  modelsLoaded (hook env) &&
  match videoElement with
  | Some v => negb ((videoWidth v =? 0)%Z || (videoHeight v =? 0)%Z)
  | None => false
  end.

Definition detections_of (c : Capability num) : option (list (Detection num)) :=
  match c with
  | DetectThrows => None
  | Detected detections => Some detections
  end.

(** The descriptor [extractFaceEmbedding] takes from an outcome of the
    detection capability: that of the first face, if there is one. *)
Definition first_face (c : Capability num) : option (list num) :=
  match c with
  | Detected (detection :: _) => Some (det_descriptor detection)
  | _ => None
  end.

(** The descriptor the extraction of an attempt yields when the detection
    capability has been called [call] times before it. *)
Definition liveExtraction (call : nat) : option (list num) :=
  if reaches (videoRef env) then first_face (detectAllFaces env call) else None.

(** One iteration: the face check of line 177, then the extraction of
    line 190. *)
Definition iteration (attempt : nat) : M (option (FaceEmbedding num)) :=
  (emit (Attempt attempt) ;;
   faces <- detectFaces env (videoRef env) ;;
   emit (SetFaceDetected match faces with
                         | Some (_ :: _) => true
                         | _ => false
                         end) ;;
   extractFaceEmbedding env (videoRef env))%flow.

(** Lines 246-261: the try block around [extractEmbeddingFromImage]. *)
Definition resolveFromImage (imageUrl : string) : M (Outcome + option (StoredFace num)) :=
  try_catch
    (e <- extractEmbeddingFromImage env imageUrl ;; ret (inr (Some (StoredEmbedding e))))
    (r <- reject 2000 ReferenceImageFailed ;; ret (inl r)).

(** The part of [verifyFace] that follows a successful query for a user
    with reference data, once the models are loaded: lines 159-296. *)
Definition afterReady (rfidTag : string) (user : UserRow num) : M Outcome :=
  (sleep 1500 ;;
   currentEmbedding <- attempts env maxRetries 1 ;;
   match currentEmbedding with
   | None => reject 2000 NoLiveFace
   | Some current =>
       stored <- resolveStored env user ;;
       match stored with
       | inl exit => ret exit
       | inr storedEmbedding => scoring env rfidTag user storedEmbedding current
       end
   end)%flow.

End FlowVocabulary.

(** ** Stored URLs *)

Fixpoint all_white_space (s : string) : bool :=
  match s with
  | EmptyString => true
  | String c s' => is_white_space c && all_white_space s'
  end.

(** * A kiosk to run the flow on *)

Module Kiosk.

Definition camera : Video := {| videoWidth := 640; videoHeight := 480 |}.

Definition face (d : list float) : Detection float :=
  {| det_descriptor := d; det_score := 0x1.cp-1%float |}.

(** A user registered with a descriptor. *)
Definition alice : UserRow float :=
  {| id := "04A1B2C3";
     name := "Alice";
     face_embedding := Some (StoredEmbedding (F64 [1; 0; 0]%float));
     face_image_url := None |}.

(** A user registered with a quoted image URL only. *)
Definition bob : UserRow float :=
  {| id := "04D4E5F6";
     name := "Bob";
     face_embedding := None;
     face_image_url := Some (quote ++ "https://example.com/f.jpg" ++ quote)%string |}.

Definition loaded : Hook := {| isLoading := false; modelsLoaded := true |}.
Definition loading : Hook := {| isLoading := true; modelsLoaded := false |}.

(** The camera shows no face for the first two attempts, then the face of
    the registered descriptor. *)
Definition env : Env float :=
  {| getUserMedia := Resolves;
     play := Resolves;
     poll := Some 0;
     videoRef := Some camera;
     hook := loaded;
     users := [alice; bob];
     select_error := false;
     detectAllFaces := fun call => if (call <? 4)%nat then Detected []
                                   else Detected [face [1; 0; 0]%float];
     loadImage := fun _ => Playing camera;
     insert_accepted := true |}.


(** The same kiosk with nobody in front of the camera. *)
Definition env_empty : Env float :=
  {| getUserMedia := Resolves;
     play := Resolves;
     poll := Some 0;
     videoRef := Some camera;
     hook := loaded;
     users := [alice; bob];
     select_error := false;
     detectAllFaces := fun _ => Detected [];
     loadImage := fun _ => Playing camera;
     insert_accepted := true |}.

(** The same kiosk before the models are loaded. *)
Definition env_loading : Env float :=
  {| getUserMedia := Resolves;
     play := Resolves;
     poll := Some 0;
     videoRef := Some camera;
     hook := loading;
     users := [alice; bob];
     select_error := false;
     detectAllFaces := fun _ => Detected [face [1; 0; 0]%float];
     loadImage := fun _ => Playing camera;
     insert_accepted := true |}.

End Kiosk.

(** * More vocabulary *)

(** The descriptor of [n] zeros. *)
Definition zeros (n : nat) : list float := repeat 0%float n.

(** ** useFaceDetection.ts, lines 11-47: loading the models *)

(** The three networks, in the order the effect loads them. *)
Inductive Net := TinyFaceDetector | FaceLandmark68Net | FaceRecognitionNet.

(** What awaiting [loadFromUri] leads to. *)
Inductive NetLoad := NetLoaded | NetFails | NetPending.

(** The three pieces of state of the hook. *)
Record HookState := {
  hook_isLoading : bool;
  hook_error : option string;
  hook_modelsLoaded : bool
}.

(** Lines 11-13: the values of the first render. *)
Definition mountedHook : HookState :=
  {| hook_isLoading := true; hook_error := None; hook_modelsLoaded := false |}.

Definition loadError : string :=
  "Failed to load face detection models. Check console for details.".

(** Lines 34-35. *)
Definition modelsReady (h : HookState) : HookState :=
  {| hook_isLoading := false; hook_error := hook_error h; hook_modelsLoaded := true |}.

(** Lines 40-41. *)
Definition modelsFailed (h : HookState) : HookState :=
  {| hook_isLoading := false; hook_error := Some loadError;
     hook_modelsLoaded := hook_modelsLoaded h |}.

(** Lines 16-44: the networks requested, in order, and the state the hook
    is left in.  A load that never settles leaves the state as it is. *)
Definition loadModels (loadFromUri : Net -> NetLoad) (h : HookState) : list Net * HookState :=
  match loadFromUri TinyFaceDetector with
  | NetLoaded =>
      match loadFromUri FaceLandmark68Net with
      | NetLoaded =>
          match loadFromUri FaceRecognitionNet with
          | NetLoaded =>
              ([TinyFaceDetector; FaceLandmark68Net; FaceRecognitionNet], modelsReady h)
          | NetFails =>
              ([TinyFaceDetector; FaceLandmark68Net; FaceRecognitionNet], modelsFailed h)
          | NetPending =>
              ([TinyFaceDetector; FaceLandmark68Net; FaceRecognitionNet], h)
          end
      | NetFails => ([TinyFaceDetector; FaceLandmark68Net], modelsFailed h)
      | NetPending => ([TinyFaceDetector; FaceLandmark68Net], h)
      end
  | NetFails => ([TinyFaceDetector], modelsFailed h)
  | NetPending => ([TinyFaceDetector], h)
  end.

(** The networks the effect loads before [n]. *)
Definition loadedBefore (n : Net) : list Net :=
  match n with
  | TinyFaceDetector => []
  | FaceLandmark68Net => [TinyFaceDetector]
  | FaceRecognitionNet => [TinyFaceDetector; FaceLandmark68Net]
  end.

(** What the component and the closures of the hook read of that state. *)
Definition hookOf (h : HookState) : Hook :=
  {| isLoading := hook_isLoading h; modelsLoaded := hook_modelsLoaded h |}.

(** ** FaceVerification.tsx, lines 389-454: what is rendered *)

Inductive ResultOverlay := Verified | VerificationFailed.

Record View := {
  faceHint : bool;                    (* line 394: the hint reads "Face detected" *)
  guide : bool;                       (* line 414: the oval guide is shown *)
  guideGreen : bool;                  (* line 417: its border is green *)
  checkmark : bool;                   (* line 421 *)
  overlay : option ResultOverlay;     (* lines 429-443 *)
  pulse : bool                        (* line 446: "Verifying your face..." *)
}.

Definition isIdle (verificationStatus : Status) : bool :=
  match verificationStatus with idle => true | _ => false end.

Definition render (verificationStatus : Status) (faceDetected isVerifying : bool) : View :=
  {| faceHint := faceDetected;
     guide := isIdle verificationStatus;
     guideGreen := isIdle verificationStatus && faceDetected;
     checkmark := isIdle verificationStatus && faceDetected;
     overlay := match verificationStatus with
                | idle => None
                | success => Some Verified
                | failed => Some VerificationFailed
                end;
     pulse := isVerifying && isIdle verificationStatus |}.

(** The value of [verificationStatus] and of [faceDetected] once the
    setters of a trace have run, from the values [status] and [detected]. *)
Fixpoint statusAfter (evs : list Event) (status : Status) : Status :=
  match evs with
  | [] => status
  | SetVerificationStatus s :: evs' => statusAfter evs' s
  | _ :: evs' => statusAfter evs' status
  end.

Fixpoint faceDetectedAfter (evs : list Event) (detected : bool) : bool :=
  match evs with
  | [] => detected
  | SetFaceDetected b :: evs' => faceDetectedAfter evs' b
  | _ :: evs' => faceDetectedAfter evs' detected
  end.

(** ** More about traces *)

Definition is_Detect (e : Event) : bool :=
  match e with DetectAllFaces _ => true | _ => false end.

(** How often a trace invokes the detection capability. *)
Definition detections (evs : list Event) : nat := List.length (filter is_Detect evs).

(** The display-hold of each rejecting exit that has one. *)
Definition holdOf (reason : Reason) : Z :=
  match reason with
  | InvalidReference | BelowThreshold => 3000
  | _ => 2000
  end.

(** The closing block of an exit. *)
Definition closing (rfidTag : string) (o : Outcome) : list Event :=
  match o with
  | Matched userId => accept_block userId rfidTag
  | Rejected reason => reject_block (holdOf reason)
  end.

(** A step exits by the table when, if it returned, its exit is not the
    one of the missing video element and its trace is quiet events followed
    by the closing block of that exit. *)
Definition exits_by (rfidTag : string) (r : Step Outcome) : Prop :=
  match result r with
  | Ok o =>
      o <> Rejected VideoElementMissing /\
      exists pre, Forall quiet pre /\ emitted r = pre ++ closing rfidTag o
  | Throw => Forall quiet (emitted r)
  | Hang => False
  end.

Definition exits (rfidTag : string) (m : M Outcome) : Prop :=
  forall s, exits_by rfidTag (m s).

(** A computation is metered by [c] when the detection counter advances by
    the number of detections in its trace, which is at most [c]. *)
Definition metered {A} (c : nat) (m : M A) : Prop :=
  forall s,
    calls (after (m s)) = calls s + detections (emitted (m s)) /\
    detections (emitted (m s)) <= c.

(** The outcome of the query of lines 98-102. *)
Definition lookup {num : Type} `{JsNumber num} (env : Env num) (rfidTag : string) :
    QueryResult num :=
  if select_error env then QueryError
  else maybeSingle (filter (fun u => String.eqb (id u) rfidTag) (users env)).

(** The exits [verifyFace] can take once the retry loop has started. *)
Definition late_outcome (o : Outcome) : Prop :=
  match o with
  | Matched _ => True
  | Rejected reason =>
      match reason with
      | NoLiveFace | InvalidReference | ReferenceImageFailed | BelowThreshold
      | UnexpectedError => True
      | _ => False
      end
  end.

(** A computation yields [P] when every value it returns satisfies [P]. *)
Definition yields {A} (P : A -> Prop) (m : M A) : Prop :=
  forall s a, result (m s) = Ok a -> P a.

(** A computation is timed by [ok] and [th] when the timers it awaits take
    at most [ok] milliseconds if it returns and at most [th] if it throws. *)
Definition timed {A} (ok th : Z) (m : M A) : Prop :=
  forall s,
    match result (m s) with
    | Ok _ => (clock s <= clock (after (m s)) <= clock s + ok)%Z
    | Throw => (clock s <= clock (after (m s)) <= clock s + th)%Z
    | Hang => True
    end.

(** The events of a loop none of whose attempts reaches the detection
    capability, with [remaining] iterations left. *)
Fixpoint idle_loop (remaining attempt : nat) : list Event :=
  match remaining with
  | O => []
  | S remaining' =>
      Attempt attempt :: SetFaceDetected false ::
      match remaining' with
      | O => []
      | S _ => Sleep 1500 :: idle_loop remaining' (S attempt)
      end
  end.

(** The time the poll of lines 40-48 takes when it ends. *)
Definition pollTime {num : Type} `{JsNumber num} (env : Env num) : Z :=
  match poll env with
  | Some misses => 100 * Z.of_nat (S misses)
  | None => 0
  end.

(** ** More kiosks *)

Module Cases.

(** A kiosk whose [detectFaces] and [extractFaceEmbedding] are those of a
    render that follows the failure of the third network to load. *)
Definition env_failed : Env float :=
  {| getUserMedia := Resolves;
     play := Resolves;
     poll := Some 0;
     videoRef := Some Kiosk.camera;
     hook := hookOf (snd (loadModels (fun n => match n with
                                               | FaceRecognitionNet => NetFails
                                               | _ => NetLoaded
                                               end) mountedHook));
     users := [Kiosk.alice; Kiosk.bob];
     select_error := false;
     detectAllFaces := fun _ => Detected [Kiosk.face [1; 0; 0]%float];
     loadImage := fun _ => Playing Kiosk.camera;
     insert_accepted := true |}.

(** The tag of the first user is registered twice. *)
Definition env_duplicate : Env float :=
  {| getUserMedia := Resolves;
     play := Resolves;
     poll := Some 0;
     videoRef := Some Kiosk.camera;
     hook := Kiosk.loaded;
     users := [Kiosk.alice; Kiosk.bob; Kiosk.alice];
     select_error := false;
     detectAllFaces := fun _ => Detected [Kiosk.face [1; 0; 0]%float];
     loadImage := fun _ => Playing Kiosk.camera;
     insert_accepted := true |}.

(** A user whose stored URL has a space inside the quotes. *)
Definition carol : UserRow float :=
  {| id := "04070809";
     name := "Carol";
     face_embedding := None;
     face_image_url := Some (quote ++ " https://example.com/c.jpg" ++ quote)%string |}.

(** A user whose stored embedding is a bare array: it has no descriptor. *)
Definition dave : UserRow float :=
  {| id := "040A0B0C";
     name := "Dave";
     face_embedding := Some StoredNoDescriptor;
     face_image_url := None |}.

(** A user whose stored embedding holds a number as its descriptor. *)
Definition grace : UserRow float :=
  {| id := "04131415";
     name := "Grace";
     face_embedding := Some StoredUnsized;
     face_image_url := None |}.

(** A user whose stored URL is the empty string. *)
Definition erin : UserRow float :=
  {| id := "040D0E0F";
     name := "Erin";
     face_embedding := None;
     face_image_url := Some EmptyString |}.

(** A user registered with a descriptor and with a URL that is not public. *)
Definition frank : UserRow float :=
  {| id := "04101112";
     name := "Frank";
     face_embedding := Some (StoredEmbedding (F64 [1; 0; 0]%float));
     face_image_url := Some "faces/frank.jpg"%string |}.

Definition env_more : Env float :=
  {| getUserMedia := Resolves;
     play := Resolves;
     poll := Some 0;
     videoRef := Some Kiosk.camera;
     hook := Kiosk.loaded;
     users := [Kiosk.alice; Kiosk.bob; carol; dave; erin; frank; grace];
     select_error := false;
     detectAllFaces := fun _ => Detected [Kiosk.face [1; 0; 0]%float];
     loadImage := fun _ => Playing Kiosk.camera;
     insert_accepted := true |}.

(** The camera is granted but the video never reports a width. *)
Definition env_blank : Env float :=
  {| getUserMedia := Resolves;
     play := Resolves;
     poll := None;
     videoRef := Some {| videoWidth := 0; videoHeight := 0 |};
     hook := Kiosk.loaded;
     users := [Kiosk.alice; Kiosk.bob];
     select_error := false;
     detectAllFaces := fun _ => Detected [Kiosk.face [1; 0; 0]%float];
     loadImage := fun _ => Playing Kiosk.camera;
     insert_accepted := true |}.

(** Nobody is in front of the camera until the tenth attempt, and the user
    is registered with an image. *)
Definition env_slow : Env float :=
  {| getUserMedia := Resolves;
     play := Resolves;
     poll := Some 0;
     videoRef := Some Kiosk.camera;
     hook := Kiosk.loaded;
     users := [Kiosk.alice; Kiosk.bob];
     select_error := false;
     detectAllFaces := fun call => if (call <? 19)%nat then Detected []
                                   else Detected [Kiosk.face [1; 0; 0]%float];
     loadImage := fun _ => Playing Kiosk.camera;
     insert_accepted := true |}.

(** The kiosk when the audit table refuses the insert. *)
Definition env_refusing : Env float :=
  {| getUserMedia := Resolves;
     play := Resolves;
     poll := Some 0;
     videoRef := Some Kiosk.camera;
     hook := Kiosk.loaded;
     users := [Kiosk.alice; Kiosk.bob];
     select_error := false;
     detectAllFaces := fun _ => Detected [Kiosk.face [1; 0; 0]%float];
     loadImage := fun _ => Playing Kiosk.camera;
     insert_accepted := false |}.

(** The video reports a width but no height. *)
Definition env_flat : Env float :=
  {| getUserMedia := Resolves;
     play := Resolves;
     poll := Some 0;
     videoRef := Some {| videoWidth := 640; videoHeight := 0 |};
     hook := Kiosk.loaded;
     users := [Kiosk.alice; Kiosk.bob];
     select_error := false;
     detectAllFaces := fun _ => Detected [Kiosk.face [1; 0; 0]%float];
     loadImage := fun _ => Playing Kiosk.camera;
     insert_accepted := true |}.


(** The video reports its width at the fourth tick of the poll, the tenth
    attempt is the first to capture a face, and the reference is an image. *)
Definition env_late : Env float :=
  {| getUserMedia := Resolves;
     play := Resolves;
     poll := Some 3;
     videoRef := Some Kiosk.camera;
     hook := Kiosk.loaded;
     users := [Kiosk.alice; Kiosk.bob];
     select_error := false;
     detectAllFaces := fun call => if (call <? 19)%nat then Detected []
                                   else Detected [Kiosk.face [1; 0; 0]%float];
     loadImage := fun _ => Playing Kiosk.camera;
     insert_accepted := true |}.

End Cases.

(** * Properties of the scorer *)

Example ex_clean_quoted :
  cleanImageUrl (quote ++ "https://example.com/f.jpg" ++ quote) = "https://example.com/f.jpg"%string.
Proof. reflexivity. Qed.

Example ex_clean_single_quote : cleanImageUrl quote = ""%string.
Proof. reflexivity. Qed.

Example alice_is_verified :
  result (startVerification Kiosk.env "04A1B2C3" initial) = Ok (Matched "04A1B2C3").
Proof. reflexivity. Qed.

Example bob_is_verified :
  result (startVerification Kiosk.env "04D4E5F6" initial) = Ok (Matched "04D4E5F6").
Proof. reflexivity. Qed.

Example stranger_is_rejected :
  startVerification Kiosk.env "FFFFFFFF" initial =
    {| result := Ok (Rejected UserNotFound);
       after := {| verification_events := []; calls := 0; clock := 5600 |};
       emitted := [GetUserMedia; Sleep 100; Timeout 3500; SelectUser "FFFFFFFF";
                   SetVerificationStatus failed; Timeout 2000; StopCamera; Fire onFailed] |}.
Proof. reflexivity. Qed.

Example loading_is_rejected :
  result (startVerification Kiosk.env_loading "04A1B2C3" initial) = Ok (Rejected ModelsNotReady).
Proof. reflexivity. Qed.

Example score_3_4 : compareFaces (F64 [3; 4]%float) (F64 [3; 4]%float) = 1%float.
Proof. reflexivity. Qed.

Example score_orthogonal : compareFaces (F64 [1; 0]%float) (F64 [0; 1]%float) = 0.5%float.
Proof. reflexivity. Qed.

Example score_zero_vector : compareFaces (F64 [3; 4]%float) (F64 [0; 0]%float) = 0%float.
Proof. reflexivity. Qed.

Example score_length_mismatch : compareFaces (F64 [3; 4]%float) (F64 [3]%float) = 0%float.
Proof. reflexivity. Qed.

Section ScorerFacts.

Context {num : Type} `{JsNumber num}.

(** The single loop of the source computes the three sums of the reference
    definition, each in the same left-to-right order. *)
Lemma accumulate_sums (a : list num) :
  forall (b : list num) (acc : Sums num),
    List.length a = List.length b ->
    accumulate a b acc =
      {| dotProduct := dot_sum a b (dotProduct acc);
         norm1 := sq_sum a (norm1 acc);
         norm2 := sq_sum b (norm2 acc) |}.
Proof.
  induction a as [|x a IH]; intros [|y b] acc Hlen; simpl in Hlen; try discriminate.
  - destruct acc; reflexivity.
  - injection Hlen as Hlen. cbn [accumulate].
    rewrite (IH b _ Hlen). reflexivity.
Qed.

Lemma compareDescriptors_reference (a b : list num) :
  compareDescriptors a b = score_reference a b.
Proof.
  unfold compareDescriptors, score_reference, cosine, magnitude, dot.
  destruct (Nat.eqb (List.length a) (List.length b)) eqn:Hlen; cbn [negb]; [|reflexivity].
  apply Nat.eqb_eq in Hlen.
  rewrite (accumulate_sums a b _ Hlen). reflexivity.
Qed.

Lemma compareDescriptors_length (a b : list num) :
  List.length a <> List.length b -> compareDescriptors a b = n_zero.
Proof.
  intros Hne. unfold compareDescriptors.
  destruct (Nat.eqb (List.length a) (List.length b)) eqn:Hlen; [|reflexivity].
  apply Nat.eqb_eq in Hlen. contradiction.
Qed.

Lemma dot_sum_same (a : list num) :
  forall init : num, dot_sum a a init = sq_sum a init.
Proof.
  unfold dot_sum, sq_sum. induction a as [|x a IH]; intros init; [reflexivity|].
  cbn [combine fold_left fst snd]. apply IH.
Qed.

(** A descriptor against itself: the dot product and both squared norms
    are the same number [n], whatever the arithmetic. *)
Lemma compareDescriptors_same (a : list num) :
  compareDescriptors a a =
    let n := sq_sum a n_zero in
    if n_eqb (n_sqrt n) n_zero then n_zero
    else n_div (n_add (n_div n (n_mul (n_sqrt n) (n_sqrt n))) n_one) n_two.
Proof.
  unfold compareDescriptors. rewrite Nat.eqb_refl. cbn [negb].
  rewrite (accumulate_sums a a _ eq_refl). cbn [dotProduct norm1 norm2].
  rewrite dot_sum_same, orb_diag. reflexivity.
Qed.

End ScorerFacts.

(** ** Exact arithmetic *)

Section ExactScorer.

Local Open Scope R_scope.

Lemma Reqb_true (a b : R) : Reqb a b = true <-> a = b.
Proof. unfold Reqb. destruct (Req_dec_T a b); split; intros; congruence. Qed.

Lemma Reqb_false (a b : R) : Reqb a b = false <-> a <> b.
Proof. unfold Reqb. destruct (Req_dec_T a b); split; intros; congruence. Qed.

Lemma accumulate_sum_of_squares (a : list R) :
  forall (b : list R) (acc : Sums R),
    sum_of_squares acc -> sum_of_squares (accumulate a b acc).
Proof.
  induction a as [|x a IH]; intros [|y b] acc Hacc; cbn [accumulate]; try assumption.
  apply IH. destruct Hacc as (H1 & H2 & Hq).
  unfold sum_of_squares; cbn [norm1 norm2 dotProduct n_add n_mul Exact].
  repeat split.
  - pose proof (Rle_0_sqr x) as Hx. unfold Rsqr in Hx. lra.
  - pose proof (Rle_0_sqr y) as Hy. unfold Rsqr in Hy. lra.
  - intros t. specialize (Hq t).
    pose proof (Rle_0_sqr (x * t + y)) as Hs. unfold Rsqr in Hs. nra.
Qed.

(** Cauchy-Schwarz, from the discriminant of the quadratic. *)
Lemma sum_of_squares_cauchy (s : Sums R) :
  sum_of_squares s -> dotProduct s * dotProduct s <= norm1 s * norm2 s.
Proof.
  intros (H1 & H2 & Hq).
  destruct (Req_dec_T (norm1 s) 0) as [Hz | Hnz].
  - assert (Hd : dotProduct s = 0).
    { destruct (Req_dec_T (dotProduct s) 0) as [|Hd]; [assumption|exfalso].
      specialize (Hq (- (norm2 s + 1) / (2 * dotProduct s))).
      rewrite Hz in Hq.
      replace (2 * dotProduct s * (- (norm2 s + 1) / (2 * dotProduct s)))
        with (- (norm2 s + 1)) in Hq by (field; assumption).
      lra. }
    rewrite Hd, Hz. lra.
  - assert (Hpos : 0 < norm1 s) by lra.
    specialize (Hq (- dotProduct s / norm1 s)).
    replace (norm1 s * (- dotProduct s / norm1 s) * (- dotProduct s / norm1 s) +
             2 * dotProduct s * (- dotProduct s / norm1 s) + norm2 s)
      with ((norm1 s * norm2 s - dotProduct s * dotProduct s) / norm1 s) in Hq
      by (field; assumption).
    assert (Hn : 0 <= norm1 s * norm2 s - dotProduct s * dotProduct s).
    { replace (norm1 s * norm2 s - dotProduct s * dotProduct s)
        with (((norm1 s * norm2 s - dotProduct s * dotProduct s) / norm1 s) * norm1 s)
        by (field; assumption).
      apply Rmult_le_pos; lra. }
    lra.
Qed.

Lemma zero_sums_sum_of_squares : sum_of_squares zero_sums.
Proof. unfold sum_of_squares, zero_sums; cbn. repeat split; try lra. intros t. lra. Qed.

Lemma compareDescriptors_exact_range (a b : list R) :
  0 <= compareDescriptors a b <= 1.
Proof.
  unfold compareDescriptors.
  destruct (negb _); cbn [n_zero Exact]; [lra|].
  cbn [n_sqrt n_eqb n_div n_add n_mul n_one n_two n_zero Exact].
  fold zero_sums.
  pose proof (accumulate_sum_of_squares a b zero_sums_sum_of_squares) as Hs.
  pose proof (sum_of_squares_cauchy Hs) as Hcs.
  destruct Hs as (H1 & H2 & _).
  set (s := accumulate a b zero_sums) in *.
  destruct (Reqb (sqrt (norm1 s)) 0) eqn:E1; cbn [orb]; [lra|].
  destruct (Reqb (sqrt (norm2 s)) 0) eqn:E2; [lra|].
  apply Reqb_false in E1, E2.
  pose proof (sqrt_pos (norm1 s)) as P1. pose proof (sqrt_pos (norm2 s)) as P2.
  assert (Hp : 0 < sqrt (norm1 s) * sqrt (norm2 s)) by (apply Rmult_lt_0_compat; lra).
  set (p := sqrt (norm1 s) * sqrt (norm2 s)) in *.
  assert (Hpp : p * p = norm1 s * norm2 s).
  { unfold p.
    replace (sqrt (norm1 s) * sqrt (norm2 s) * (sqrt (norm1 s) * sqrt (norm2 s)))
      with ((sqrt (norm1 s) * sqrt (norm1 s)) * (sqrt (norm2 s) * sqrt (norm2 s))) by ring.
    rewrite !sqrt_sqrt by assumption. reflexivity. }
  assert (Hd : - p <= dotProduct s <= p) by (split; nra).
  assert (Hc : -1 <= dotProduct s / p <= 1).
  { split.
    - apply Rmult_le_reg_r with p; [assumption|].
      replace (dotProduct s / p * p) with (dotProduct s) by (field; lra). lra.
    - apply Rmult_le_reg_r with p; [assumption|].
      replace (dotProduct s / p * p) with (dotProduct s) by (field; lra). lra. }
  lra.
Qed.

End ExactScorer.

Section ExactIdentical.

Local Open Scope R_scope.

Lemma accumulate_same (a : list R) :
  forall acc : Sums R,
    dotProduct acc = norm1 acc -> norm2 acc = norm1 acc ->
    dotProduct (accumulate a a acc) = norm1 (accumulate a a acc) /\
    norm2 (accumulate a a acc) = norm1 (accumulate a a acc).
Proof.
  induction a as [|x a IH]; intros acc Hd Hn; cbn [accumulate]; [tauto|].
  apply IH; cbn [dotProduct norm1 norm2]; congruence.
Qed.

Lemma compareDescriptors_exact_same (a : list R) :
  magnitude a <> 0 -> compareDescriptors a a = 1.
Proof.
  intros Hm. unfold compareDescriptors.
  rewrite Nat.eqb_refl. cbn [negb].
  cbn [n_sqrt n_eqb n_div n_add n_mul n_one n_two n_zero Exact].
  fold zero_sums.
  pose proof (accumulate_sum_of_squares a a zero_sums_sum_of_squares) as (H1 & _ & _).
  destruct (accumulate_same a zero_sums eq_refl eq_refl) as [Hd Hn].
  pose proof (accumulate_sums a a zero_sums eq_refl) as Hsum.
  assert (Hmag : sqrt (norm1 (accumulate a a zero_sums)) = magnitude a).
  { rewrite Hsum. reflexivity. }
  set (s := accumulate a a zero_sums) in *.
  rewrite Hn, Hd, Hmag.
  assert (E : Reqb (magnitude a) 0 = false) by (apply Reqb_false; assumption).
  rewrite E. cbn [orb].
  rewrite <- Hmag, sqrt_sqrt by assumption.
  assert (Hnz : norm1 s <> 0).
  { intros Hz. apply Hm. rewrite <- Hmag, Hz. apply sqrt_0. }
  field. assumption.
Qed.

Lemma compareDescriptors_exact_zero_norm (a b : list R) :
  magnitude a = 0 \/ magnitude b = 0 -> compareDescriptors a b = 0.
Proof.
  intros Hz. rewrite compareDescriptors_reference. unfold score_reference.
  destruct (negb _); [reflexivity|].
  cbn [n_eqb n_zero Exact].
  destruct Hz as [Hz | Hz]; rewrite Hz.
  - replace (Reqb 0 0) with true by (symmetry; apply Reqb_true; reflexivity).
    reflexivity.
  - replace (Reqb 0 0) with true by (symmetry; apply Reqb_true; reflexivity).
    rewrite orb_true_r. reflexivity.
Qed.

Lemma compareDescriptors_exact_orthogonal (a b : list R) :
  List.length a = List.length b ->
  magnitude a <> 0 -> magnitude b <> 0 -> dot a b = 0 ->
  compareDescriptors a b = 1 / 2.
Proof.
  intros Hlen Ha Hb Hd. rewrite compareDescriptors_reference. unfold score_reference, cosine.
  apply Nat.eqb_eq in Hlen. rewrite Hlen. cbn [negb].
  cbn [n_eqb n_zero n_div n_add n_mul n_one n_two Exact].
  apply Reqb_false in Ha, Hb. rewrite Ha, Hb. cbn [orb].
  rewrite Hd. apply Reqb_false in Ha, Hb. field. split; assumption.
Qed.

End ExactIdentical.

(** ** binary64 *)

Section Binary64Scorer.

Lemma accumulate_zeros (n : nat) :
  accumulate (repeat 0%float n) (repeat 0%float n) unit_sums = unit_sums.
Proof.
  induction n as [|n IH]; [reflexivity|].
  cbn [repeat accumulate]. exact IH.
Qed.

Lemma compareDescriptors_basis (n : nat) :
  compareDescriptors (basis n) (basis n) = 1%float.
Proof.
  unfold compareDescriptors. rewrite Nat.eqb_refl. cbn [negb].
  unfold basis. cbn [accumulate].
  change (accumulate (repeat 0%float n) (repeat 0%float n) _)
    with (accumulate (repeat 0%float n) (repeat 0%float n) unit_sums).
  rewrite accumulate_zeros. reflexivity.
Qed.

(** [a < b] excludes [a >= b]; a NaN satisfies neither. *)
Lemma SFcompare_Lt_swap (a b : SpecFloat.spec_float) :
  SpecFloat.SFcompare a b = Some Lt -> SpecFloat.SFcompare b a = Some Gt.
Proof.
  destruct a as [sa | sa | | sa ma ea], b as [sb | sb | | sb mb eb]; cbn;
    try discriminate;
    try (destruct sa; try discriminate; destruct sb; try discriminate; reflexivity);
    try (destruct sa; discriminate || reflexivity);
    try (destruct sb; discriminate || reflexivity).
  destruct sa, sb; try discriminate; try reflexivity;
    rewrite (Z.compare_antisym ea eb);
    destruct (Z.compare ea eb) eqn:Ez; cbn; try discriminate; try reflexivity;
    pose proof (Pos.compare_cont_antisym ma mb Eq) as Ha; cbn [CompOpp] in Ha;
    change (Pos.compare_cont Eq mb ma) with (PosDef.Pos.compare_cont Eq mb ma) in Ha;
    change (Pos.compare_cont Eq ma mb) with (PosDef.Pos.compare_cont Eq ma mb) in Ha;
    rewrite <- Ha;
    destruct (PosDef.Pos.compare_cont Eq ma mb); cbn; intros; congruence.
Qed.

Lemma float_ltb_not_geb (a b : float) :
  PrimFloat.ltb a b = true -> PrimFloat.leb b a = false.
Proof.
  rewrite ltb_spec, leb_spec. unfold SpecFloat.SFltb, SpecFloat.SFleb.
  destruct (SpecFloat.SFcompare (Prim2SF a) (Prim2SF b)) as [[| |]|] eqn:E; try discriminate.
  intros _. rewrite (SFcompare_Lt_swap _ _ E). reflexivity.
Qed.

End Binary64Scorer.

#[export] Instance Float64_order : @JsOrder float Float64.
Proof. constructor. intros a b. cbn. apply float_ltb_not_geb. Qed.

#[export] Instance Exact_order : @JsOrder R Exact.
Proof.
  constructor. intros a b. cbn. unfold Rltb, Rgeb.
  destruct (Rlt_dec a b), (Rle_dec b a); try discriminate; try reflexivity.
  intros _. exfalso. lra.
Qed.

(** * Properties of the flow *)

Lemma fires_app (l1 l2 : list Event) : fires (l1 ++ l2) = fires l1 + fires l2.
Proof. unfold fires. rewrite filter_app, length_app. reflexivity. Qed.

Lemma fires_quiet (l : list Event) : Forall quiet l -> fires l = 0.
Proof.
  induction 1 as [|e l He _ IH]; [reflexivity|].
  unfold fires in *. cbn [filter]. destruct e; cbn in *; try assumption; contradiction.
Qed.

Lemma quiet_not_In_Fire (l : list Event) (k : Continuation) :
  Forall quiet l -> ~ In (Fire k) l.
Proof.
  intros Hq Hin. rewrite Forall_forall in Hq. exact (Hq _ Hin).
Qed.

(** ** Steps of the monad *)

Section Steps.

Context {A B : Type}.

Lemma bind_Ok (m : M A) (f : A -> M B) (s : State) (a : A) :
  result (m s) = Ok a ->
  bind m f s =
    {| result := result (f a (after (m s)));
       after := after (f a (after (m s)));
       emitted := emitted (m s) ++ emitted (f a (after (m s))) |}.
Proof. intros E. unfold bind. rewrite E. reflexivity. Qed.

Lemma bind_Throw (m : M A) (f : A -> M B) (s : State) :
  result (m s) = Throw ->
  bind m f s = {| result := Throw; after := after (m s); emitted := emitted (m s) |}.
Proof. intros E. unfold bind. rewrite E. reflexivity. Qed.

Lemma bind_Hang (m : M A) (f : A -> M B) (s : State) :
  result (m s) = Hang ->
  bind m f s = {| result := Hang; after := after (m s); emitted := emitted (m s) |}.
Proof. intros E. unfold bind. rewrite E. reflexivity. Qed.

Lemma bind_ret (a : A) (f : A -> M B) (s : State) :
  bind (ret a) f s =
    {| result := result (f a s); after := after (f a s); emitted := emitted (f a s) |}.
Proof. reflexivity. Qed.

Lemma try_catch_Ok (m handler : M A) (s : State) (a : A) :
  result (m s) = Ok a -> try_catch m handler s = m s.
Proof. intros E. unfold try_catch. rewrite E. reflexivity. Qed.

Lemma try_catch_Throw (m handler : M A) (s : State) :
  result (m s) = Throw ->
  try_catch m handler s =
    {| result := result (handler (after (m s)));
       after := after (handler (after (m s)));
       emitted := emitted (m s) ++ emitted (handler (after (m s))) |}.
Proof. intros E. unfold try_catch. rewrite E. reflexivity. Qed.

End Steps.

Lemma silent_ret {A} (a : A) : silent (ret a).
Proof. intros s; cbn. repeat split; [constructor | discriminate]. Qed.

Lemma silent_throw {A} : silent (@throw A).
Proof. intros s; cbn. repeat split; [constructor | discriminate]. Qed.

Lemma silent_emit (e : Event) : quiet e -> silent (emit e).
Proof. intros He s; cbn. repeat split; [repeat constructor; assumption | discriminate]. Qed.

Lemma silent_advance (ms : Z) : silent (advance ms).
Proof. intros s; cbn. repeat split; [constructor | discriminate]. Qed.

Lemma silent_bind {A B} (m : M A) (f : A -> M B) :
  silent m -> (forall a, silent (f a)) -> silent (bind m f).
Proof.
  intros Hm Hf s. destruct (Hm s) as (Hq & Hv & Hh).
  destruct (result (m s)) as [a| |] eqn:E.
  - rewrite (bind_Ok _ _ _ E); cbn.
    destruct (Hf a (after (m s))) as (Hq' & Hv' & Hh').
    repeat split; [apply Forall_app; split; assumption | congruence | assumption].
  - rewrite (bind_Throw _ _ _ E); cbn. repeat split; [assumption | assumption | discriminate].
  - contradiction.
Qed.

Lemma silent_sleep (ms : Z) : silent (sleep ms).
Proof.
  unfold sleep. apply silent_bind; [apply silent_emit; exact I|].
  intros _. apply silent_advance.
Qed.

Lemma returns_ret {A} (a : A) : returns (ret a).
Proof. intros s. exists a. reflexivity. Qed.

Lemma returns_bind {A B} (m : M A) (f : A -> M B) :
  returns m -> (forall a, returns (f a)) -> returns (bind m f).
Proof.
  intros Hm Hf s. destruct (Hm s) as [a E].
  rewrite (bind_Ok _ _ _ E); cbn. apply Hf.
Qed.

Lemma returns_sleep (ms : Z) : returns (sleep ms).
Proof. intros s. exists tt. reflexivity. Qed.

Lemma returns_emit (e : Event) : returns (emit e).
Proof. intros s. exists tt. reflexivity. Qed.

(** ** The embedding extractor *)

Section Extractor.

Context {num : Type} `{JsNumber num}.
Variable env : Env num.

Lemma detectFaces_skips (videoElement : option Video) (s : State) :
  reaches env videoElement = false ->
  detectFaces env videoElement s = {| result := Ok None; after := s; emitted := [] |}.
Proof.
  unfold reaches, detectFaces. intros Hr.
  destruct (modelsLoaded (hook env)); cbn in *; [|reflexivity].
  destruct videoElement as [v|]; [|reflexivity].
  destruct ((videoWidth v =? 0)%Z || (videoHeight v =? 0)%Z); [reflexivity|discriminate].
Qed.

Lemma detectFaces_calls (videoElement : option Video) (s : State) :
  reaches env videoElement = true ->
  detectFaces env videoElement s =
    {| result := Ok (detections_of (detectAllFaces env (calls s)));
       after := bump s;
       emitted := [DetectAllFaces (calls s)] |}.
Proof.
  unfold reaches, detectFaces. intros Hr.
  destruct (modelsLoaded (hook env)); cbn in *; [|discriminate].
  destruct videoElement as [v|]; [|discriminate].
  destruct ((videoWidth v =? 0)%Z || (videoHeight v =? 0)%Z); [discriminate|reflexivity].
Qed.

Lemma extractFaceEmbedding_skips (videoElement : option Video) (s : State) :
  reaches env videoElement = false ->
  extractFaceEmbedding env videoElement s = {| result := Ok None; after := s; emitted := [] |}.
Proof.
  intros Hr. unfold extractFaceEmbedding, bind.
  rewrite (detectFaces_skips _ _ Hr). reflexivity.
Qed.

Lemma extractFaceEmbedding_calls (videoElement : option Video) (s : State) :
  reaches env videoElement = true ->
  extractFaceEmbedding env videoElement s =
    {| result := Ok (option_map (fun d => {| descriptor := d; timestamp := clock s |})
                       (first_face (detectAllFaces env (calls s))));
       after := bump s;
       emitted := [DetectAllFaces (calls s)] |}.
Proof.
  intros Hr. unfold extractFaceEmbedding, bind.
  rewrite (detectFaces_calls _ _ Hr). cbn.
  destruct (detectAllFaces env (calls s)) as [|[|d ds]]; reflexivity.
Qed.

Lemma silent_detectFaces (videoElement : option Video) :
  silent (detectFaces env videoElement).
Proof.
  intros s. destruct (reaches env videoElement) eqn:Hr.
  - rewrite (detectFaces_calls _ _ Hr); cbn.
    repeat split; [repeat constructor | discriminate].
  - rewrite (detectFaces_skips _ _ Hr); cbn.
    repeat split; [constructor | discriminate].
Qed.

Lemma silent_extractFaceEmbedding (videoElement : option Video) :
  silent (extractFaceEmbedding env videoElement).
Proof.
  intros s. destruct (reaches env videoElement) eqn:Hr.
  - rewrite (extractFaceEmbedding_calls _ _ Hr); cbn.
    repeat split; [repeat constructor | discriminate].
  - rewrite (extractFaceEmbedding_skips _ _ Hr); cbn.
    repeat split; [constructor | discriminate].
Qed.

Lemma returns_detectFaces (videoElement : option Video) :
  returns (detectFaces env videoElement).
Proof.
  intros s. destruct (reaches env videoElement) eqn:Hr.
  - rewrite (detectFaces_calls _ _ Hr); cbn. eauto.
  - rewrite (detectFaces_skips _ _ Hr); cbn. eauto.
Qed.

Lemma returns_extractFaceEmbedding (videoElement : option Video) :
  returns (extractFaceEmbedding env videoElement).
Proof.
  intros s. destruct (reaches env videoElement) eqn:Hr.
  - rewrite (extractFaceEmbedding_calls _ _ Hr); cbn. eauto.
  - rewrite (extractFaceEmbedding_skips _ _ Hr); cbn. eauto.
Qed.

(** ** The retry loop *)

Lemma iteration_marks (attempt : nat) (s : State) :
  marks (emitted (iteration env attempt s)) = [Attempt attempt].
Proof.
  unfold iteration, bind, emit; cbn.
  destruct (reaches env (videoRef env)) eqn:Hr.
  - rewrite (detectFaces_calls _ _ Hr); cbn.
    rewrite (extractFaceEmbedding_calls _ _ Hr); cbn. reflexivity.
  - rewrite (detectFaces_skips _ _ Hr); cbn.
    rewrite (extractFaceEmbedding_skips _ _ Hr); cbn. reflexivity.
Qed.

Lemma iteration_result (attempt : nat) (s : State) :
  result (iteration env attempt s) =
    Ok (option_map (fun d => {| descriptor := d; timestamp := clock s |})
          (liveExtraction env (S (calls s)))).
Proof.
  unfold iteration, bind, emit, liveExtraction; cbn.
  destruct (reaches env (videoRef env)) eqn:Hr.
  - rewrite (detectFaces_calls _ _ Hr); cbn.
    rewrite (extractFaceEmbedding_calls _ _ Hr); cbn. reflexivity.
  - rewrite (detectFaces_skips _ _ Hr); cbn.
    rewrite (extractFaceEmbedding_skips _ _ Hr); cbn. reflexivity.
Qed.

Lemma iteration_after (attempt : nat) (s : State) :
  after (iteration env attempt s) = if reaches env (videoRef env) then bump (bump s) else s.
Proof.
  unfold iteration, bind, emit; cbn.
  destruct (reaches env (videoRef env)) eqn:Hr.
  - rewrite (detectFaces_calls _ _ Hr); cbn.
    rewrite (extractFaceEmbedding_calls _ _ Hr); cbn. reflexivity.
  - rewrite (detectFaces_skips _ _ Hr); cbn.
    rewrite (extractFaceEmbedding_skips _ _ Hr); cbn. reflexivity.
Qed.

Lemma attempts_unfold (remaining attempt : nat) (s : State) :
  attempts env (S remaining) attempt s =
    (currentEmbedding <- iteration env attempt ;;
     match currentEmbedding with
     | Some e => ret (Some e)
     | None =>
         (if (attempt <? maxRetries)%nat then sleep 1500 else ret tt) ;;
         attempts env remaining (S attempt)
     end)%flow s.
Proof.
  cbn [attempts]. unfold iteration, bind, emit; cbn.
  destruct (reaches env (videoRef env)) eqn:Hr.
  - rewrite (detectFaces_calls _ _ Hr); cbn.
    rewrite (extractFaceEmbedding_calls _ _ Hr); cbn.
    destruct (first_face (detectAllFaces env (S (calls s)))); cbn; [reflexivity|].
    destruct (attempt <? maxRetries)%nat; cbn;
      destruct (result (attempts env remaining (S attempt) _)); reflexivity.
  - rewrite (detectFaces_skips _ _ Hr); cbn.
    rewrite (extractFaceEmbedding_skips _ _ Hr); cbn.
    destruct (attempt <? maxRetries)%nat; cbn;
      destruct (result (attempts env remaining (S attempt) _)); reflexivity.
Qed.

Lemma marks_app (l1 l2 : list Event) : marks (l1 ++ l2) = marks l1 ++ marks l2.
Proof. unfold marks. apply filter_app. Qed.

Lemma between_S (attempt more : nat) :
  between attempt (S more) = Attempt attempt :: Sleep 1500 :: between (S attempt) more.
Proof. reflexivity. Qed.

Lemma liveExtraction_skips (call : nat) :
  reaches env (videoRef env) = false -> liveExtraction env call = None.
Proof. intros Hr. unfold liveExtraction. rewrite Hr. reflexivity. Qed.

Lemma attempts_success (more : nat) :
  forall (remaining attempt : nat) (s : State) (d : list num),
    more < remaining ->
    attempt + more <= maxRetries ->
    (forall i, i < more -> liveExtraction env (S (calls s) + 2 * i) = None) ->
    liveExtraction env (S (calls s) + 2 * more) = Some d ->
    (exists t, result (attempts env remaining attempt s) =
                 Ok (Some {| descriptor := d; timestamp := t |})) /\
    marks (emitted (attempts env remaining attempt s)) = between attempt more.
Proof.
  induction more as [|more IH]; intros [|remaining] attempt s d Hlt Hle Hfail Hok;
    try (exfalso; lia); rewrite attempts_unfold.
  - pose proof (iteration_result attempt s) as E.
    replace (S (calls s) + 2 * 0) with (S (calls s)) in Hok by lia.
    rewrite Hok in E. cbn [option_map] in E.
    rewrite (bind_Ok _ _ _ E); cbn.
    split; [eexists; reflexivity|].
    rewrite app_nil_r. apply iteration_marks.
  - pose proof (iteration_result attempt s) as E.
    assert (H0 : liveExtraction env (S (calls s)) = None).
    { replace (S (calls s)) with (S (calls s) + 2 * 0) by lia. apply Hfail. lia. }
    rewrite H0 in E. cbn [option_map] in E.
    rewrite (bind_Ok _ _ _ E).
    assert (Hatt : (attempt <? maxRetries)%nat = true) by (apply Nat.ltb_lt; lia).
    rewrite Hatt.
    assert (Hr : reaches env (videoRef env) = true).
    { destruct (reaches env (videoRef env)) eqn:Hr; [reflexivity|].
      rewrite (liveExtraction_skips _ Hr) in Hok. discriminate. }
    set (s1 := after (iteration env attempt s)).
    assert (Hs1 : calls s1 = S (S (calls s))).
    { unfold s1. rewrite iteration_after, Hr. reflexivity. }
    assert (Es : result (sleep 1500 s1) = Ok tt) by reflexivity.
    rewrite (bind_Ok _ _ _ Es).
    set (s2 := after (sleep 1500 s1)).
    assert (Hs2 : calls s2 = S (S (calls s))) by (unfold s2; cbn; assumption).
    destruct (IH remaining (S attempt) s2 d) as [[t Ht] Hm]; try lia.
    + intros i Hi. rewrite Hs2.
      replace (S (S (S (calls s))) + 2 * i) with (S (calls s) + 2 * S i) by lia.
      apply Hfail. lia.
    + rewrite Hs2.
      replace (S (S (S (calls s))) + 2 * more) with (S (calls s) + 2 * S more) by lia.
      assumption.
    + cbn [result emitted]. split; [exists t; assumption|].
      rewrite !marks_app, Hm, iteration_marks, between_S. reflexivity.
Qed.

Lemma attempts_failure (remaining : nat) :
  forall (attempt : nat) (s : State),
    attempt + remaining = S maxRetries ->
    (forall i, i < remaining -> liveExtraction env (S (calls s) + 2 * i) = None) ->
    result (attempts env remaining attempt s) = Ok None /\
    marks (emitted (attempts env remaining attempt s)) =
      match remaining with
      | O => []
      | S more => between attempt more
      end.
Proof.
  induction remaining as [|remaining IH]; intros attempt s Hsum Hfail.
  - split; reflexivity.
  - rewrite attempts_unfold.
    pose proof (iteration_result attempt s) as E.
    assert (H0 : liveExtraction env (S (calls s)) = None).
    { replace (S (calls s)) with (S (calls s) + 2 * 0) by lia. apply Hfail. lia. }
    rewrite H0 in E. cbn [option_map] in E.
    rewrite (bind_Ok _ _ _ E).
    set (s1 := after (iteration env attempt s)).
    assert (Hnext : forall s2, calls s2 = calls s1 ->
              forall i, i < remaining -> liveExtraction env (S (calls s2) + 2 * i) = None).
    { intros s2 Hs2 i Hi. rewrite Hs2. unfold s1. rewrite iteration_after.
      destruct (reaches env (videoRef env)) eqn:Hr.
      - unfold bump; cbn [calls].
        replace (S (S (S (calls s))) + 2 * i) with (S (calls s) + 2 * S i) by lia.
        apply Hfail. lia.
      - apply liveExtraction_skips. assumption. }
    destruct remaining as [|more].
    + assert (Hatt : (attempt <? maxRetries)%nat = false) by (apply Nat.ltb_ge; lia).
      rewrite Hatt. cbn. split; [reflexivity|].
      rewrite app_nil_r. apply iteration_marks.
    + assert (Hatt : (attempt <? maxRetries)%nat = true) by (apply Nat.ltb_lt; lia).
      rewrite Hatt.
      assert (Es : result (sleep 1500 s1) = Ok tt) by reflexivity.
      rewrite (bind_Ok _ _ _ Es).
      set (s2 := after (sleep 1500 s1)).
      destruct (IH (S attempt) s2) as [Hres Hm]; [lia | apply Hnext; reflexivity |].
      cbn [result emitted]. split; [assumption|].
      rewrite !marks_app, Hm, iteration_marks, between_S. reflexivity.
Qed.

Lemma silent_attempts (remaining : nat) :
  forall attempt, silent (attempts env remaining attempt).
Proof.
  induction remaining as [|remaining IH]; intros attempt; cbn [attempts].
  - apply silent_ret.
  - apply silent_bind; [apply silent_emit; exact I|]. intros _.
    apply silent_bind; [apply silent_detectFaces|]. intros faces.
    apply silent_bind; [apply silent_emit; exact I|]. intros _.
    apply silent_bind; [apply silent_extractFaceEmbedding|]. intros [e|].
    + apply silent_ret.
    + apply silent_bind; [|intros _; apply IH].
      destruct (attempt <? maxRetries)%nat; [apply silent_sleep | apply silent_ret].
Qed.

Lemma returns_attempts (remaining : nat) :
  forall attempt, returns (attempts env remaining attempt).
Proof.
  induction remaining as [|remaining IH]; intros attempt; cbn [attempts].
  - apply returns_ret.
  - apply returns_bind; [apply returns_emit|]. intros _.
    apply returns_bind; [apply returns_detectFaces|]. intros faces.
    apply returns_bind; [apply returns_emit|]. intros _.
    apply returns_bind; [apply returns_extractFaceEmbedding|]. intros [e|].
    + apply returns_ret.
    + apply returns_bind; [|intros _; apply IH].
      destruct (attempt <? maxRetries)%nat; [apply returns_sleep | apply returns_ret].
Qed.

Lemma iteration_one_attempt (attempt : nat) (s : State) :
  List.length (filter is_Attempt (emitted (iteration env attempt s))) = 1.
Proof.
  unfold iteration, bind, emit; cbn.
  destruct (reaches env (videoRef env)) eqn:Hr.
  - rewrite (detectFaces_calls _ _ Hr); cbn.
    rewrite (extractFaceEmbedding_calls _ _ Hr); cbn. reflexivity.
  - rewrite (detectFaces_skips _ _ Hr); cbn.
    rewrite (extractFaceEmbedding_skips _ _ Hr); cbn. reflexivity.
Qed.

(** The loop never starts more than [remaining] attempts. *)
Lemma attempts_bounded (remaining : nat) :
  forall (attempt : nat) (s : State),
    List.length (filter is_Attempt (emitted (attempts env remaining attempt s))) <= remaining.
Proof.
  induction remaining as [|remaining IH]; intros attempt s.
  - cbn. lia.
  - rewrite attempts_unfold.
    pose proof (iteration_result attempt s) as E.
    pose proof (iteration_one_attempt attempt s) as Hc.
    rewrite (bind_Ok _ _ _ E). cbn [emitted].
    rewrite filter_app, length_app, Hc.
    destruct (option_map _ (liveExtraction env (S (calls s)))) as [e|].
    + cbn. lia.
    + destruct (attempt <? maxRetries)%nat.
      * assert (Es : result (sleep 1500 (after (iteration env attempt s))) = Ok tt) by reflexivity.
        rewrite (bind_Ok _ _ _ Es). cbn [emitted].
        rewrite filter_app, length_app.
        specialize (IH (S attempt) (after (sleep 1500 (after (iteration env attempt s))))).
        cbn in IH |- *. lia.
      * assert (Es : result (ret tt (after (iteration env attempt s))) = Ok tt) by reflexivity.
        rewrite (bind_Ok _ _ _ Es). cbn [emitted].
        rewrite filter_app, length_app.
        specialize (IH (S attempt) (after (ret tt (after (iteration env attempt s))))).
        cbn in IH |- *. lia.
Qed.

End Extractor.

(** ** How a verification ends *)

Lemma ends_well_prepend (accepted : bool) (rfidTag : string) (s0 s1 : State)
    (evs : list Event) (r : Step Outcome) :
  ends_well accepted rfidTag s1 r ->
  Forall quiet evs ->
  verification_events s1 = verification_events s0 ->
  ends_well accepted rfidTag s0
    {| result := result r; after := after r; emitted := evs ++ emitted r |}.
Proof.
  unfold ends_well; cbn. intros Hr Hq Hv.
  destruct (result r) as [[userId|reason]| |].
  - destruct Hr as (Hu & (pre & Hpre & He) & Ha). repeat split; [assumption| |congruence].
    exists (evs ++ pre). split; [apply Forall_app; split; assumption|].
    rewrite He, app_assoc. reflexivity.
  - destruct Hr as ((pre & ms & Hpre & Hms & He) & Ha). split; [|congruence].
    exists (evs ++ pre), ms. repeat split; [apply Forall_app; split; assumption|assumption|].
    rewrite He, app_assoc. reflexivity.
  - destruct Hr as (Hq' & Ha). split; [apply Forall_app; split; assumption|congruence].
  - assumption.
Qed.

Lemma closes_bind {A} (accepted : bool) (rfidTag : string) (m : M A) (f : A -> M Outcome) :
  silent m -> (forall a, closes accepted rfidTag (f a)) -> closes accepted rfidTag (bind m f).
Proof.
  intros Hm Hf s. destruct (Hm s) as (Hq & Hv & Hh).
  destruct (result (m s)) as [a| |] eqn:E.
  - rewrite (bind_Ok _ _ _ E).
    apply ends_well_prepend with (s1 := after (m s)); [apply Hf|assumption|assumption].
  - rewrite (bind_Throw _ _ _ E). unfold ends_well; cbn. split; assumption.
  - contradiction.
Qed.

Lemma closes_ret_bind {A} (accepted : bool) (rfidTag : string) (a : A) (f : A -> M Outcome) :
  closes accepted rfidTag (f a) -> closes accepted rfidTag (bind (ret a) f).
Proof.
  intros Hf s. rewrite (bind_Ok (ret a) f s (a := a) eq_refl).
  apply ends_well_prepend with (s1 := s); [apply Hf|constructor|reflexivity].
Qed.

Lemma closes_reject {num : Type} `{JsNumber num} (accepted : bool) (rfidTag : string)
    (ms : Z) (reason : Reason) :
  (ms = 2000 \/ ms = 3000)%Z -> closes accepted rfidTag (reject ms reason).
Proof.
  intros Hms s. unfold ends_well; cbn. split; [|reflexivity].
  exists [], ms. repeat split; [constructor|assumption].
Qed.

Lemma returns_reject {num : Type} `{JsNumber num} (ms : Z) (reason : Reason) :
  returns (reject ms reason).
Proof. intros s. eexists. reflexivity. Qed.

Lemma closes_try_catch (accepted : bool) (rfidTag : string) (m handler : M Outcome) :
  closes accepted rfidTag m -> closes accepted rfidTag handler -> returns handler ->
  closes accepted rfidTag (try_catch m handler) /\ returns (try_catch m handler).
Proof.
  intros Hm Hh Hr. split; intros s; specialize (Hm s); unfold try_catch.
  - destruct (result (m s)) as [o| |] eqn:E; try assumption.
    unfold ends_well in Hm. rewrite E in Hm. destruct Hm as [Hq Hv].
    apply ends_well_prepend with (s1 := after (m s)); [apply Hh|assumption|assumption].
  - destruct (result (m s)) as [o| |] eqn:E.
    + exists o. assumption.
    + destruct (Hr (after (m s))) as [o Ho]. exists o. assumption.
    + unfold ends_well in Hm. rewrite E in Hm. contradiction.
Qed.

(** The comparison of line 265 throws or returns a number. *)
Lemma compareStored_cases {num : Type} `{JsNumber num}
    (storedEmbedding : option (StoredFace num)) (currentEmbedding : FaceEmbedding num) :
  compareStored storedEmbedding currentEmbedding = throw \/
  exists similarity, compareStored storedEmbedding currentEmbedding = ret similarity.
Proof.
  destruct storedEmbedding as [[e| |]|]; cbn [compareStored];
    first [left; reflexivity | right; eexists; reflexivity].
Qed.

Section Closing.

Context {num : Type} `{JsNumber num}.
Variable env : Env num.

Lemma silent_selectUser (rfidTag : string) : silent (selectUser env rfidTag).
Proof.
  unfold selectUser. apply silent_bind; [apply silent_emit; exact I|].
  intros _. apply silent_ret.
Qed.

(** The row the query returns is the row whose key is the tag. *)
Lemma selectUser_id (rfidTag : string) (s : State) (user : UserRow num) :
  result (selectUser env rfidTag s) = Ok (QueryData (Some user)) -> id user = rfidTag.
Proof.
  unfold selectUser; cbn.
  destruct (select_error env); [discriminate|].
  destruct (filter (fun u => String.eqb (id u) rfidTag) (users env)) as [|u [|u' rows]] eqn:Hf;
    cbn; try discriminate.
  intros E. injection E as ->.
  assert (Hin : In user (filter (fun u => String.eqb (id u) rfidTag) (users env)))
    by (rewrite Hf; left; reflexivity).
  apply filter_In in Hin. destruct Hin as [_ Heq].
  apply String.eqb_eq. assumption.
Qed.

Lemma silent_extractEmbeddingFromImage (imageUrl : string) :
  silent (extractEmbeddingFromImage env imageUrl).
Proof.
  unfold extractEmbeddingFromImage.
  apply silent_bind; [apply silent_emit; exact I|]. intros _.
  destruct (loadImage env imageUrl); try apply silent_throw.
  apply silent_bind; [apply silent_sleep|]. intros _.
  apply silent_bind; [apply silent_extractFaceEmbedding|].
  intros [e|]; [apply silent_ret | apply silent_throw].
Qed.

Lemma closes_scoring (rfidTag : string) (user : UserRow num)
    (storedEmbedding : option (StoredFace num)) (currentEmbedding : FaceEmbedding num) :
  id user = rfidTag ->
  closes (insert_accepted env) rfidTag
    (scoring env rfidTag user storedEmbedding currentEmbedding).
Proof.
  intros Hid s. unfold scoring.
  destruct (compareStored_cases storedEmbedding currentEmbedding) as [-> | [similarity ->]].
  { unfold ends_well; cbn. split; [constructor | reflexivity]. }
  rewrite bind_ret.
  destruct (n_geb similarity n_threshold); cbn.
  - unfold ends_well; cbn. rewrite Hid. split; [reflexivity|]. split.
    + exists []. split; [constructor | reflexivity].
    + destruct (insert_accepted env); [reflexivity | symmetry; apply app_nil_r].
  - unfold ends_well; cbn. split; [|reflexivity].
    exists [], 3000%Z. repeat split; [constructor|right; reflexivity].
Qed.

(** Lines 220-296. *)
Lemma closes_resolve_and_score (rfidTag : string) (user : UserRow num)
    (currentEmbedding : FaceEmbedding num) :
  id user = rfidTag ->
  closes (insert_accepted env) rfidTag
    (stored <- resolveStored env user ;;
     match stored with
     | inl exit => ret exit
     | inr storedEmbedding => scoring env rfidTag user storedEmbedding currentEmbedding
     end)%flow.
Proof.
  intros Hid. unfold resolveStored.
  destruct (face_embedding user) as [stored|].
  - apply closes_ret_bind. apply closes_scoring; assumption.
  - destruct (face_image_url user) as [url|].
    2:{ apply closes_ret_bind. apply closes_scoring; assumption. }
    destruct (truthy (Some url)).
    2:{ apply closes_ret_bind. apply closes_scoring; assumption. }
    destruct (negb (isPublicUrl (cleanImageUrl url))).
    + intros s. unfold ends_well; cbn. split; [|reflexivity].
      exists [], 3000%Z. repeat split; [constructor|right; reflexivity].
    + intros s. set (url' := cleanImageUrl url).
      destruct (silent_extractEmbeddingFromImage url' s) as (Hq & Hv & Hh).
      set (inner := bind (extractEmbeddingFromImage env url')
                      (fun e => ret (inr (Some (StoredEmbedding e))))).
      set (handler := bind (reject 2000 ReferenceImageFailed)
                        (fun r : Outcome => ret (@inl Outcome (option (StoredFace num)) r))).
      destruct (result (extractEmbeddingFromImage env url' s)) as [e| |] eqn:E.
      * assert (Ei : inner s =
                  {| result := Ok (inr (Some (StoredEmbedding e)));
                     after := after (extractEmbeddingFromImage env url' s);
                     emitted := emitted (extractEmbeddingFromImage env url' s) ++ [] |}).
        { unfold inner. rewrite (bind_Ok _ _ _ E). reflexivity. }
        assert (Et : try_catch inner handler s = inner s).
        { apply try_catch_Ok with (a := inr (Some (StoredEmbedding e))).
          rewrite Ei. reflexivity. }
        assert (Er : result (try_catch inner handler s) = Ok (inr (Some (StoredEmbedding e)))).
        { rewrite Et, Ei. reflexivity. }
        rewrite (bind_Ok _ _ _ Er).
        apply ends_well_prepend with (s1 := after (try_catch inner handler s)).
        -- apply closes_scoring; assumption.
        -- rewrite Et, Ei. cbn [emitted]. rewrite app_nil_r. assumption.
        -- rewrite Et, Ei. cbn [after]. assumption.
      * assert (Ei : inner s =
                  {| result := Throw;
                     after := after (extractEmbeddingFromImage env url' s);
                     emitted := emitted (extractEmbeddingFromImage env url' s) |}).
        { unfold inner. rewrite (bind_Throw _ _ _ E). reflexivity. }
        assert (Et : try_catch inner handler s =
                  {| result := result (handler (after (inner s)));
                     after := after (handler (after (inner s)));
                     emitted := emitted (inner s) ++ emitted (handler (after (inner s))) |}).
        { apply try_catch_Throw. rewrite Ei. reflexivity. }
        assert (Er : result (try_catch inner handler s) = Ok (inl (Rejected ReferenceImageFailed))).
        { rewrite Et. reflexivity. }
        rewrite (bind_Ok _ _ _ Er). rewrite Et, Ei.
        unfold ends_well; cbn. split; [|assumption].
        exists (emitted (extractEmbeddingFromImage env url' s)), 2000%Z.
        repeat split; [assumption|left; reflexivity|].
        rewrite app_nil_r. reflexivity.
      * contradiction.
Qed.

Lemma closes_verifyFace (rfidTag : string) (v : Video) :
  videoRef env = Some v ->
  closes (insert_accepted env) rfidTag (verifyFace env rfidTag) /\
  returns (verifyFace env rfidTag).
Proof.
  intros Hv. unfold verifyFace. rewrite Hv.
  apply closes_try_catch;
    [|apply closes_reject; left; reflexivity|apply returns_reject].
  intros s.
  destruct (result (selectUser env rfidTag s)) as [q| |] eqn:E.
  - rewrite (bind_Ok _ _ _ E).
    destruct (silent_selectUser rfidTag s) as (Hq & Ha & _).
    apply ends_well_prepend with (s1 := after (selectUser env rfidTag s)); try assumption.
    destruct q as [|[user|]];
      try (apply closes_reject; left; reflexivity).
    pose proof (selectUser_id E) as Hid.
    destruct (negb (hasFaceData user)); [apply closes_reject; left; reflexivity|].
    apply closes_bind.
    { destruct (isLoading (hook env)); [apply silent_sleep|apply silent_ret]. }
    intros _.
    destruct (isLoading (hook env)); [apply closes_reject; left; reflexivity|].
    apply closes_bind; [apply silent_sleep|]. intros _.
    apply closes_bind; [apply silent_attempts|]. intros [current|].
    + apply closes_resolve_and_score. assumption.
    + apply closes_reject; left; reflexivity.
  - discriminate E.
  - discriminate E.
Qed.

End Closing.

(** ** The clean-up of the stored URL *)

Section UrlFacts.

Local Open Scope string_scope.

Lemma length_append (a b : string) :
  String.length (a ++ b) = String.length a + String.length b.
Proof. induction a as [|c a IH]; cbn; [reflexivity | rewrite IH; reflexivity]. Qed.

Lemma substring_prefix (a b : string) :
  substring 0 (String.length a) (a ++ b) = a.
Proof.
  induction a as [|c a IH]; cbn.
  - destruct b; reflexivity.
  - rewrite IH. reflexivity.
Qed.

Lemma substring_skip (a b : string) (m : nat) :
  substring (String.length a) m (a ++ b) = substring 0 m b.
Proof. induction a as [|c a IH]; cbn; [reflexivity | apply IH]. Qed.

Lemma substring_all (b : string) : substring 0 (String.length b) b = b.
Proof. induction b as [|c b IH]; cbn; [reflexivity | rewrite IH; reflexivity]. Qed.

Lemma append_assoc (a b c : string) : (a ++ b) ++ c = a ++ (b ++ c).
Proof. induction a as [|x a IH]; cbn; [reflexivity | rewrite IH; reflexivity]. Qed.

Lemma trimStart_white (ws t : string) :
  all_white_space ws = true -> trimStart (ws ++ t) = trimStart t.
Proof.
  induction ws as [|c ws IH]; cbn; [reflexivity|].
  intros Hw. apply andb_prop in Hw. destruct Hw as [Hc Hw].
  rewrite Hc. apply IH. assumption.
Qed.

Lemma trimEnd_all_white (ws : string) :
  all_white_space ws = true -> trimEnd ws = "".
Proof.
  induction ws as [|c ws IH]; cbn; [reflexivity|].
  intros Hw. apply andb_prop in Hw. destruct Hw as [Hc Hw].
  rewrite (IH Hw), Hc. reflexivity.
Qed.

Lemma trimEnd_white (t ws : string) (c : ascii) :
  is_white_space c = false -> all_white_space ws = true ->
  trimEnd ((t ++ String c "") ++ ws) = t ++ String c "".
Proof.
  intros Hc Hw. induction t as [|x t IH]; cbn.
  - rewrite (trimEnd_all_white _ Hw), Hc. reflexivity.
  - cbn in IH. rewrite IH. destruct t; reflexivity.
Qed.

Lemma quote_not_white_space : is_white_space (ascii_of_nat 34) = false.
Proof. reflexivity. Qed.

Lemma trim_quoted (ws1 u ws2 : string) :
  all_white_space ws1 = true -> all_white_space ws2 = true ->
  trim (ws1 ++ quote ++ u ++ quote ++ ws2) = quote ++ u ++ quote.
Proof.
  intros H1 H2. unfold trim. rewrite (trimStart_white _ _ H1).
  unfold quote at 1. cbn [append trimStart]. rewrite quote_not_white_space.
  change (String (ascii_of_nat 34) (u ++ quote ++ ws2))
    with (quote ++ (u ++ (quote ++ ws2))).
  rewrite <- (append_assoc u quote ws2), <- (append_assoc quote (u ++ quote) ws2).
  rewrite <- (append_assoc quote u quote).
  unfold quote at 2 4.
  rewrite (trimEnd_white (quote ++ u) ws2 (ascii_of_nat 34) quote_not_white_space H2).
  reflexivity.
Qed.

Lemma strip_quotes (u : string) :
  let imageUrl := quote ++ u ++ quote in
  startsWith imageUrl quote = true /\
  endsWith imageUrl quote = true /\
  slice imageUrl 1 (-1) = u.
Proof.
  cbv zeta. repeat split.
  - unfold startsWith, quote. cbn.
    destruct (u ++ _); reflexivity.
  - unfold endsWith.
    rewrite <- (append_assoc quote u quote), (length_append (quote ++ u) quote).
    replace (String.length (quote ++ u) + String.length quote - String.length quote)
      with (String.length (quote ++ u)) by lia.
    rewrite substring_skip, substring_all, String.eqb_refl.
    rewrite andb_true_r. apply Nat.leb_le. lia.
  - unfold slice.
    rewrite (length_append quote (u ++ quote)), (length_append u quote).
    change (String.length quote) with 1.
    replace (Z.of_nat (1 + (String.length u + 1)) + -1)%Z
      with (Z.of_nat (String.length u) + 1)%Z by lia.
    cbn [Z.ltb Z.compare].
    replace (Z.min 1 (Z.of_nat (1 + (String.length u + 1)))) with 1%Z by lia.
    replace (Z.max (Z.max (Z.of_nat (String.length u) + 1) 0 - 1) 0)
      with (Z.of_nat (String.length u)) by lia.
    rewrite Nat2Z.id. change (Z.to_nat 1) with 1.
    unfold quote at 1. cbn [append substring].
    apply substring_prefix.
Qed.

Lemma cleanImageUrl_quoted (ws1 u ws2 : string) :
  all_white_space ws1 = true -> all_white_space ws2 = true ->
  cleanImageUrl (ws1 ++ quote ++ u ++ quote ++ ws2) = u.
Proof.
  intros H1 H2. unfold cleanImageUrl. rewrite (trim_quoted _ _ _ H1 H2).
  destruct (strip_quotes u) as (Hs & He & Hu).
  rewrite Hs, He. exact Hu.
Qed.

End UrlFacts.

(** ** The reference resolver *)

Section Resolver.

Context {num : Type} `{JsNumber num}.
Variable env : Env num.

Lemma bind_emit {A} (e : Event) (f : unit -> M A) (s : State) :
  bind (emit e) f s =
    {| result := result (f tt s); after := after (f tt s); emitted := e :: emitted (f tt s) |}.
Proof. reflexivity. Qed.

Lemma extractEmbeddingFromImage_first (imageUrl : string) (s : State) :
  exists rest, emitted (extractEmbeddingFromImage env imageUrl s) = LoadImage imageUrl :: rest.
Proof.
  unfold extractEmbeddingFromImage. rewrite bind_emit. cbn [emitted].
  eexists. reflexivity.
Qed.

Lemma resolveFromImage_step (imageUrl : string) (s : State) :
  let x := extractEmbeddingFromImage env imageUrl s in
  resolveFromImage env imageUrl s =
    match result x with
    | Ok e =>
        {| result := Ok (inr (Some (StoredEmbedding e)));
           after := after x;
           emitted := emitted x |}
    | Throw =>
        {| result := Ok (inl (Rejected ReferenceImageFailed));
           after := {| verification_events := verification_events (after x);
                       calls := calls (after x);
                       clock := (clock (after x) + 2000)%Z |};
           emitted := emitted x ++ reject_block 2000 |}
    | Hang => {| result := Hang; after := after x; emitted := emitted x |}
    end.
Proof.
  cbv zeta. unfold resolveFromImage, try_catch.
  destruct (result (extractEmbeddingFromImage env imageUrl s)) as [e| |] eqn:E.
  - rewrite (bind_Ok _ _ _ E). cbn. rewrite app_nil_r. reflexivity.
  - rewrite (bind_Throw _ _ _ E). cbn. reflexivity.
  - rewrite (bind_Hang _ _ _ E). cbn. reflexivity.
Qed.

Lemma resolveStored_image (user : UserRow num) (url : string) :
  face_embedding user = None ->
  face_image_url user = Some url ->
  truthy (Some url) = true ->
  isPublicUrl (cleanImageUrl url) = true ->
  resolveStored env user = resolveFromImage env (cleanImageUrl url).
Proof.
  intros He Hu Ht Hp. unfold resolveStored. rewrite He, Hu, Ht, Hp. reflexivity.
Qed.

End Resolver.

(** ** The retry loop inside [verifyFace] *)

Section RetryFacts.

Context {num : Type} `{JsNumber num}.
Variable env : Env num.

Lemma selectUser_after (rfidTag : string) (s : State) :
  after (selectUser env rfidTag s) = s /\
  emitted (selectUser env rfidTag s) = [SelectUser rfidTag].
Proof. split; reflexivity. Qed.

Lemma verifyFace_ready (rfidTag : string) (v : Video) (user : UserRow num) (s : State) :
  videoRef env = Some v ->
  result (selectUser env rfidTag s) = Ok (QueryData (Some user)) ->
  hasFaceData user = true ->
  isLoading (hook env) = false ->
  verifyFace env rfidTag s =
    try_catch
      (emit (SelectUser rfidTag) ;; afterReady env rfidTag user)%flow
      (reject 2000 UnexpectedError) s.
Proof.
  intros Hv Hq Hd Hl. unfold verifyFace. rewrite Hv.
  unfold try_catch.
  assert (Hbody :
    (q <- selectUser env rfidTag ;;
     match q with
     | QueryError | QueryData None => reject 2000 UserNotFound
     | QueryData (Some user) =>
         if negb (hasFaceData user) then reject 2000 NoReferenceData
         else
           (if isLoading (hook env) then sleep 2000 else ret tt) ;;
           if isLoading (hook env) then reject 2000 ModelsNotReady
           else
             sleep 1500 ;;
             currentEmbedding <- attempts env maxRetries 1 ;;
             match currentEmbedding with
             | None => reject 2000 NoLiveFace
             | Some current =>
                 stored <- resolveStored env user ;;
                 match stored with
                 | inl exit => ret exit
                 | inr storedEmbedding => scoring env rfidTag user storedEmbedding current
                 end
             end
     end)%flow s = (emit (SelectUser rfidTag) ;; afterReady env rfidTag user)%flow s).
  { rewrite (bind_Ok _ _ _ Hq). rewrite Hd. cbn [negb]. rewrite Hl.
    rewrite bind_ret. rewrite bind_emit.
    destruct (selectUser_after rfidTag s) as [Ha He]. rewrite Ha, He.
    unfold afterReady. cbn [app].
    destruct ((sleep 1500 ;; _)%flow s) as [r a e]. reflexivity. }
  rewrite Hbody. reflexivity.
Qed.

Lemma afterReady_all_fail (rfidTag : string) (user : UserRow num) (s : State) :
  (forall i, 1 <= i <= maxRetries -> liveExtraction env (calls s + 2 * i - 1) = None) ->
  let loop := attempts env maxRetries 1 (after (sleep 1500 s)) in
  result (afterReady env rfidTag user s) = Ok (Rejected NoLiveFace) /\
  emitted (afterReady env rfidTag user s) = (Sleep 1500 :: emitted loop) ++ reject_block 2000 /\
  marks (emitted loop) = between 1 9.
Proof.
  intros Hfail. cbv zeta.
  set (s1 := after (sleep 1500 s)).
  destruct (attempts_failure env (remaining := maxRetries) 1 s1) as [Hres Hm]; [reflexivity| |].
  { intros i Hi. replace (S (calls s1) + 2 * i) with (calls s + 2 * S i - 1) by (cbn; lia).
    apply Hfail. unfold maxRetries in *. lia. }
  unfold afterReady.
  assert (Es : result (sleep 1500 s) = Ok tt) by reflexivity.
  rewrite (bind_Ok _ _ _ Es). fold s1.
  rewrite (bind_Ok _ _ _ Hres). cbn [result emitted].
  split; [reflexivity|]. split; [reflexivity | exact Hm].
Qed.

End RetryFacts.

(** ** Which events a computation can emit *)

Section Emits.

Variable P : Event -> Prop.

Lemma emits_ret {A} (a : A) : emits P (ret a).
Proof. intros s. constructor. Qed.

Lemma emits_throw {A} : emits P (@throw A).
Proof. intros s. constructor. Qed.

Lemma emits_advance (ms : Z) : emits P (advance ms).
Proof. intros s. constructor. Qed.

Lemma emits_emit (e : Event) : P e -> emits P (emit e).
Proof. intros He s. repeat constructor. assumption. Qed.

Lemma emits_bind {A B} (m : M A) (f : A -> M B) :
  emits P m -> (forall a, emits P (f a)) -> emits P (bind m f).
Proof.
  intros Hm Hf s. unfold bind.
  destruct (result (m s)); cbn; try apply Hm.
  apply Forall_app. split; [apply Hm | apply Hf].
Qed.

Lemma emits_try_catch {A} (m handler : M A) :
  emits P m -> emits P handler -> emits P (try_catch m handler).
Proof.
  intros Hm Hh s. unfold try_catch.
  destruct (result (m s)); cbn; try apply Hm.
  apply Forall_app. split; [apply Hm | apply Hh].
Qed.

Lemma emits_sleep (ms : Z) : P (Sleep ms) -> emits P (sleep ms).
Proof.
  intros Hs. unfold sleep. apply emits_bind; [apply emits_emit; assumption|].
  intros _. apply emits_advance.
Qed.

Lemma emits_setTimeout {A} (ms : Z) (callback : M A) :
  P (Timeout ms) -> emits P callback -> emits P (setTimeout ms callback).
Proof.
  intros Ht Hc. unfold setTimeout. apply emits_bind; [apply emits_emit; assumption|].
  intros _. apply emits_bind; [apply emits_advance|]. intros _. assumption.
Qed.

Lemma emits_insert (accepted : bool) (row : AuditEvent) :
  P (InsertVerificationEvent row) -> emits P (insertVerificationEvent accepted row).
Proof. intros Hr s. repeat constructor. assumption. Qed.

Lemma emits_reject (ms : Z) (reason : Reason) :
  P (SetVerificationStatus failed) -> P (Timeout ms) -> P StopCamera -> P (Fire onFailed) ->
  emits P (reject ms reason).
Proof. intros H1 H2 H3 H4 s. cbn. repeat constructor; assumption. Qed.

Context {num : Type} `{JsNumber num}.
Variable env : Env num.

Lemma emits_detectFaces (videoElement : option Video) :
  (forall call, P (DetectAllFaces call)) -> emits P (detectFaces env videoElement).
Proof.
  intros Hd s. destruct (reaches env videoElement) eqn:Hr.
  - rewrite (detectFaces_calls _ _ _ Hr). repeat constructor. apply Hd.
  - rewrite (detectFaces_skips _ _ _ Hr). constructor.
Qed.

Lemma emits_extractFaceEmbedding (videoElement : option Video) :
  (forall call, P (DetectAllFaces call)) -> emits P (extractFaceEmbedding env videoElement).
Proof.
  intros Hd s. destruct (reaches env videoElement) eqn:Hr.
  - rewrite (extractFaceEmbedding_calls _ _ _ Hr). repeat constructor. apply Hd.
  - rewrite (extractFaceEmbedding_skips _ _ _ Hr). constructor.
Qed.

Lemma emits_attempts (remaining : nat) :
  (forall call, P (DetectAllFaces call)) ->
  (forall n, P (Attempt n)) ->
  (forall b, P (SetFaceDetected b)) ->
  P (Sleep 1500) ->
  forall attempt, emits P (attempts env remaining attempt).
Proof.
  intros Hd Ha Hf Hs.
  induction remaining as [|remaining IH]; intros attempt; cbn [attempts].
  - apply emits_ret.
  - apply emits_bind; [apply emits_emit; apply Ha|]. intros _.
    apply emits_bind; [apply emits_detectFaces; assumption|]. intros faces.
    apply emits_bind; [apply emits_emit; apply Hf|]. intros _.
    apply emits_bind; [apply emits_extractFaceEmbedding; assumption|]. intros [e|].
    + apply emits_ret.
    + apply emits_bind; [|intros _; apply IH].
      destruct (attempt <? maxRetries)%nat; [apply emits_sleep; assumption | apply emits_ret].
Qed.

Lemma emits_extractEmbeddingFromImage (imageUrl : string) :
  (forall call, P (DetectAllFaces call)) ->
  P (LoadImage imageUrl) -> P (Sleep 500) ->
  emits P (extractEmbeddingFromImage env imageUrl).
Proof.
  intros Hd Hl Hs. unfold extractEmbeddingFromImage.
  apply emits_bind; [apply emits_emit; assumption|]. intros _.
  destruct (loadImage env imageUrl); try apply emits_throw.
  apply emits_bind; [apply emits_sleep; assumption|]. intros _.
  apply emits_bind; [apply emits_extractFaceEmbedding; assumption|].
  intros [e|]; [apply emits_ret | apply emits_throw].
Qed.

End Emits.

(** ** The order of lookup, live attempts and reference resolution *)

Section Phases.

Context {num : Type} `{JsNumber num}.
Variable env : Env num.

Lemma emits_late_scoring (rfidTag : string) (user : UserRow num)
    (storedEmbedding : option (StoredFace num)) (currentEmbedding : FaceEmbedding num) :
  emits late (scoring env rfidTag user storedEmbedding currentEmbedding).
Proof.
  unfold scoring. apply emits_bind.
  - destruct (compareStored_cases storedEmbedding currentEmbedding) as [-> | [x ->]];
      [apply emits_throw | apply emits_ret].
  - intros similarity. destruct (n_geb similarity n_threshold).
    + apply emits_bind; [apply emits_emit; reflexivity|]. intros _.
      apply emits_bind; [apply emits_insert; reflexivity|]. intros _.
      apply emits_bind; [|intros _; apply emits_ret].
      apply emits_setTimeout; [reflexivity|].
      apply emits_bind; [apply emits_emit; reflexivity|]. intros _.
      apply emits_emit; reflexivity.
    + apply emits_reject; reflexivity.
Qed.

Lemma emits_late_resolveStored (user : UserRow num) :
  emits late (resolveStored env user).
Proof.
  unfold resolveStored.
  destruct (face_embedding user); [apply emits_ret|].
  destruct (face_image_url user) as [url|]; [|apply emits_ret].
  destruct (truthy (Some url)); [|apply emits_ret].
  destruct (negb (isPublicUrl (cleanImageUrl url))).
  - apply emits_bind; [apply emits_reject; reflexivity|]. intros r. apply emits_ret.
  - apply emits_try_catch.
    + apply emits_bind; [|intros e; apply emits_ret].
      apply emits_extractEmbeddingFromImage; reflexivity.
    + apply emits_bind; [apply emits_reject; reflexivity|]. intros r. apply emits_ret.
Qed.

Lemma attempts_first (remaining attempt : nat) (s : State) :
  exists rest, emitted (attempts env (S remaining) attempt s) = Attempt attempt :: rest.
Proof. cbn [attempts]. rewrite bind_emit. cbn [emitted]. eexists. reflexivity. Qed.

Lemma afterReady_shape (rfidTag : string) (user : UserRow num) (s : State) :
  exists loop rest,
    emitted (afterReady env rfidTag user s) = (Sleep 1500 :: Attempt 1 :: loop) ++ rest /\
    Forall live loop /\ Forall late rest.
Proof.
  unfold afterReady.
  assert (Es : result (sleep 1500 s) = Ok tt) by reflexivity.
  rewrite (bind_Ok _ _ _ Es).
  set (s1 := after (sleep 1500 s)).
  destruct (returns_attempts env maxRetries 1 s1) as [cur Hcur].
  rewrite (bind_Ok _ _ _ Hcur). cbn [emitted].
  destruct (attempts_first 9 1 s1) as [loop Hloop].
  change (attempts env 10 1 s1) with (attempts env maxRetries 1 s1) in Hloop.
  assert (Hlive : Forall live (emitted (attempts env maxRetries 1 s1))).
  { apply emits_attempts; intros; reflexivity. }
  rewrite Hloop in Hlive |- *. inversion Hlive as [|? ? _ Hlive']; subst.
  eexists loop, _. split; [reflexivity|]. split; [assumption|].
  destruct cur as [current|].
  - apply emits_bind; [apply emits_late_resolveStored|].
    intros [exit|storedEmbedding]; [apply emits_ret | apply emits_late_scoring].
  - apply emits_reject; reflexivity.
Qed.

(** Either [verifyFace] ends before the loop, having neither attempted nor
    loaded anything, or its events are the lookup, the warm-up delay, the
    loop, and then events none of which is an attempt. *)
Lemma verifyFace_phases (rfidTag : string) (s : State) :
  Forall early (emitted (verifyFace env rfidTag s)) \/
  exists loop rest,
    emitted (verifyFace env rfidTag s) =
      (SelectUser rfidTag :: Sleep 1500 :: Attempt 1 :: loop) ++ rest /\
    Forall live loop /\ Forall late rest.
Proof.
  destruct (videoRef env) as [v|] eqn:Hv.
  2:{ left. unfold verifyFace. rewrite Hv. cbn. repeat constructor. }
  destruct (result (selectUser env rfidTag s)) as [q| |] eqn:E; try discriminate E.
  assert (Hearly : forall ms reason,
            Forall early (emitted (reject ms reason (after (selectUser env rfidTag s))))).
  { intros ms reason. cbn. repeat constructor. }
  destruct q as [|[user|]].
  - left. unfold verifyFace. rewrite Hv. unfold try_catch.
    rewrite (bind_Ok _ _ _ E). cbn. repeat constructor.
  - destruct (hasFaceData user) eqn:Hd.
    2:{ left. unfold verifyFace. rewrite Hv. unfold try_catch.
        rewrite (bind_Ok _ _ _ E). rewrite Hd. cbn. repeat constructor. }
    destruct (isLoading (hook env)) eqn:Hl.
    { left. unfold verifyFace. rewrite Hv. unfold try_catch.
      rewrite (bind_Ok _ _ _ E). rewrite Hd, Hl. cbn. repeat constructor. }
    right. rewrite (verifyFace_ready Hv E Hd Hl).
    destruct (afterReady_shape rfidTag user s) as (loop & rest & He & Hlive & Hlate).
    unfold try_catch. rewrite bind_emit. cbn [result emitted].
    destruct (result (afterReady env rfidTag user s)); cbn [result emitted]; rewrite He.
    + exists loop, rest. repeat split; assumption.
    + exists loop, (rest ++ reject_block 2000).
      split; [cbn [app]; rewrite <- app_assoc; reflexivity|].
      split; [assumption|]. apply Forall_app. split; [assumption|].
      repeat constructor.
    + exists loop, rest. repeat split; assumption.
  - left. unfold verifyFace. rewrite Hv. unfold try_catch.
    rewrite (bind_Ok _ _ _ E). cbn. repeat constructor.
Qed.

End Phases.

(** When [x] is the first element of [front ++ back] that satisfies [p],
    it lies in [back]. *)
Lemma split_after {A} (p : A -> bool) (front : list A) :
  forall (back pre post : list A) (x : A),
    Forall (fun e => p e = false) front ->
    p x = true ->
    front ++ back = pre ++ x :: post ->
    exists mid, pre = front ++ mid /\ back = mid ++ x :: post.
Proof.
  induction front as [|a front IH]; intros back pre post x Hf Hx Heq.
  - exists pre. split; [reflexivity | assumption].
  - inversion Hf as [|? ? Ha Hf']; subst.
    destruct pre as [|b pre]; cbn in Heq.
    + injection Heq as -> _. congruence.
    + injection Heq as -> Heq.
      destruct (IH back pre post x Hf' Hx Heq) as (mid & -> & ->).
      exists mid. split; reflexivity.
Qed.

(** ** The whole invocation *)

Lemma setTimeout_step {A} (ms : Z) (callback : M A) (s : State) :
  setTimeout ms callback s =
    {| result := result (callback (delayed ms s));
       after := after (callback (delayed ms s));
       emitted := Timeout ms :: emitted (callback (delayed ms s)) |}.
Proof.
  unfold setTimeout. rewrite bind_emit. cbn [result after emitted].
  assert (Ea : result (advance ms s) = Ok tt) by reflexivity.
  rewrite (bind_Ok _ _ _ Ea). reflexivity.
Qed.

Lemma filter_insert_quiet (l : list Event) : Forall quiet l -> filter is_Insert l = [].
Proof.
  induction 1 as [|e l He _ IH]; [reflexivity|].
  cbn [filter]. destruct e; cbn in *; try assumption; contradiction.
Qed.

Section Invocation.

Context {num : Type} `{JsNumber num}.
Variable env : Env num.

Lemma ticks_step (n : nat) :
  forall s : State,
    result (ticks n s) = Ok tt /\
    emitted (ticks n s) = repeat (Sleep 100) n /\
    verification_events (after (ticks n s)) = verification_events s /\
    calls (after (ticks n s)) = calls s /\
    clock (after (ticks n s)) = (clock s + 100 * Z.of_nat n)%Z.
Proof.
  induction n as [|n IH]; intros s.
  - cbn. repeat split; lia.
  - cbn [ticks].
    assert (Es : result (sleep 100 s) = Ok tt) by reflexivity.
    rewrite (bind_Ok _ _ _ Es). cbn [result after emitted].
    destruct (IH (after (sleep 100 s))) as (Hr & He & Hv & Hc & Hk).
    rewrite Hr, He, Hv, Hc, Hk.
    cbn [sleep bind emit advance result after emitted verification_events calls clock
         app repeat].
    repeat split. lia.
Qed.

Lemma quiet_ticks (n : nat) : Forall quiet (GetUserMedia :: repeat (Sleep 100) n).
Proof.
  constructor; [exact I|]. induction n as [|n IH]; cbn; constructor; [exact I | assumption].
Qed.

(** The ways [startCamera] can go: it returns after the ticks of the poll,
    if there was one; it returns at once, having called [onFailed]; or it
    is left pending. *)
Lemma startCamera_cases (s : State) :
  verification_events (after (startCamera env s)) = verification_events s /\
  ((exists n, result (startCamera env s) = Ok tt /\
              emitted (startCamera env s) = GetUserMedia :: repeat (Sleep 100) n) \/
   (result (startCamera env s) = Ok tt /\
    emitted (startCamera env s) = [GetUserMedia; Fire onFailed]) \/
   (result (startCamera env s) = Hang /\
    emitted (startCamera env s) = [GetUserMedia])).
Proof.
  unfold startCamera, try_catch. rewrite bind_emit.
  destruct (getUserMedia env); [|cbn; split; [reflexivity|tauto]..].
  destruct (videoRef env) as [v|].
  2:{ cbn. split; [reflexivity|]. left. exists 0. split; reflexivity. }
  destruct (play env); [|cbn; split; [reflexivity|tauto]..].
  destruct (poll env) as [n|]; [|cbn; split; [reflexivity|tauto]].
  destruct (ticks_step (S n) s) as (Hr & He & Hv & _ & _).
  cbn [result after emitted]. rewrite Hr. cbn [result after emitted]. rewrite He.
  split; [exact Hv|]. left. exists (S n). split; reflexivity.
Qed.




(** What leaves [startCamera] pending. *)
Lemma startCamera_pending (s : State) :
  result (startCamera env s) = Hang <->
  getUserMedia env = Pends \/
  (getUserMedia env = Resolves /\ videoRef env <> None /\
   (play env = Pends \/ (play env = Resolves /\ poll env = None))).
Proof.
  unfold startCamera, try_catch. rewrite bind_emit.
  destruct (getUserMedia env); cbn [result].
  - destruct (videoRef env) as [v|].
    + destruct (play env); cbn [result].
      * destruct (poll env) as [n|].
        -- destruct (ticks_step (S n) s) as (Hr & _). rewrite Hr.
           split; [discriminate|].
           intros [Hf | (_ & _ & [Hf | [_ Hf]])]; discriminate.
        -- cbn. split; [|reflexivity]. intros _. right.
           split; [reflexivity|]. split; [discriminate|]. right. split; reflexivity.
      * cbn. split; [discriminate|].
        intros [Hf | (_ & _ & [Hf | [Hf _]])]; discriminate.
      * cbn. split; [|reflexivity]. intros _. right.
        split; [reflexivity|]. split; [discriminate|]. left. reflexivity.
    + cbn. split; [discriminate|].
      intros [Hf | (_ & Hf & _)]; [discriminate | contradiction].
  - cbn. split; [discriminate|]. intros [Hf | (Hf & _)]; discriminate.
  - cbn. split; [|reflexivity]. intros _. left. reflexivity.
Qed.

Lemma startVerification_step (rfidTag : string) (s : State) :
  result (startCamera env s) = Ok tt ->
  let s' := delayed 3500 (after (startCamera env s)) in
  startVerification env rfidTag s =
    {| result := result (verifyFace env rfidTag s');
       after := after (verifyFace env rfidTag s');
       emitted := emitted (startCamera env s) ++
                  Timeout 3500 :: emitted (verifyFace env rfidTag s') |}.
Proof.
  intros E. cbv zeta. unfold startVerification.
  rewrite (bind_Ok _ _ _ E). rewrite setTimeout_step. reflexivity.
Qed.

Lemma startVerification_hangs (rfidTag : string) (s : State) :
  result (startCamera env s) = Hang ->
  startVerification env rfidTag s =
    {| result := Hang; after := after (startCamera env s);
       emitted := emitted (startCamera env s) |}.
Proof. intros E. unfold startVerification. apply (bind_Hang _ _ _ E). Qed.

(** How [verifyFace] ends, whether or not the video element is there. *)
Lemma verifyFace_ends (rfidTag : string) (s : State) :
  (videoRef env = None /\
   verifyFace env rfidTag s =
     {| result := Ok (Rejected VideoElementMissing); after := s; emitted := [Fire onFailed] |}) \/
  (videoRef env <> None /\
   ends_well (insert_accepted env) rfidTag s (verifyFace env rfidTag s) /\
   exists o, result (verifyFace env rfidTag s) = Ok o).
Proof.
  destruct (videoRef env) as [v|] eqn:Hv.
  - right. destruct (closes_verifyFace env rfidTag Hv) as [Hc Hr].
    split; [discriminate|]. split; [apply Hc | apply Hr].
  - left. split; [reflexivity|]. unfold verifyFace. rewrite Hv. reflexivity.
Qed.

Lemma audit_delta_rejected (accepted : bool) (rfidTag : string) (r : Res Outcome) :
  (forall userId, r <> Ok (Matched userId)) ->
  audit_delta accepted rfidTag r = [] /\ requested rfidTag r = [].
Proof.
  intros Hn. unfold audit_delta.
  destruct r as [[userId|reason]| |]; cbn [requested];
    try (destruct accepted; split; reflexivity).
  exfalso. apply (Hn userId). reflexivity.
Qed.

Lemma verifyFace_audit (rfidTag : string) (s : State) :
  verification_events (after (verifyFace env rfidTag s)) =
    verification_events s ++
    audit_delta (insert_accepted env) rfidTag (result (verifyFace env rfidTag s)) /\
  filter is_Insert (emitted (verifyFace env rfidTag s)) =
    map InsertVerificationEvent (requested rfidTag (result (verifyFace env rfidTag s))).
Proof.
  destruct (verifyFace_ends rfidTag s) as [[_ ->] | (_ & Hw & o & Ho)].
  - cbn [result after emitted].
    destruct (audit_delta_rejected (insert_accepted env) rfidTag
                (r := Ok (Rejected VideoElementMissing))) as [-> ->]; [discriminate|].
    rewrite app_nil_r. split; reflexivity.
  - unfold ends_well in Hw. rewrite Ho in Hw |- *.
    destruct o as [userId|reason].
    + destruct Hw as (-> & (pre & Hq & ->) & ->). unfold audit_delta. cbn [requested map].
      split; [destruct (insert_accepted env); reflexivity|].
      rewrite filter_app, (filter_insert_quiet Hq). reflexivity.
    + destruct Hw as ((pre & ms & Hq & _ & ->) & ->).
      destruct (audit_delta_rejected (insert_accepted env) rfidTag
                  (r := Ok (Rejected reason))) as [-> ->]; [discriminate|].
      rewrite app_nil_r. split; [reflexivity|].
      rewrite filter_app, (filter_insert_quiet Hq). reflexivity.
Qed.


Lemma verifyFace_onVerified (rfidTag userId : string) (s : State) :
  In (Fire (onVerified userId)) (emitted (verifyFace env rfidTag s)) -> userId = rfidTag.
Proof.
  destruct (verifyFace_ends rfidTag s) as [[_ ->] | (_ & Hw & o & Ho)].
  - cbn. intros [Hf | []]. discriminate.
  - unfold ends_well in Hw. rewrite Ho in Hw.
    destruct o as [uid|reason].
    + destruct Hw as (_ & (pre & Hq & ->) & _). intros Hin.
      apply in_app_or in Hin. destruct Hin as [Hin | Hin].
      * exfalso. exact (quiet_not_In_Fire _ Hq Hin).
      * cbn in Hin. repeat (destruct Hin as [Hin | Hin]; try discriminate).
        -- injection Hin as ->. reflexivity.
        -- contradiction.
    + destruct Hw as ((pre & ms & Hq & _ & ->) & _). intros Hin.
      apply in_app_or in Hin. destruct Hin as [Hin | Hin].
      * exfalso. exact (quiet_not_In_Fire _ Hq Hin).
      * cbn in Hin. repeat (destruct Hin as [Hin | Hin]; try discriminate). contradiction.
Qed.

End Invocation.

(** * The claims *)

(** C1.  In the scoring step the outcome is decided by comparing the score
    of the stored and the live descriptor with the threshold 0.65: a score
    [>= 0.65] sets the status to success, asks for the insert of the audit
    row and calls [onVerified] with the user's id; a score [< 0.65] sets
    the status to failed and calls [onFailed].  Either continuation is
    called from a 3000 ms timer. *)
Theorem C1_scoring_threshold {num : Type} `{JsOrder num}
    (env : Env num) (rfidTag : string) (user : UserRow num)
    (stored current : FaceEmbedding num) (s : State) :
  let similarity := compareFaces stored current in
  let r := scoring env rfidTag user (Some (StoredEmbedding stored)) current s in
  (n_geb similarity n_threshold = true ->
   result r = Ok (Matched (id user)) /\
   emitted r = accept_block (id user) rfidTag) /\
  (n_ltb similarity n_threshold = true ->
   result r = Ok (Rejected BelowThreshold) /\
   emitted r = reject_block 3000).
Proof.
  cbv zeta. unfold scoring, compareStored.
  generalize (compareFaces stored current). intros similarity.
  rewrite bind_ret. cbn [result emitted].
  split.
  - intros Hge. rewrite Hge. split; reflexivity.
  - intros Hlt. apply ltb_not_geb in Hlt. rewrite Hlt. split; reflexivity.
Qed.

(** On the kiosk: the registered descriptor is accepted against itself and
    rejected against an orthogonal one. *)
Lemma C1_witness :
  result (scoring Kiosk.env "04A1B2C3" Kiosk.alice
            (Some (StoredEmbedding (F64 [1; 0; 0]%float))) (F64 [1; 0; 0]%float) initial)
    = Ok (Matched "04A1B2C3") /\
  result (scoring Kiosk.env "04A1B2C3" Kiosk.alice
            (Some (StoredEmbedding (F64 [1; 0; 0]%float))) (F64 [0; 1; 0]%float) initial)
    = Ok (Rejected BelowThreshold).
Proof.
  split.
  - apply (C1_scoring_threshold Kiosk.env "04A1B2C3" Kiosk.alice
             (F64 [1; 0; 0]%float) (F64 [1; 0; 0]%float) initial).
    reflexivity.
  - apply (C1_scoring_threshold Kiosk.env "04A1B2C3" Kiosk.alice
             (F64 [1; 0; 0]%float) (F64 [0; 1; 0]%float) initial).
    reflexivity.
Defined.

(** C2, refuted as stated: in binary64 the score of [6, 1] against
    [-6, -1] is [-2^-53], below the interval [0, 1]. *)
Lemma C2_counterexample :
  compareFaces (F64 [6; 1]%float) (F64 [-6; -1]%float) = (-0x1p-53)%float /\
  n_ltb (compareFaces (F64 [6; 1]%float) (F64 [-6; -1]%float)) n_zero = true.
Proof. split; reflexivity. Qed.

(** C2, amended.  [compareFaces] is a total function that computes the
    reference definition in the arithmetic it is run on: 0 when the lengths
    differ, 0 when either norm is zero, and otherwise
    (dot(a,b) / (||a|| * ||b||) + 1) / 2.  In exact arithmetic its value lies
    in [0, 1] and orthogonal descriptors of non-zero norm score 1/2.  In
    binary64 the orthogonal pair [1, 0], [0, 1] scores exactly 0.5, but the
    value need not lie in [0, 1], nor near it: [6, 1] against [-6, -1]
    scores -2^-53, and [2^665] against [-2^665], whose squares overflow,
    scores NaN. *)
Theorem C2_score_reference :
  (forall (num : Type) (arith : JsNumber num) (embedding1 embedding2 : FaceEmbedding num),
     compareFaces embedding1 embedding2 =
       score_reference (descriptor embedding1) (descriptor embedding2)) /\
  (forall (num : Type) (arith : JsNumber num) (embedding1 embedding2 : FaceEmbedding num),
     List.length (descriptor embedding1) <> List.length (descriptor embedding2) ->
     compareFaces embedding1 embedding2 = n_zero) /\
  (forall embedding1 embedding2 : FaceEmbedding R,
     magnitude (descriptor embedding1) = 0%R \/ magnitude (descriptor embedding2) = 0%R ->
     compareFaces embedding1 embedding2 = 0%R) /\
  (forall embedding1 embedding2 : FaceEmbedding R,
     (0 <= compareFaces embedding1 embedding2 <= 1)%R) /\
  (forall embedding1 embedding2 : FaceEmbedding R,
     List.length (descriptor embedding1) = List.length (descriptor embedding2) ->
     magnitude (descriptor embedding1) <> 0%R ->
     magnitude (descriptor embedding2) <> 0%R ->
     dot (descriptor embedding1) (descriptor embedding2) = 0%R ->
     compareFaces embedding1 embedding2 = (1 / 2)%R) /\
  compareFaces (F64 [1; 0]%float) (F64 [0; 1]%float) = 0.5%float /\
  compareFaces (F64 [6; 1]%float) (F64 [-6; -1]%float) = (-0x1p-53)%float /\
  PrimFloat.is_nan (compareFaces (F64 [0x1p665]%float) (F64 [-0x1p665]%float)) = true.
Proof.
  repeat split.
  - intros. apply compareDescriptors_reference.
  - intros. apply compareDescriptors_length. assumption.
  - intros. apply compareDescriptors_exact_zero_norm. assumption.
  - apply compareDescriptors_exact_range.
  - apply compareDescriptors_exact_range.
  - intros. apply compareDescriptors_exact_orthogonal; assumption.
Qed.

(** In exact arithmetic [1, 0] and [0, 1] are orthogonal descriptors of
    non-zero norm. *)
Lemma C2_witness :
  compareFaces (Real [1; 0]%R) (Real [0; 1]%R) = (1 / 2)%R /\
  (0 <= compareFaces (Real [3; 4]%R) (Real [4; -3]%R) <= 1)%R.
Proof.
  destruct C2_score_reference as (_ & _ & _ & Hrange & Horth & _ & _ & _).
  split; [|apply Hrange].
  apply Horth.
  - reflexivity.
  - unfold magnitude; cbn. apply Rgt_not_eq, sqrt_lt_R0. lra.
  - unfold magnitude; cbn. apply Rgt_not_eq, sqrt_lt_R0. lra.
  - unfold dot; cbn. lra.
Defined.

(** C3.  The retry loop makes at most 10 attempts.  It leaves at the first
    attempt whose extraction succeeds: the attempts and awaited delays of
    the loop are then attempt 1, a 1500 ms delay, attempt 2, ..., attempt
    k, with no delay after attempt k.  When all 10 extractions fail there
    are 10 attempts with 9 delays between them, [verifyFace] ends with
    the rejecting block of NoLiveFace and [onFailed] is called once. *)
Theorem C3_retry_loop {num : Type} `{JsNumber num} (env : Env num) (s : State) :
  List.length (filter is_Attempt (emitted (attempts env maxRetries 1 s))) <= 10 /\
  (forall (k : nat) (d : list num),
     1 <= k <= 10 ->
     (forall i, 1 <= i < k -> liveExtraction env (calls s + 2 * i - 1) = None) ->
     liveExtraction env (calls s + 2 * k - 1) = Some d ->
     (exists t, result (attempts env maxRetries 1 s) =
                  Ok (Some {| descriptor := d; timestamp := t |})) /\
     marks (emitted (attempts env maxRetries 1 s)) = between 1 (k - 1)) /\
  ((forall i, 1 <= i <= 10 -> liveExtraction env (calls s + 2 * i - 1) = None) ->
   result (attempts env maxRetries 1 s) = Ok None /\
   marks (emitted (attempts env maxRetries 1 s)) = between 1 9 /\
   forall (rfidTag : string) (v : Video) (user : UserRow num),
     videoRef env = Some v ->
     result (selectUser env rfidTag s) = Ok (QueryData (Some user)) ->
     hasFaceData user = true ->
     isLoading (hook env) = false ->
     result (verifyFace env rfidTag s) = Ok (Rejected NoLiveFace) /\
     fires (emitted (verifyFace env rfidTag s)) = 1 /\
     exists pre, emitted (verifyFace env rfidTag s) = pre ++ reject_block 2000 /\
                 marks pre = Sleep 1500 :: between 1 9).
Proof.
  split; [apply (attempts_bounded env maxRetries 1 s)|]. split.
  - intros k d Hk Hfail Hok.
    apply (attempts_success env (more := k - 1) (remaining := maxRetries) 1 s (d := d)).
    + unfold maxRetries. lia.
    + unfold maxRetries. lia.
    + intros i Hi. replace (S (calls s) + 2 * i) with (calls s + 2 * S i - 1) by lia.
      apply Hfail. lia.
    + replace (S (calls s) + 2 * (k - 1)) with (calls s + 2 * k - 1) by lia. assumption.
  - intros Hfail.
    destruct (attempts_failure env (remaining := maxRetries) 1 s) as [Hres Hm]; [reflexivity| |].
    { intros i Hi. replace (S (calls s) + 2 * i) with (calls s + 2 * S i - 1) by lia.
      apply Hfail. unfold maxRetries in Hi. lia. }
    split; [assumption|]. split; [exact Hm|].
    intros rfidTag v user Hv Hq Hd Hl.
    rewrite (verifyFace_ready Hv Hq Hd Hl).
    destruct (afterReady_all_fail env rfidTag user s) as (Hr & He & Hmk).
    { intros i Hi. apply Hfail. unfold maxRetries in Hi. lia. }
    assert (Hstep : result ((emit (SelectUser rfidTag) ;; afterReady env rfidTag user)%flow s)
                    = Ok (Rejected NoLiveFace)).
    { rewrite bind_emit. cbn [result]. assumption. }
    rewrite (try_catch_Ok _ _ _ Hstep). rewrite bind_emit. cbn [result emitted].
    split; [assumption|]. rewrite He. split.
    + change (SelectUser rfidTag :: (Sleep 1500 :: ?l) ++ reject_block 2000)
        with ((SelectUser rfidTag :: Sleep 1500 :: l) ++ reject_block 2000).
      rewrite fires_app.
      rewrite fires_quiet; [reflexivity|].
      constructor; [exact I|]. constructor; [exact I|].
      apply (silent_attempts env maxRetries 1).
    + eexists (SelectUser rfidTag :: Sleep 1500 :: _). split; [reflexivity|].
      cbn [marks filter]. f_equal. exact Hmk.
Qed.

(** On the kiosk the third extraction is the first to succeed. *)
Lemma C3_witness :
  marks (emitted (attempts Kiosk.env maxRetries 1 initial)) =
    [Attempt 1; Sleep 1500; Attempt 2; Sleep 1500; Attempt 3].
Proof.
  refine (proj2 (proj1 (proj2 (C3_retry_loop Kiosk.env initial)) 3 [1; 0; 0]%float _ _ _)).
  - split; repeat constructor.
  - intros i [H1 H2]. destruct i as [|[|[|i]]].
    + inversion H1.
    + reflexivity.
    + reflexivity.
    + exfalso. apply (Nat.nle_succ_0 i). do 3 apply le_S_n. exact H2.
  - reflexivity.
Defined.

(** C4, refuted as stated: for a user registered with an image URL, the
    first live attempt is the third event of [verifyFace] and the
    reference image starts to load only as its seventeenth, after the
    third attempt has succeeded. *)
Lemma C4_counterexample :
  position is_Attempt (emitted (verifyFace Kiosk.env "04D4E5F6" initial)) = Some 2 /\
  position is_LoadImage (emitted (verifyFace Kiosk.env "04D4E5F6" initial)) = Some 16 /\
  nth_error (emitted (verifyFace Kiosk.env "04D4E5F6" initial)) 12 = Some (Attempt 3).
Proof. repeat split; reflexivity. Qed.

(** C4, amended.  In every run of [verifyFace] the lookup of the user
    record comes before the first live attempt, and the stored image
    reference is resolved only after the retry loop: whenever the
    reference image is loaded, the lookup and the first attempt have
    happened before and no attempt follows; and before any attempt the
    lookup has happened and no image has been loaded. *)
Theorem C4_reference_after_live_attempts {num : Type} `{JsNumber num}
    (env : Env num) (rfidTag : string) (s : State) :
  (forall (pre post : list Event) (u : string),
     emitted (verifyFace env rfidTag s) = pre ++ LoadImage u :: post ->
     In (SelectUser rfidTag) pre /\ In (Attempt 1) pre /\
     forall n, ~ In (Attempt n) post) /\
  (forall (pre post : list Event) (n : nat),
     emitted (verifyFace env rfidTag s) = pre ++ Attempt n :: post ->
     In (SelectUser rfidTag) pre /\
     forall u, ~ In (LoadImage u) pre).
Proof.
  destruct (verifyFace_phases env rfidTag s) as [Hearly | (loop & rest & He & Hlive & Hlate)].
  - split; intros pre post x Heq; exfalso; rewrite Heq in Hearly;
      rewrite Forall_forall in Hearly;
      destruct (Hearly _ (in_elt _ pre post)) as [Ha Hl]; discriminate.
  - rewrite He. split.
    + intros pre post u Heq.
      destruct (split_after is_LoadImage
                  (front := SelectUser rfidTag :: Sleep 1500 :: Attempt 1 :: loop)
                  rest pre post (LoadImage u)) as (mid & -> & Hrest);
        [repeat constructor; assumption | reflexivity | assumption |].
      split; [left; reflexivity|]. split; [right; right; left; reflexivity|].
      intros n Hin. rewrite Hrest in Hlate. rewrite Forall_forall in Hlate.
      assert (Hn : late (Attempt n)).
      { apply Hlate. apply in_or_app. right. right. assumption. }
      discriminate Hn.
    + intros pre post n Heq.
      destruct (split_after is_Attempt
                  (front := [SelectUser rfidTag; Sleep 1500])
                  ((Attempt 1 :: loop) ++ rest) pre post (Attempt n)) as (mid & Hpre & Hback);
        [repeat constructor | reflexivity | assumption |].
      subst pre.
      split; [left; reflexivity|].
      intros u [Hu | [Hu | Hin]]; try discriminate.
      cbn [app] in Hin.
      destruct (in_split _ _ Hin) as (m1 & m2 & Hmid). subst mid.
      rewrite <- app_assoc in Hback. cbn [app] in Hback.
      destruct (split_after is_LoadImage (front := Attempt 1 :: loop) rest m1
                  (m2 ++ Attempt n :: post) (LoadImage u)) as (mid & _ & Hrest);
        [constructor; [reflexivity | assumption] | reflexivity | assumption |].
      rewrite Hrest in Hlate. rewrite Forall_forall in Hlate.
      assert (Hn : late (Attempt n)).
      { apply Hlate. apply in_or_app. right. right. apply in_or_app. right. left. reflexivity. }
      discriminate Hn.
Qed.

(** On the kiosk, for the user registered with an image URL. *)
Lemma C4_witness :
  In (SelectUser "04D4E5F6")
     (firstn 16 (emitted (verifyFace Kiosk.env "04D4E5F6" initial))) /\
  In (Attempt 1)
     (firstn 16 (emitted (verifyFace Kiosk.env "04D4E5F6" initial))).
Proof.
  assert (Heq : emitted (verifyFace Kiosk.env "04D4E5F6" initial) =
                firstn 16 (emitted (verifyFace Kiosk.env "04D4E5F6" initial)) ++
                LoadImage "https://example.com/f.jpg" ::
                skipn 17 (emitted (verifyFace Kiosk.env "04D4E5F6" initial)))
    by (vm_compute; reflexivity).
  destruct (proj1 (C4_reference_after_live_attempts Kiosk.env "04D4E5F6" initial)
              _ _ _ Heq) as (H1 & H2 & _).
  split; assumption.
Defined.




(** C6, refuted as stated: the zero descriptor scores 0 against itself,
    and in binary64 [1, 1] scores 1 - 2^-53 against itself. *)
Lemma C6_counterexample :
  compareFaces (F64 [0; 0]%float) (F64 [0; 0]%float) = 0%float /\
  compareFaces (F64 [1; 1]%float) (F64 [1; 1]%float) = 0x1.fffffffffffffp-1%float /\
  n_eqb (compareFaces (F64 [1; 1]%float) (F64 [1; 1]%float)) n_one = false.
Proof. repeat split; reflexivity. Qed.

(** C6, amended.  In any arithmetic the score of a descriptor against
    itself is 0 when the square root of its sum of squares [n] is zero
    and (n / (sqrt n * sqrt n) + 1) / 2 otherwise.  In exact arithmetic
    that is 1 for every descriptor of non-zero norm and 0 for a descriptor
    of zero norm.  In binary64 it is exactly 1.0 for the descriptors
    [1, 0, ..., 0] but not for every descriptor of non-zero norm: [1, 1]
    scores 1 - 2^-53 against itself, and [2^665], whose square overflows,
    scores NaN. *)
Theorem C6_identical_descriptors :
  (forall (num : Type) (arith : JsNumber num) (embedding : FaceEmbedding num),
     compareFaces embedding embedding =
       let n := sq_sum (descriptor embedding) n_zero in
       if n_eqb (n_sqrt n) n_zero then n_zero
       else n_div (n_add (n_div n (n_mul (n_sqrt n) (n_sqrt n))) n_one) n_two) /\
  (forall embedding : FaceEmbedding R,
     magnitude (descriptor embedding) <> 0%R -> compareFaces embedding embedding = 1%R) /\
  (forall embedding : FaceEmbedding R,
     magnitude (descriptor embedding) = 0%R -> compareFaces embedding embedding = 0%R) /\
  (forall n : nat, compareFaces (F64 (basis n)) (F64 (basis n)) = 1%float) /\
  compareFaces (F64 [1; 1]%float) (F64 [1; 1]%float) = 0x1.fffffffffffffp-1%float /\
  PrimFloat.is_nan (compareFaces (F64 [0x1p665]%float) (F64 [0x1p665]%float)) = true.
Proof.
  split; [|split; [|split; [|split; [|split]]]].
  - intros num arith e. apply compareDescriptors_same.
  - intros e He. apply compareDescriptors_exact_same. assumption.
  - intros e He. apply compareDescriptors_exact_zero_norm. left. assumption.
  - intros n. apply compareDescriptors_basis.
  - reflexivity.
  - reflexivity.
Qed.

(** In exact arithmetic [3, 4] has norm 5 and scores 1 against itself. *)
Lemma C6_witness :
  magnitude (descriptor (Real [3; 4]%R)) <> 0%R /\
  compareFaces (Real [3; 4]%R) (Real [3; 4]%R) = 1%R.
Proof.
  assert (Hm : magnitude (descriptor (Real [3; 4]%R)) <> 0%R).
  { unfold magnitude; cbn. apply Rgt_not_eq, sqrt_lt_R0. lra. }
  split; [exact Hm|].
  exact (proj1 (proj2 C6_identical_descriptors) (Real [3; 4]%R) Hm).
Defined.

(** C7, refuted as stated: when the audit table refuses the insert, the
    run still ends in Matched and calls [onVerified], and no row has been
    appended. *)
Lemma C7_counterexample :
  result (verifyFace Cases.env_refusing "04A1B2C3" initial) = Ok (Matched "04A1B2C3") /\
  In (Fire (onVerified "04A1B2C3"))
     (emitted (verifyFace Cases.env_refusing "04A1B2C3" initial)) /\
  verification_events (after (verifyFace Cases.env_refusing "04A1B2C3" initial)) = [].
Proof.
  split; [reflexivity|]. split; [|reflexivity].
  vm_compute. repeat (first [left; reflexivity | right]).
Qed.

(** C7, amended.  The insert of a row with the user id, the tag presented,
    and both checks marked true is requested exactly when the run ends
    in Matched, once; every other way a run can end, rejections
    included, requests no insert and leaves the audit table as it was.
    When the run ends in Matched the table grows by exactly that row if it
    accepts the insert and stays as it was if it refuses it: the outcome
    of the insert is not read. *)
Theorem C7_audit_only_on_match {num : Type} `{JsNumber num}
    (env : Env num) (rfidTag : string) (s : State) :
  (verification_events (after (verifyFace env rfidTag s)) =
     verification_events s ++
     audit_delta (insert_accepted env) rfidTag (result (verifyFace env rfidTag s)) /\
   filter is_Insert (emitted (verifyFace env rfidTag s)) =
     map InsertVerificationEvent (requested rfidTag (result (verifyFace env rfidTag s)))) /\
  (verification_events (after (startVerification env rfidTag s)) =
     verification_events s ++
     audit_delta (insert_accepted env) rfidTag (result (startVerification env rfidTag s)) /\
   filter is_Insert (emitted (startVerification env rfidTag s)) =
     map InsertVerificationEvent
       (requested rfidTag (result (startVerification env rfidTag s)))) /\
  (forall r : Res Outcome,
     (forall userId, r <> Ok (Matched userId)) ->
     audit_delta (insert_accepted env) rfidTag r = [] /\ requested rfidTag r = []) /\
  (forall userId,
     requested rfidTag (Ok (Matched userId)) =
       [{| user_id := userId; rfid_tag := rfidTag;
           face_verified := true; rfid_verified := true |}] /\
     audit_delta (insert_accepted env) rfidTag (Ok (Matched userId)) =
       if insert_accepted env
       then [{| user_id := userId; rfid_tag := rfidTag;
                face_verified := true; rfid_verified := true |}]
       else []).
Proof.
  split; [apply verifyFace_audit|].
  split; [|split; [intros r Hr; apply audit_delta_rejected; assumption
                  |intros userId; split; reflexivity]].
  destruct (startCamera_cases env s) as [Ha Hcases].
  assert (Hok : forall evs,
            result (startCamera env s) = Ok tt ->
            emitted (startCamera env s) = evs ->
            filter is_Insert evs = [] ->
            verification_events (after (startVerification env rfidTag s)) =
              verification_events s ++
              audit_delta (insert_accepted env) rfidTag
                (result (startVerification env rfidTag s)) /\
            filter is_Insert (emitted (startVerification env rfidTag s)) =
              map InsertVerificationEvent
                (requested rfidTag (result (startVerification env rfidTag s)))).
  { intros evs Er Ee Hf.
    rewrite (startVerification_step env rfidTag s Er). cbn [result after emitted].
    destruct (verifyFace_audit env rfidTag (delayed 3500 (after (startCamera env s))))
      as [Hv He].
    rewrite Hv, Ee, filter_app, Hf. cbn [delayed verification_events app filter is_Insert].
    rewrite Ha, He. split; reflexivity. }
  destruct Hcases as [(n & Er & Ee) | [[Er Ee] | [Er Ee]]].
  - apply (Hok _ Er Ee). apply (filter_insert_quiet (quiet_ticks n)).
  - apply (Hok _ Er Ee). reflexivity.
  - rewrite (startVerification_hangs env rfidTag s Er). cbn [result after emitted].
    destruct (audit_delta_rejected (insert_accepted env) rfidTag (r := @Hang Outcome))
      as [-> ->]; [discriminate|].
    rewrite Ha, Ee, app_nil_r. split; reflexivity.
Qed.

(** On the kiosk the table accepts the row of the verified user. *)
Lemma C7_witness :
  verification_events (after (verifyFace Kiosk.env "04A1B2C3" initial)) =
    [{| user_id := "04A1B2C3"; rfid_tag := "04A1B2C3";
        face_verified := true; rfid_verified := true |}].
Proof.
  exact (proj1 (proj1 (C7_audit_only_on_match Kiosk.env "04A1B2C3" initial))).
Defined.

(** C8, refuted as stated: before the models are loaded the extractor
    returns null and leaves no trace, and it returns the same null when the
    loaded detector finds no face. *)
Lemma C8_counterexample :
  extractFaceEmbedding Kiosk.env_loading (Some Kiosk.camera) initial =
    {| result := Ok None; after := initial; emitted := [] |} /\
  result (extractFaceEmbedding Kiosk.env_empty (Some Kiosk.camera) initial) = Ok None.
Proof. split; reflexivity. Qed.

(** C8, amended.  When the models are not loaded, [detectFaces] and
    [extractFaceEmbedding] return null without calling the detection
    capability, and that result is the one a caller gets when the loaded
    detector finds no face. *)
Theorem C8_not_ready_returns_no_face {num : Type} `{JsNumber num}
    (env : Env num) (videoElement : option Video) (s : State) :
  modelsLoaded (hook env) = false ->
  detectFaces env videoElement s = {| result := Ok None; after := s; emitted := [] |} /\
  extractFaceEmbedding env videoElement s = {| result := Ok None; after := s; emitted := [] |} /\
  (forall (env' : Env num) (v' : Video) (s' : State),
     reaches env' (Some v') = true ->
     detectAllFaces env' (calls s') = Detected [] ->
     result (extractFaceEmbedding env' (Some v') s') =
       result (extractFaceEmbedding env videoElement s)).
Proof.
  intros Hm.
  assert (Hr : reaches env videoElement = false) by (unfold reaches; rewrite Hm; reflexivity).
  repeat split.
  - apply detectFaces_skips. assumption.
  - apply extractFaceEmbedding_skips. assumption.
  - intros env' v' s' Hr' Hd.
    rewrite (extractFaceEmbedding_calls _ _ _ Hr'), (extractFaceEmbedding_skips _ _ _ Hr).
    cbn [result]. rewrite Hd. reflexivity.
Qed.

(** On the kiosk, before the models are loaded and with nobody in front of
    the camera. *)
Lemma C8_witness :
  modelsLoaded (hook Kiosk.env_loading) = false /\
  result (extractFaceEmbedding Kiosk.env_empty (Some Kiosk.camera) initial) =
    result (extractFaceEmbedding Kiosk.env_loading (Some Kiosk.camera) initial).
Proof.
  split; [reflexivity|].
  apply (C8_not_ready_returns_no_face Kiosk.env_loading (Some Kiosk.camera) initial eq_refl);
    reflexivity.
Defined.

(** C9.  Before the scheme test the resolver trims the stored URL and
    strips one pair of surrounding double quotes: a stored value made of
    a quoted URL [u], with or without white space around the quotes, is
    cleaned to [u]; when [u] starts with http:// or https:// the image is
    loaded from [u] itself and the exit is not InvalidReference, and
    otherwise the exit is InvalidReference and nothing is loaded. *)
Theorem C9_quoted_url_is_cleaned {num : Type} `{JsNumber num}
    (env : Env num) (user : UserRow num) (ws1 u ws2 : string) (s : State) :
  face_embedding user = None ->
  face_image_url user = Some (ws1 ++ quote ++ u ++ quote ++ ws2)%string ->
  all_white_space ws1 = true ->
  all_white_space ws2 = true ->
  cleanImageUrl (ws1 ++ quote ++ u ++ quote ++ ws2) = u /\
  (isPublicUrl u = true ->
   (exists rest, emitted (resolveStored env user s) = LoadImage u :: rest) /\
   result (resolveStored env user s) <> Ok (inl (Rejected InvalidReference))) /\
  (isPublicUrl u = false ->
   result (resolveStored env user s) = Ok (inl (Rejected InvalidReference)) /\
   emitted (resolveStored env user s) = reject_block 3000).
Proof.
  intros He Hu H1 H2.
  pose proof (cleanImageUrl_quoted ws1 u ws2 H1 H2) as Hc.
  assert (Ht : truthy (Some (ws1 ++ quote ++ u ++ quote ++ ws2)%string) = true).
  { unfold truthy. destruct ws1; reflexivity. }
  split; [assumption|]. split; intros Hp.
  - rewrite (resolveStored_image env user He Hu Ht) by (rewrite Hc; assumption).
    rewrite Hc. pose proof (resolveFromImage_step env u s) as Hs. cbv zeta in Hs.
    destruct (extractEmbeddingFromImage_first env u s) as [rest Hrest].
    rewrite Hs. rewrite Hrest.
    destruct (result (extractEmbeddingFromImage env u s)); cbn [result emitted];
      (split; [eexists; reflexivity | discriminate]).
  - unfold resolveStored. rewrite He, Hu, Ht, Hc, Hp. split; reflexivity.
Qed.

(** The quoted URL of the kiosk's second user. *)
Lemma C9_witness :
  cleanImageUrl (quote ++ "https://example.com/f.jpg" ++ quote) = "https://example.com/f.jpg"%string /\
  exists rest,
    emitted (resolveStored Kiosk.env Kiosk.bob initial) =
      LoadImage "https://example.com/f.jpg" :: rest.
Proof.
  pose proof (C9_quoted_url_is_cleaned Kiosk.env Kiosk.bob ""%string
                "https://example.com/f.jpg"%string ""%string initial
                eq_refl eq_refl eq_refl eq_refl) as (Hc & Hp & _).
  split; [exact Hc|]. exact (proj1 (Hp eq_refl)).
Defined.

(** C10.  Whenever [onVerified] is called, the user id it receives is the
    tag that was presented, and a run that ends in Matched is matched to
    that tag: the user row is the one whose primary key equals the tag. *)
Theorem C10_verified_user_is_tag {num : Type} `{JsNumber num}
    (env : Env num) (rfidTag userId : string) (s : State) :
  In (Fire (onVerified userId)) (emitted (startVerification env rfidTag s)) \/
  result (startVerification env rfidTag s) = Ok (Matched userId) ->
  userId = rfidTag.
Proof.
  destruct (startCamera_cases env s) as [_ Hcases].
  assert (Hok : forall evs,
            result (startCamera env s) = Ok tt ->
            emitted (startCamera env s) = evs ->
            ~ In (Fire (onVerified userId)) evs ->
            In (Fire (onVerified userId)) (emitted (startVerification env rfidTag s)) \/
            result (startVerification env rfidTag s) = Ok (Matched userId) ->
            userId = rfidTag).
  { intros evs Er Ee Hn.
    rewrite (startVerification_step env rfidTag s Er). cbn [result emitted].
    set (s' := delayed 3500 (after (startCamera env s))).
    intros [Hin | Hres].
    - rewrite Ee in Hin. apply in_app_or in Hin. destruct Hin as [Hin | [Hin | Hin]].
      + contradiction.
      + discriminate.
      + apply (verifyFace_onVerified env rfidTag userId s' Hin).
    - destruct (verifyFace_ends env rfidTag s') as [[_ Hstep] | (_ & Hw & _)].
      + rewrite Hstep in Hres. discriminate.
      + unfold ends_well in Hw. rewrite Hres in Hw. tauto. }
  destruct Hcases as [(n & Er & Ee) | [[Er Ee] | [Er Ee]]].
  - apply (Hok _ Er Ee). apply (quiet_not_In_Fire _ (quiet_ticks n)).
  - apply (Hok _ Er Ee). cbn. intros [Hf | [Hf | []]]; discriminate.
  - rewrite (startVerification_hangs env rfidTag s Er). cbn [result emitted]. rewrite Ee.
    cbn. intros [[Hf | []] | Hf]; discriminate.
Qed.

(** On the kiosk, for the user registered with a descriptor. *)
Lemma C10_witness :
  In (Fire (onVerified "04A1B2C3"))
     (emitted (startVerification Kiosk.env "04A1B2C3" initial)) /\
  "04A1B2C3"%string = "04A1B2C3"%string.
Proof.
  assert (Hin : In (Fire (onVerified "04A1B2C3"))
                   (emitted (startVerification Kiosk.env "04A1B2C3" initial))).
  { vm_compute. repeat (first [left; reflexivity | right]). }
  split; [exact Hin|].
  exact (@C10_verified_user_is_tag float Float64 Kiosk.env "04A1B2C3"%string "04A1B2C3"%string
           initial (or_introl Hin)).
Defined.

(** * Further properties *)

(** ** The scorer in binary64 *)

Section Binary64Laws.

Lemma SFmul_comm (x y : SpecFloat.spec_float) :
  SpecFloat.SFmul prec emax x y = SpecFloat.SFmul prec emax y x.
Proof.
  destruct x as [sx | sx | | sx mx ex], y as [sy | sy | | sy my ey]; cbn;
    try reflexivity; try (rewrite (xorb_comm sx sy); reflexivity).
  rewrite (xorb_comm sx sy), (Pos.mul_comm mx my), (Z.add_comm ex ey). reflexivity.
Qed.

Lemma float_mul_comm (x y : float) : PrimFloat.mul x y = PrimFloat.mul y x.
Proof.
  apply Prim2SF_inj. rewrite !mul_spec. apply SFmul_comm.
Qed.

Lemma SFcompare_nan_r (x : SpecFloat.spec_float) :
  SpecFloat.SFcompare x SpecFloat.S754_nan = None.
Proof. destruct x; reflexivity. Qed.

Lemma SFcompare_refl (x : SpecFloat.spec_float) :
  x <> SpecFloat.S754_nan -> SpecFloat.SFcompare x x = Some Eq.
Proof.
  destruct x as [s | s | | s m e]; cbn; intros Hx; try reflexivity.
  - destruct s; reflexivity.
  - contradiction.
  - rewrite Z.compare_refl.
    change (PosDef.Pos.compare_cont Eq m m) with (Pos.compare m m).
    rewrite Pos.compare_refl. destruct s; reflexivity.
Qed.

Lemma float_is_nan (x : float) :
  PrimFloat.is_nan x = true -> Prim2SF x = SpecFloat.S754_nan.
Proof.
  unfold PrimFloat.is_nan. rewrite eqb_spec. unfold SpecFloat.SFeqb. intros Hx.
  destruct (Prim2SF x) as [s | s | | s m e]; try reflexivity;
    exfalso; rewrite SFcompare_refl in Hx by discriminate; discriminate.
Qed.

End Binary64Laws.

Section Symmetry.

Context {num : Type} `{JsNumber num}.
Hypothesis mul_comm : forall a b : num, n_mul a b = n_mul b a.

Lemma dot_sum_comm (a : list num) :
  forall (b : list num) (init : num), dot_sum a b init = dot_sum b a init.
Proof.
  unfold dot_sum. induction a as [|x a IH]; intros [|y b] init; try reflexivity.
  cbn [combine fold_left fst snd]. rewrite (mul_comm x y). apply IH.
Qed.

Lemma compareDescriptors_sym (a b : list num) :
  compareDescriptors a b = compareDescriptors b a.
Proof.
  unfold compareDescriptors. rewrite (Nat.eqb_sym (List.length b) (List.length a)).
  destruct (Nat.eqb (List.length a) (List.length b)) eqn:Hlen; cbn [negb]; [|reflexivity].
  apply Nat.eqb_eq in Hlen.
  rewrite (accumulate_sums a b _ Hlen), (accumulate_sums b a _ (eq_sym Hlen)).
  cbn [dotProduct norm1 norm2].
  rewrite (dot_sum_comm a b), (orb_comm (n_eqb (n_sqrt (sq_sum a n_zero)) n_zero)).
  rewrite (mul_comm (n_sqrt (sq_sum a n_zero))). reflexivity.
Qed.

End Symmetry.

(** Line 271 when the test fails: the rejecting exit, the audit table
    untouched. *)
Lemma scoring_rejects {num : Type} `{JsNumber num} (env : Env num)
    (rfidTag : string) (user : UserRow num) (stored current : FaceEmbedding num) (s : State) :
  n_geb (compareFaces stored current) n_threshold = false ->
  result (scoring env rfidTag user (Some (StoredEmbedding stored)) current s)
    = Ok (Rejected BelowThreshold) /\
  emitted (scoring env rfidTag user (Some (StoredEmbedding stored)) current s) = reject_block 3000 /\
  verification_events (after (scoring env rfidTag user (Some (StoredEmbedding stored)) current s))
    = verification_events s.
Proof.
  intros Hlt. unfold scoring, compareStored. rewrite bind_ret. cbn [result emitted after].
  rewrite Hlt. repeat split.
Qed.

Lemma sq_sum_zeros (n : nat) : sq_sum (zeros n) 0%float = 0%float.
Proof.
  unfold zeros, sq_sum. induction n as [|n IH]; [reflexivity|].
  cbn [repeat fold_left]. exact IH.
Qed.

Lemma compareDescriptors_zeros_r (a : list float) (n : nat) :
  compareDescriptors a (zeros n) = 0%float.
Proof.
  unfold compareDescriptors.
  destruct (Nat.eqb (List.length a) (List.length (zeros n))) eqn:Hlen; cbn [negb]; [|reflexivity].
  apply Nat.eqb_eq in Hlen.
  rewrite (accumulate_sums a (zeros n) _ Hlen). cbn [dotProduct norm1 norm2].
  change (@n_zero float Float64) with 0%float.
  rewrite sq_sum_zeros.
  change (n_eqb (n_sqrt 0%float) 0%float) with true.
  rewrite orb_true_r. reflexivity.
Qed.

(** X1.  The score does not depend on the order of its two arguments, in
    binary64 as in exact arithmetic. *)
Theorem X1_score_symmetric :
  (forall embedding1 embedding2 : FaceEmbedding float,
     compareFaces embedding1 embedding2 = compareFaces embedding2 embedding1) /\
  (forall embedding1 embedding2 : FaceEmbedding R,
     compareFaces embedding1 embedding2 = compareFaces embedding2 embedding1).
Proof.
  split; intros e1 e2; unfold compareFaces; apply compareDescriptors_sym.
  - exact float_mul_comm.
  - exact Rmult_comm.
Qed.

(** X2.  In binary64 every descriptor, whatever numbers it holds (NaN and
    infinities included) and whatever its length, scores exactly 0 against
    a descriptor of zeros, in either order. *)
Theorem X2_zero_descriptor_scores_zero
    (embedding : FaceEmbedding float) (n : nat) (t : Z) :
  compareFaces embedding {| descriptor := zeros n; timestamp := t |} = 0%float /\
  compareFaces {| descriptor := zeros n; timestamp := t |} embedding = 0%float.
Proof.
  unfold compareFaces; cbn [descriptor]. split.
  - apply compareDescriptors_zeros_r.
  - rewrite (@compareDescriptors_sym float Float64 float_mul_comm). apply compareDescriptors_zeros_r.
Qed.

(** X3.  In binary64 the scoring step rejects with BelowThreshold, after
    the 3000 ms hold and without an audit row, whenever the stored and the
    live descriptor differ in length or one of them is all zeros. *)
Theorem X3_degenerate_descriptors_are_rejected (env : Env float)
    (rfidTag : string) (user : UserRow float) (stored current : FaceEmbedding float) (s : State) :
  List.length (descriptor stored) <> List.length (descriptor current) \/
  (exists n, descriptor stored = zeros n) \/
  (exists n, descriptor current = zeros n) ->
  result (scoring env rfidTag user (Some (StoredEmbedding stored)) current s)
    = Ok (Rejected BelowThreshold) /\
  emitted (scoring env rfidTag user (Some (StoredEmbedding stored)) current s) = reject_block 3000 /\
  verification_events (after (scoring env rfidTag user (Some (StoredEmbedding stored)) current s))
    = verification_events s.
Proof.
  intros Hcase. apply scoring_rejects.
  assert (Hz : compareFaces stored current = 0%float).
  { unfold compareFaces. destruct Hcase as [Hlen | [[n Hn] | [n Hn]]].
    - exact (@compareDescriptors_length float Float64 _ _ Hlen).
    - rewrite Hn, (@compareDescriptors_sym float Float64 float_mul_comm). apply compareDescriptors_zeros_r.
    - rewrite Hn. apply compareDescriptors_zeros_r. }
  rewrite Hz. reflexivity.
Qed.

(** A three-number descriptor stored for a user whose camera delivers 128. *)
Lemma X3_witness :
  List.length (descriptor (F64 [1; 0; 0]%float)) <> List.length (descriptor (F64 (basis 127))) /\
  result (scoring Kiosk.env "04A1B2C3" Kiosk.alice (Some (StoredEmbedding (F64 [1; 0; 0]%float)))
            (F64 (basis 127)) initial) = Ok (Rejected BelowThreshold).
Proof.
  assert (Hlen : List.length (descriptor (F64 [1; 0; 0]%float))
                 <> List.length (descriptor (F64 (basis 127)))).
  { cbn. discriminate. }
  split; [exact Hlen|].
  exact (proj1 (X3_degenerate_descriptors_are_rejected Kiosk.env "04A1B2C3" Kiosk.alice
                  (F64 [1; 0; 0]%float) (F64 (basis 127)) initial (or_introl Hlen))).
Defined.

(** X4.  In binary64 a score that is NaN fails the threshold test: the
    scoring step rejects with BelowThreshold and writes no audit row. *)
Theorem X4_nan_score_is_rejected (env : Env float)
    (rfidTag : string) (user : UserRow float) (stored current : FaceEmbedding float) (s : State) :
  PrimFloat.is_nan (compareFaces stored current) = true ->
  result (scoring env rfidTag user (Some (StoredEmbedding stored)) current s)
    = Ok (Rejected BelowThreshold) /\
  emitted (scoring env rfidTag user (Some (StoredEmbedding stored)) current s) = reject_block 3000 /\
  verification_events (after (scoring env rfidTag user (Some (StoredEmbedding stored)) current s))
    = verification_events s.
Proof.
  intros Hnan. apply scoring_rejects.
  cbn [n_geb Float64]. rewrite leb_spec, (float_is_nan _ Hnan).
  unfold SpecFloat.SFleb. rewrite SFcompare_nan_r. reflexivity.
Qed.

(** The square of 2^665 overflows: a descriptor that holds it scores NaN
    against itself and is rejected, although the two descriptors are equal. *)
Lemma X4_witness :
  PrimFloat.is_nan (compareFaces (F64 [0x1p665]%float) (F64 [0x1p665]%float)) = true /\
  result (scoring Kiosk.env "04A1B2C3" Kiosk.alice (Some (StoredEmbedding (F64 [0x1p665]%float)))
            (F64 [0x1p665]%float) initial) = Ok (Rejected BelowThreshold).
Proof.
  split; [reflexivity|].
  exact (proj1 (X4_nan_score_is_rejected Kiosk.env "04A1B2C3" Kiosk.alice
                  (F64 [0x1p665]%float) (F64 [0x1p665]%float) initial eq_refl)).
Defined.

(** ** Loading the models *)

Ltac load_cases loadFromUri :=
  unfold loadModels;
  destruct (loadFromUri TinyFaceDetector) eqn:?E1;
  destruct (loadFromUri FaceLandmark68Net) eqn:?E2;
  destruct (loadFromUri FaceRecognitionNet) eqn:?E3;
  cbn [fst snd modelsReady modelsFailed mountedHook
       hook_isLoading hook_error hook_modelsLoaded].

Lemma loadModels_ready (loadFromUri : Net -> NetLoad) :
  hook_modelsLoaded (snd (loadModels loadFromUri mountedHook)) = true <->
  forall n, loadFromUri n = NetLoaded.
Proof.
  load_cases loadFromUri; split; intros Hall; try discriminate;
    try (intros [| |]; assumption);
    try (rewrite Hall in E1; discriminate);
    try (rewrite Hall in E2; discriminate);
    try (rewrite Hall in E3; discriminate);
    reflexivity.
Qed.

Lemma loadModels_requested (loadFromUri : Net -> NetLoad) (n : Net) :
  In n (fst (loadModels loadFromUri mountedHook)) <->
  forall m, In m (loadedBefore n) -> loadFromUri m = NetLoaded.
Proof.
  load_cases loadFromUri; destruct n; cbn [loadedBefore In]; split; intros Hn;
    try (intros m Hm; repeat (destruct Hm as [<- | Hm]; [assumption|]); contradiction);
    try tauto;
    try (exfalso; repeat (destruct Hn as [Hn | Hn]; try discriminate); contradiction);
    try (exfalso; rewrite (Hn TinyFaceDetector) in E1 by tauto; discriminate);
    try (exfalso; rewrite (Hn FaceLandmark68Net) in E2 by tauto; discriminate).
Qed.

(** X5.  From the state of the first render, [loadModels] leaves the hook
    in one of three states: ready (not loading, no error, models loaded),
    failed (not loading, the error message set, models not loaded) or
    still loading; it is ready exactly when all three networks load, it
    is no longer loading as soon as no load is left pending, and a network
    is requested exactly when every network before it has loaded. *)
Theorem X5_loadModels_outcome (loadFromUri : Net -> NetLoad) :
  (snd (loadModels loadFromUri mountedHook) =
     {| hook_isLoading := false; hook_error := None; hook_modelsLoaded := true |} \/
   snd (loadModels loadFromUri mountedHook) =
     {| hook_isLoading := false; hook_error := Some loadError; hook_modelsLoaded := false |} \/
   snd (loadModels loadFromUri mountedHook) = mountedHook) /\
  (hook_modelsLoaded (snd (loadModels loadFromUri mountedHook)) = true <->
   forall n, loadFromUri n = NetLoaded) /\
  ((forall n, loadFromUri n <> NetPending) ->
   hook_isLoading (snd (loadModels loadFromUri mountedHook)) = false) /\
  (forall n, In n (fst (loadModels loadFromUri mountedHook)) <->
             forall m, In m (loadedBefore n) -> loadFromUri m = NetLoaded).
Proof.
  split; [|split; [apply loadModels_ready|split; [|apply loadModels_requested]]].
  - load_cases loadFromUri; tauto.
  - intros Hp. load_cases loadFromUri; try reflexivity; exfalso.
    all: first [ exact (Hp _ E1) | exact (Hp _ E2) | exact (Hp _ E3) ].
Qed.

(** One network fails: the third is never requested and the hook fails. *)
Lemma X5_witness :
  fst (loadModels (fun n => match n with FaceLandmark68Net => NetFails | _ => NetLoaded end)
         mountedHook) = [TinyFaceDetector; FaceLandmark68Net] /\
  hook_isLoading
    (snd (loadModels (fun n => match n with FaceLandmark68Net => NetFails | _ => NetLoaded end)
            mountedHook)) = false.
Proof.
  split; [reflexivity|].
  apply (proj1 (proj2 (proj2 (X5_loadModels_outcome
           (fun n => match n with FaceLandmark68Net => NetFails | _ => NetLoaded end))))).
  intros [| |]; discriminate.
Defined.

(** X6.  When a network has failed to load or is still pending, every
    call of [detectFaces] and of [extractFaceEmbedding] made with the
    resulting hook state returns null, without invoking the detection
    capability, whatever the video element shows. *)
Theorem X6_unloaded_models_never_detect {num : Type} `{JsNumber num}
    (loadFromUri : Net -> NetLoad) (env : Env num) (videoElement : option Video) (s : State) :
  hook env = hookOf (snd (loadModels loadFromUri mountedHook)) ->
  (exists n, loadFromUri n <> NetLoaded) ->
  detectFaces env videoElement s = {| result := Ok None; after := s; emitted := [] |} /\
  extractFaceEmbedding env videoElement s = {| result := Ok None; after := s; emitted := [] |}.
Proof.
  intros Hh [n Hn].
  assert (Hm : modelsLoaded (hook env) = false).
  { rewrite Hh. cbn [hookOf modelsLoaded].
    destruct (hook_modelsLoaded (snd (loadModels loadFromUri mountedHook))) eqn:E; [|reflexivity].
    elim Hn. apply (proj1 (loadModels_ready loadFromUri) E). }
  assert (Hr : reaches env videoElement = false) by (unfold reaches; rewrite Hm; reflexivity).
  split; [apply detectFaces_skips | apply extractFaceEmbedding_skips]; assumption.
Qed.

Lemma X6_witness :
  hook Cases.env_failed =
    hookOf (snd (loadModels (fun n => match n with
                                      | FaceRecognitionNet => NetFails
                                      | _ => NetLoaded
                                      end) mountedHook)) /\
  extractFaceEmbedding Cases.env_failed (Some Kiosk.camera) initial =
    {| result := Ok None; after := initial; emitted := [] |}.
Proof.
  split; [reflexivity|].
  refine (proj2 (X6_unloaded_models_never_detect
                   (fun n => match n with FaceRecognitionNet => NetFails | _ => NetLoaded end)
                   Cases.env_failed (Some Kiosk.camera) initial eq_refl _)).
  exists FaceRecognitionNet. discriminate.
Defined.

(** ** Counting detections *)

Lemma detections_app (l1 l2 : list Event) :
  detections (l1 ++ l2) = detections l1 + detections l2.
Proof. unfold detections. rewrite filter_app, length_app. reflexivity. Qed.

Lemma metered_weaken {A} (c c' : nat) (m : M A) :
  c <= c' -> metered c m -> metered c' m.
Proof. intros Hc Hm s. destruct (Hm s) as [Ha Hb]. split; [assumption | lia]. Qed.

Lemma metered_ret {A} (a : A) : metered 0 (ret a).
Proof. intros s; cbn. split; [lia | constructor]. Qed.

Lemma metered_throw {A} : metered 0 (@throw A).
Proof. intros s; cbn. split; [lia | constructor]. Qed.

Lemma metered_emit (e : Event) : is_Detect e = false -> metered 0 (emit e).
Proof. intros He s; unfold detections; cbn. rewrite He. cbn. split; lia. Qed.

Lemma metered_advance (ms : Z) : metered 0 (advance ms).
Proof. intros s; cbn. split; [lia | constructor]. Qed.

Lemma metered_now : metered 0 now.
Proof. intros s; cbn. split; [lia | constructor]. Qed.

Lemma metered_insert (accepted : bool) (row : AuditEvent) :
  metered 0 (insertVerificationEvent accepted row).
Proof. intros s; cbn. split; lia. Qed.

Lemma metered_bind {A B} (c1 c2 : nat) (m : M A) (f : A -> M B) :
  metered c1 m -> (forall a, metered c2 (f a)) -> metered (c1 + c2) (bind m f).
Proof.
  intros Hm Hf s. destruct (Hm s) as [Ha Hb]. unfold bind.
  destruct (result (m s)) as [a| |]; cbn [after emitted]; try (split; lia).
  destruct (Hf a (after (m s))) as [Ha' Hb'].
  rewrite detections_app. split; lia.
Qed.

Lemma metered_try_catch {A} (c1 c2 : nat) (m handler : M A) :
  metered c1 m -> metered c2 handler -> metered (c1 + c2) (try_catch m handler).
Proof.
  intros Hm Hh s. destruct (Hm s) as [Ha Hb]. unfold try_catch.
  destruct (result (m s)) as [a| |]; cbn [after emitted]; try (split; lia).
  destruct (Hh (after (m s))) as [Ha' Hb'].
  rewrite detections_app. split; lia.
Qed.

Lemma metered_sleep (ms : Z) : metered 0 (sleep ms).
Proof.
  unfold sleep. apply (metered_bind (c1 := 0) (c2 := 0)).
  - apply metered_emit. reflexivity.
  - intros _. apply metered_advance.
Qed.

Lemma metered_setTimeout {A} (c : nat) (ms : Z) (callback : M A) :
  metered c callback -> metered c (setTimeout ms callback).
Proof.
  intros Hc. unfold setTimeout. apply (metered_bind (c1 := 0) (c2 := c)).
  - apply metered_emit. reflexivity.
  - intros _. apply (metered_bind (c1 := 0) (c2 := c)); [apply metered_advance|].
    intros _. assumption.
Qed.

Lemma metered_reject (ms : Z) (reason : Reason) : metered 0 (reject ms reason).
Proof. intros s; cbn. split; lia. Qed.

Section Metering.

Context {num : Type} `{JsNumber num}.
Variable env : Env num.

Lemma metered_detectFaces (videoElement : option Video) :
  metered 1 (detectFaces env videoElement).
Proof.
  intros s. destruct (reaches env videoElement) eqn:Hr.
  - rewrite (detectFaces_calls _ _ _ Hr); cbn. split; lia.
  - rewrite (detectFaces_skips _ _ _ Hr); cbn. split; lia.
Qed.

Lemma metered_extractFaceEmbedding (videoElement : option Video) :
  metered 1 (extractFaceEmbedding env videoElement).
Proof.
  intros s. destruct (reaches env videoElement) eqn:Hr.
  - rewrite (extractFaceEmbedding_calls _ _ _ Hr); cbn. split; lia.
  - rewrite (extractFaceEmbedding_skips _ _ _ Hr); cbn. split; lia.
Qed.

Lemma metered_attempts (remaining : nat) :
  forall attempt, metered (2 * remaining) (attempts env remaining attempt).
Proof.
  induction remaining as [|remaining IH]; intros attempt; cbn [attempts].
  - apply metered_ret.
  - replace (2 * S remaining) with (0 + (1 + (0 + (1 + (0 + 2 * remaining))))) by lia.
    apply metered_bind; [apply metered_emit; reflexivity|]. intros _.
    apply metered_bind; [apply metered_detectFaces|]. intros faces.
    apply metered_bind; [apply metered_emit; reflexivity|]. intros _.
    apply metered_bind; [apply metered_extractFaceEmbedding|]. intros [e|].
    + apply metered_weaken with (c := 0); [lia | apply metered_ret].
    + apply metered_bind; [|intros _; apply IH].
      destruct (attempt <? maxRetries)%nat; [apply metered_sleep | apply metered_ret].
Qed.

Lemma metered_extractEmbeddingFromImage (imageUrl : string) :
  metered 1 (extractEmbeddingFromImage env imageUrl).
Proof.
  unfold extractEmbeddingFromImage.
  apply (metered_bind (c1 := 0) (c2 := 1)); [apply metered_emit; reflexivity|]. intros _.
  destruct (loadImage env imageUrl);
    try (apply metered_weaken with (c := 0); [lia | apply metered_throw]).
  apply (metered_bind (c1 := 0) (c2 := 1)); [apply metered_sleep|]. intros _.
  apply (metered_bind (c1 := 1) (c2 := 0)); [apply metered_extractFaceEmbedding|].
  intros [e|]; [apply metered_ret | apply metered_throw].
Qed.

Lemma metered_resolveStored (user : UserRow num) :
  metered 1 (resolveStored env user).
Proof.
  unfold resolveStored.
  destruct (face_embedding user);
    [apply metered_weaken with (c := 0); [lia | apply metered_ret]|].
  destruct (face_image_url user) as [url|];
    [|apply metered_weaken with (c := 0); [lia | apply metered_ret]].
  destruct (truthy (Some url));
    [|apply metered_weaken with (c := 0); [lia | apply metered_ret]].
  destruct (negb (isPublicUrl (cleanImageUrl url))).
  - apply metered_weaken with (c := 0 + 0); [lia|].
    apply metered_bind; [apply metered_reject|]. intros r. apply metered_ret.
  - apply (metered_try_catch (c1 := 1) (c2 := 0)).
    + apply (metered_bind (c1 := 1) (c2 := 0)); [|intros e; apply metered_ret].
      apply metered_extractEmbeddingFromImage.
    + apply (metered_bind (c1 := 0) (c2 := 0)); [apply metered_reject|].
      intros r. apply metered_ret.
Qed.

Lemma metered_scoring (rfidTag : string) (user : UserRow num)
    (storedEmbedding : option (StoredFace num)) (currentEmbedding : FaceEmbedding num) :
  metered 0 (scoring env rfidTag user storedEmbedding currentEmbedding).
Proof.
  unfold scoring. apply (metered_bind (c1 := 0) (c2 := 0)).
  - destruct (compareStored_cases storedEmbedding currentEmbedding) as [-> | [x ->]];
      [apply metered_throw | apply metered_ret].
  - intros similarity. destruct (n_geb similarity n_threshold).
    + apply (metered_bind (c1 := 0) (c2 := 0)); [apply metered_emit; reflexivity|]. intros _.
      apply (metered_bind (c1 := 0) (c2 := 0)); [apply metered_insert|]. intros _.
      apply (metered_bind (c1 := 0) (c2 := 0)); [|intros _; apply metered_ret].
      apply metered_setTimeout.
      apply (metered_bind (c1 := 0) (c2 := 0)); [apply metered_emit; reflexivity|]. intros _.
      apply metered_emit; reflexivity.
    + apply metered_reject.
Qed.

Lemma metered_verifyFace (rfidTag : string) :
  metered 21 (verifyFace env rfidTag).
Proof.
  unfold verifyFace. destruct (videoRef env) as [v|].
  2:{ apply metered_weaken with (c := 0 + 0); [lia|].
      apply metered_bind; [apply metered_emit; reflexivity|]. intros _. apply metered_ret. }
  apply (metered_try_catch (c1 := 21) (c2 := 0)); [|apply metered_reject].
  apply (metered_bind (c1 := 0) (c2 := 21)).
  { unfold selectUser. apply (metered_bind (c1 := 0) (c2 := 0));
      [apply metered_emit; reflexivity|]. intros _. apply metered_ret. }
  intros [|[user|]];
    try (apply metered_weaken with (c := 0); [lia | apply metered_reject]).
  destruct (negb (hasFaceData user));
    [apply metered_weaken with (c := 0); [lia | apply metered_reject]|].
  apply (metered_bind (c1 := 0) (c2 := 21)).
  { destruct (isLoading (hook env)); [apply metered_sleep | apply metered_ret]. }
  intros _. destruct (isLoading (hook env));
    [apply metered_weaken with (c := 0); [lia | apply metered_reject]|].
  apply (metered_bind (c1 := 0) (c2 := 21)); [apply metered_sleep|]. intros _.
  apply (metered_bind (c1 := 20) (c2 := 1)); [apply (metered_attempts maxRetries)|].
  intros [current|]; [|apply metered_weaken with (c := 0); [lia | apply metered_reject]].
  apply (metered_bind (c1 := 1) (c2 := 0)); [apply metered_resolveStored|].
  intros [exit|storedEmbedding]; [apply metered_ret | apply metered_scoring].
Qed.

End Metering.

Lemma metered_hang {A} : metered 0 (@hang A).
Proof. intros s; cbn. split; [lia | constructor]. Qed.

Section MeteringTheLoop.

Context {num : Type} `{JsNumber num}.
Variable env : Env num.

Lemma iteration_detections (attempt : nat) (s : State) :
  detections (emitted (iteration env attempt s)) =
    if reaches env (videoRef env) then 2 else 0.
Proof.
  unfold iteration, bind, emit; cbn.
  destruct (reaches env (videoRef env)) eqn:Hr.
  - rewrite (detectFaces_calls _ _ _ Hr); cbn.
    rewrite (extractFaceEmbedding_calls _ _ _ Hr); cbn. reflexivity.
  - rewrite (detectFaces_skips _ _ _ Hr); cbn.
    rewrite (extractFaceEmbedding_skips _ _ _ Hr); cbn. reflexivity.
Qed.

Lemma attempts_detections (remaining : nat) :
  forall (attempt : nat) (s : State),
    detections (emitted (attempts env remaining attempt s)) =
      (if reaches env (videoRef env) then 2 else 0) *
      List.length (filter is_Attempt (emitted (attempts env remaining attempt s))).
Proof.
  induction remaining as [|remaining IH]; intros attempt s.
  - cbn. lia.
  - rewrite attempts_unfold.
    pose proof (iteration_result env attempt s) as E.
    pose proof (iteration_one_attempt env attempt s) as Hc.
    pose proof (iteration_detections attempt s) as Hd.
    rewrite (bind_Ok _ _ _ E). cbn [emitted].
    rewrite detections_app, filter_app, length_app, Hc, Hd.
    destruct (option_map _ (liveExtraction env (S (calls s)))) as [e|].
    + cbn. lia.
    + destruct (attempt <? maxRetries)%nat.
      * assert (Es : result (sleep 1500 (after (iteration env attempt s))) = Ok tt)
          by reflexivity.
        rewrite (bind_Ok _ _ _ Es). cbn [emitted].
        rewrite detections_app, filter_app, length_app.
        rewrite (IH (S attempt) (after (sleep 1500 (after (iteration env attempt s))))).
        cbn [sleep]. cbn. lia.
      * assert (Es : result (ret tt (after (iteration env attempt s))) = Ok tt)
          by reflexivity.
        rewrite (bind_Ok _ _ _ Es). cbn [emitted].
        rewrite detections_app, filter_app, length_app.
        rewrite (IH (S attempt) (after (ret tt (after (iteration env attempt s))))).
        cbn. lia.
Qed.

Lemma attempts_head (remaining attempt : nat) (s : State) :
  reaches env (videoRef env) = true ->
  exists rest,
    emitted (attempts env (S remaining) attempt s) =
      Attempt attempt
      :: DetectAllFaces (calls s)
      :: SetFaceDetected match detections_of (detectAllFaces env (calls s)) with
                         | Some (_ :: _) => true
                         | _ => false
                         end
      :: DetectAllFaces (S (calls s))
      :: rest.
Proof.
  intros Hr. cbn [attempts]. rewrite bind_emit. cbn [emitted].
  unfold bind at 1. rewrite (detectFaces_calls _ _ _ Hr). cbn [result after emitted app].
  rewrite bind_emit. cbn [emitted].
  unfold bind at 1. rewrite (extractFaceEmbedding_calls _ _ _ Hr).
  cbn [result after emitted app bump calls].
  eexists. reflexivity.
Qed.

Lemma metered_ticks (n : nat) : metered 0 (ticks n).
Proof.
  induction n as [|n IH]; cbn [ticks]; [apply metered_ret|].
  apply (metered_bind (c1 := 0) (c2 := 0)); [apply metered_sleep|]. intros _. exact IH.
Qed.

Lemma metered_startCamera : metered 0 (startCamera env).
Proof.
  unfold startCamera. apply (metered_try_catch (c1 := 0) (c2 := 0)).
  - apply (metered_bind (c1 := 0) (c2 := 0)); [apply metered_emit; reflexivity|]. intros _.
    destruct (getUserMedia env); [|apply metered_throw|apply metered_hang].
    destruct (videoRef env) as [v|]; [|apply metered_ret].
    destruct (play env); [|apply metered_throw|apply metered_hang].
    destruct (poll env) as [n|]; [apply metered_ticks | apply metered_hang].
  - apply metered_emit. reflexivity.
Qed.

Lemma metered_startVerification (rfidTag : string) :
  metered 21 (startVerification env rfidTag).
Proof.
  unfold startVerification. apply (metered_bind (c1 := 0) (c2 := 21)).
  - apply metered_startCamera.
  - intros _. apply metered_setTimeout. apply metered_verifyFace.
Qed.

End MeteringTheLoop.

(** X7.  [extractFaceEmbedding] never throws and never writes to the audit
    table; it invokes the detection capability at most once; an embedding
    it returns holds the descriptor of the first face of the detection it
    made, stamped with the current time; and it returns null exactly when
    the call does not reach the capability, the capability throws, or the
    capability finds no face. *)
Theorem X7_extractor_first_face_or_null {num : Type} `{JsNumber num}
    (env : Env num) (videoElement : option Video) (s : State) :
  (exists x, result (extractFaceEmbedding env videoElement s) = Ok x) /\
  verification_events (after (extractFaceEmbedding env videoElement s)) = verification_events s /\
  detections (emitted (extractFaceEmbedding env videoElement s)) <= 1 /\
  (forall e, result (extractFaceEmbedding env videoElement s) = Ok (Some e) ->
     reaches env videoElement = true /\
     exists d ds, detectAllFaces env (calls s) = Detected (d :: ds) /\
                  e = {| descriptor := det_descriptor d; timestamp := clock s |}) /\
  (result (extractFaceEmbedding env videoElement s) = Ok None <->
   reaches env videoElement = false \/
   detectAllFaces env (calls s) = DetectThrows \/
   detectAllFaces env (calls s) = Detected []).
Proof.
  split; [apply returns_extractFaceEmbedding|].
  split; [apply (silent_extractFaceEmbedding env videoElement s)|].
  split; [apply (metered_extractFaceEmbedding env videoElement s)|].
  destruct (reaches env videoElement) eqn:Hr.
  - rewrite (extractFaceEmbedding_calls _ _ _ Hr). cbn [result].
    destruct (detectAllFaces env (calls s)) as [|[|d ds]]; cbn [first_face option_map]; split.
    + intros e He. discriminate.
    + split; [tauto | reflexivity].
    + intros e He. discriminate.
    + split; [tauto | reflexivity].
    + intros e He. injection He as <-. split; [reflexivity|]. exists d, ds. split; reflexivity.
    + split; [discriminate|]. intros [Hf | [Hf | Hf]]; discriminate.
  - rewrite (extractFaceEmbedding_skips _ _ _ Hr). cbn [result]. split.
    + intros e He. discriminate.
    + split; [tauto | reflexivity].
Qed.

(** When the capability throws, on the kiosk. *)
Lemma X7_witness :
  result (extractFaceEmbedding Kiosk.env_empty (Some Kiosk.camera) initial) = Ok None.
Proof.
  apply (proj2 (proj2 (proj2 (proj2
           (X7_extractor_first_face_or_null Kiosk.env_empty (Some Kiosk.camera) initial))))).
  right. right. reflexivity.
Defined.

(** X8.  Each attempt of the retry loop invokes the detection capability
    twice when the video and the models are ready, and never otherwise:
    once for the feedback flag and once more for the embedding, so the two
    can disagree within an attempt. *)
Theorem X8_two_detections_per_attempt {num : Type} `{JsNumber num}
    (env : Env num) (remaining attempt : nat) (s : State) :
  detections (emitted (attempts env remaining attempt s)) =
    (if reaches env (videoRef env) then 2 else 0) *
    List.length (filter is_Attempt (emitted (attempts env remaining attempt s))) /\
  calls (after (attempts env remaining attempt s)) =
    calls s + detections (emitted (attempts env remaining attempt s)) /\
  (reaches env (videoRef env) = true ->
   exists rest,
     emitted (attempts env (S remaining) attempt s) =
       Attempt attempt
       :: DetectAllFaces (calls s)
       :: SetFaceDetected match detections_of (detectAllFaces env (calls s)) with
                          | Some (_ :: _) => true
                          | _ => false
                          end
       :: DetectAllFaces (S (calls s))
       :: rest).
Proof.
  split; [apply attempts_detections|].
  split; [apply (metered_attempts env remaining attempt s)|].
  apply attempts_head.
Qed.

(** X9.  A verification invokes the detection capability at most 21 times
    (two per attempt and one for the stored image), the detection counter
    advancing by exactly the number of detections in the trace. *)
Theorem X9_at_most_21_detections {num : Type} `{JsNumber num}
    (env : Env num) (rfidTag : string) (s : State) :
  (calls (after (verifyFace env rfidTag s)) =
     calls s + detections (emitted (verifyFace env rfidTag s)) /\
   detections (emitted (verifyFace env rfidTag s)) <= 21) /\
  (calls (after (startVerification env rfidTag s)) =
     calls s + detections (emitted (startVerification env rfidTag s)) /\
   detections (emitted (startVerification env rfidTag s)) <= 21).
Proof.
  split; [apply metered_verifyFace | apply metered_startVerification].
Qed.

(** The bound is reached when the tenth attempt is the first to succeed
    and the reference is an image. *)
Lemma X9_witness :
  detections (emitted (verifyFace Cases.env_slow "04D4E5F6" initial)) <= 21 /\
  detections (emitted (verifyFace Cases.env_slow "04D4E5F6" initial)) = 21.
Proof.
  split; [|reflexivity].
  exact (proj2 (proj1 (X9_at_most_21_detections Cases.env_slow "04D4E5F6" initial))).
Defined.

(** ** The exits before the retry loop *)

Lemma yields_ret {A} (P : A -> Prop) (a : A) : P a -> yields P (ret a).
Proof. intros Ha s b E. cbn in E. injection E as <-. assumption. Qed.

Lemma yields_throw {A} (P : A -> Prop) : yields P (@throw A).
Proof. intros s b E. discriminate E. Qed.

Lemma yields_bind {A B} (Q : A -> Prop) (P : B -> Prop) (m : M A) (f : A -> M B) :
  yields Q m -> (forall a, Q a -> yields P (f a)) -> yields P (bind m f).
Proof.
  intros Hm Hf s b. unfold bind.
  destruct (result (m s)) as [a| |] eqn:E; cbn [result]; try discriminate.
  apply (Hf a (Hm s a E)).
Qed.

Lemma yields_any {A} (m : M A) : yields (fun _ => True) m.
Proof. intros s a _. exact I. Qed.

Lemma yields_try_catch {A} (P : A -> Prop) (m handler : M A) :
  yields P m -> yields P handler -> yields P (try_catch m handler).
Proof.
  intros Hm Hh s a. unfold try_catch.
  destruct (result (m s)) as [b| |] eqn:E; cbn [result].
  - intros Ha. apply (Hm s). congruence.
  - apply Hh.
  - intros Ha. congruence.
Qed.

Lemma yields_reject {num : Type} `{JsNumber num} (P : Outcome -> Prop) (ms : Z) (reason : Reason) :
  P (Rejected reason) -> yields P (reject ms reason).
Proof. intros Hp s o E. cbn in E. injection E as <-. assumption. Qed.

Section EarlyExits.

Context {num : Type} `{JsNumber num}.
Variable env : Env num.

Lemma selectUser_lookup (rfidTag : string) (s : State) :
  result (selectUser env rfidTag s) = Ok (lookup env rfidTag).
Proof. reflexivity. Qed.

Lemma lookup_user (rfidTag : string) (user : UserRow num) :
  lookup env rfidTag = QueryData (Some user) <->
  select_error env = false /\
  filter (fun u => String.eqb (id u) rfidTag) (users env) = [user].
Proof.
  unfold lookup. destruct (select_error env).
  - split; [discriminate | intros [Hf _]; discriminate].
  - destruct (filter _ (users env)) as [|u [|u' rows]]; cbn; split;
      try discriminate; try (intros [_ Hf]; discriminate).
    + intros E. injection E as ->. split; reflexivity.
    + intros [_ E]. injection E as ->. reflexivity.
Qed.

Lemma lookup_missing (rfidTag : string) :
  (forall user, lookup env rfidTag <> QueryData (Some user)) <->
  select_error env = true \/
  List.length (filter (fun u => String.eqb (id u) rfidTag) (users env)) <> 1.
Proof.
  unfold lookup. destruct (select_error env).
  - split; [intros _; left; reflexivity | intros _ user; discriminate].
  - destruct (filter _ (users env)) as [|u [|u' rows]]; cbn; split.
    + intros _. right. discriminate.
    + intros _ user. discriminate.
    + intros Hn. exfalso. apply (Hn u). reflexivity.
    + intros [Hf | Hf]; [discriminate | exfalso; apply Hf; reflexivity].
    + intros _. right. discriminate.
    + intros _ user. discriminate.
Qed.

(** Line 120: a row has no face data when its descriptor is null and its
    URL is null or the empty string. *)
Lemma hasFaceData_false (user : UserRow num) :
  hasFaceData user = false <->
  face_embedding user = None /\
  (face_image_url user = None \/ face_image_url user = Some EmptyString).
Proof.
  unfold hasFaceData, truthy. destruct (face_embedding user) as [e|].
  - split; [discriminate | intros [Hf _]; discriminate].
  - destruct (face_image_url user) as [[|c u]|]; cbn; split;
      try discriminate; try tauto.
    intros [_ [Hf | Hf]]; discriminate.
Qed.

Lemma yields_scoring (rfidTag : string) (user : UserRow num)
    (storedEmbedding : option (StoredFace num)) (currentEmbedding : FaceEmbedding num) :
  yields late_outcome (scoring env rfidTag user storedEmbedding currentEmbedding).
Proof.
  intros s o. unfold scoring.
  destruct (compareStored_cases storedEmbedding currentEmbedding) as [-> | [similarity ->]];
    [cbn; discriminate|].
  rewrite bind_ret.
  destruct (n_geb similarity n_threshold); cbn;
    intros E; injection E as <-; exact I.
Qed.

Lemma yields_resolveStored (user : UserRow num) :
  yields (fun x => match x with inl o => late_outcome o | inr _ => True end)
    (resolveStored env user).
Proof.
  unfold resolveStored.
  destruct (face_embedding user); [apply yields_ret; exact I|].
  destruct (face_image_url user) as [url|]; [|apply yields_ret; exact I].
  destruct (truthy (Some url)); [|apply yields_ret; exact I].
  destruct (negb (isPublicUrl (cleanImageUrl url))).
  - apply yields_bind with (Q := late_outcome); [apply yields_reject; exact I|].
    intros o Ho. apply yields_ret. assumption.
  - apply yields_try_catch.
    + apply yields_bind with (Q := fun _ => True); [apply yields_any|].
      intros e _. apply yields_ret. exact I.
    + apply yields_bind with (Q := late_outcome); [apply yields_reject; exact I|].
      intros o Ho. apply yields_ret. assumption.
Qed.

Lemma yields_afterReady (rfidTag : string) (user : UserRow num) :
  yields late_outcome (afterReady env rfidTag user).
Proof.
  unfold afterReady.
  apply yields_bind with (Q := fun _ => True); [apply yields_any|]. intros _ _.
  apply yields_bind with (Q := fun _ => True); [apply yields_any|]. intros [current|] _.
  - apply yields_bind with (Q := fun x => match x with inl o => late_outcome o | inr _ => True end);
      [apply yields_resolveStored|].
    intros [exit|storedEmbedding] Hx; [apply yields_ret; assumption | apply yields_scoring].
  - apply yields_reject. exact I.
Qed.

Lemma yields_ready (rfidTag : string) (user : UserRow num) :
  yields late_outcome
    (try_catch (emit (SelectUser rfidTag) ;; afterReady env rfidTag user)%flow
       (reject 2000 UnexpectedError)).
Proof.
  apply yields_try_catch; [|apply yields_reject; exact I].
  apply yields_bind with (Q := fun _ => True); [apply yields_any|]. intros _ _.
  apply yields_afterReady.
Qed.

(** The exits of lines 108-149, and what follows them. *)
Lemma verifyFace_early (rfidTag : string) (v : Video) (s : State) :
  videoRef env = Some v ->
  match lookup env rfidTag with
  | QueryData (Some user) =>
      if hasFaceData user then
        if isLoading (hook env) then
          verifyFace env rfidTag s =
            {| result := Ok (Rejected ModelsNotReady);
               after := delayed 2000 (delayed 2000 s);
               emitted := SelectUser rfidTag :: Sleep 2000 :: reject_block 2000 |}
        else
          verifyFace env rfidTag s =
            try_catch (emit (SelectUser rfidTag) ;; afterReady env rfidTag user)%flow
              (reject 2000 UnexpectedError) s
      else
        verifyFace env rfidTag s =
          {| result := Ok (Rejected NoReferenceData);
             after := delayed 2000 s;
             emitted := SelectUser rfidTag :: reject_block 2000 |}
  | _ =>
      verifyFace env rfidTag s =
        {| result := Ok (Rejected UserNotFound);
           after := delayed 2000 s;
           emitted := SelectUser rfidTag :: reject_block 2000 |}
  end.
Proof.
  intros Hv. pose proof (selectUser_lookup rfidTag s) as Hq.
  destruct (lookup env rfidTag) as [|[user|]] eqn:E.
  - unfold verifyFace. rewrite Hv. unfold try_catch.
    rewrite (bind_Ok _ _ _ Hq). reflexivity.
  - destruct (hasFaceData user) eqn:Hd.
    + destruct (isLoading (hook env)) eqn:Hl.
      * unfold verifyFace. rewrite Hv. unfold try_catch.
        rewrite (bind_Ok _ _ _ Hq). rewrite Hd, Hl. reflexivity.
      * apply (verifyFace_ready Hv Hq Hd Hl).
    + unfold verifyFace. rewrite Hv. unfold try_catch.
      rewrite (bind_Ok _ _ _ Hq). rewrite Hd. reflexivity.
  - unfold verifyFace. rewrite Hv. unfold try_catch.
    rewrite (bind_Ok _ _ _ Hq). reflexivity.
Qed.

Lemma startCamera_settles (s : State) :
  result (startCamera env s) = Ok tt \/
  (result (startCamera env s) = Hang /\ emitted (startCamera env s) = [GetUserMedia]).
Proof.
  destruct (startCamera_cases env s) as [_ [(n & Er & _) | [[Er _] | [Er Ee]]]];
    [left; assumption | left; assumption | right; split; assumption].
Qed.

Lemma verifyFace_returns (rfidTag : string) (s : State) :
  exists o, result (verifyFace env rfidTag s) = Ok o.
Proof.
  destruct (verifyFace_ends env rfidTag s) as [[_ ->] | (_ & _ & Ho)].
  - eexists. reflexivity.
  - exact Ho.
Qed.

End EarlyExits.

(** X10.  The query, the detections and the image load being taken to
    settle, [verifyFace] always returns: whatever throws inside it is
    caught.  [startVerification] never throws either, and it is left
    pending exactly when [getUserMedia] never settles or, the video element
    being there, [play] never settles or no tick of the poll of lines 40-48
    finds the element with a frame width; [verifyFace] is then never
    scheduled and no continuation is called. *)
Theorem X10_verification_settles {num : Type} `{JsNumber num}
    (env : Env num) (rfidTag : string) (s : State) :
  (exists o, result (verifyFace env rfidTag s) = Ok o) /\
  result (startVerification env rfidTag s) <> Throw /\
  (result (startVerification env rfidTag s) = Hang <->
   getUserMedia env = Pends \/
   (getUserMedia env = Resolves /\ videoRef env <> None /\
    (play env = Pends \/ (play env = Resolves /\ poll env = None)))) /\
  (result (startVerification env rfidTag s) = Hang ->
   emitted (startVerification env rfidTag s) = [GetUserMedia]).
Proof.
  split; [apply verifyFace_returns|].
  pose proof (startCamera_pending env s) as Hp.
  destruct (startCamera_settles env s) as [Er | [Er Ee]].
  - rewrite (startVerification_step env rfidTag s Er). cbn [result emitted].
    destruct (verifyFace_returns env rfidTag
                (delayed 3500 (after (startCamera env s)))) as [o Ho].
    rewrite Ho. split; [discriminate|]. split; [|discriminate].
    split; [discriminate|]. intros Hc. apply Hp in Hc. congruence.
  - rewrite (startVerification_hangs env rfidTag s Er). cbn [result emitted].
    split; [discriminate|]. split; [|intros _; exact Ee].
    split; [intros _; apply Hp; exact Er | reflexivity].
Qed.

(** A camera that never reports a width. *)
Lemma X10_witness :
  result (startVerification Cases.env_blank "04A1B2C3" initial) = Hang.
Proof.
  apply (proj2 (proj1 (proj2 (proj2
           (X10_verification_settles Cases.env_blank "04A1B2C3" initial))))).
  right. split; [reflexivity|]. split; [discriminate|]. right. split; reflexivity.
Defined.

(** X11.  The tag must match exactly one row of the table: [verifyFace]
    takes the exit "user not found" exactly when the query reports an
    error or the number of rows whose key is the tag is not one, so a tag
    registered twice is rejected like an unknown one.  That exit comes
    right after the query, holds the result for 2000 ms and calls
    [onFailed]. *)
Theorem X11_tag_must_match_one_row {num : Type} `{JsNumber num}
    (env : Env num) (rfidTag : string) (v : Video) (s : State) :
  videoRef env = Some v ->
  (result (verifyFace env rfidTag s) = Ok (Rejected UserNotFound) <->
   select_error env = true \/
   List.length (filter (fun u => String.eqb (id u) rfidTag) (users env)) <> 1) /\
  (result (verifyFace env rfidTag s) = Ok (Rejected UserNotFound) ->
   verifyFace env rfidTag s =
     {| result := Ok (Rejected UserNotFound);
        after := delayed 2000 s;
        emitted := SelectUser rfidTag :: reject_block 2000 |}).
Proof.
  intros Hv. pose proof (verifyFace_early env rfidTag s Hv) as He.
  pose proof (lookup_missing env rfidTag) as Hm.
  destruct (lookup env rfidTag) as [|[user|]] eqn:E.
  - split; [|intros _; exact He]. rewrite He. cbn [result].
    split; [intros _; apply Hm; intros user; discriminate | reflexivity].
  - assert (Hno : result (verifyFace env rfidTag s) <> Ok (Rejected UserNotFound)).
    { destruct (hasFaceData user); [destruct (isLoading (hook env))|];
        try (rewrite He; discriminate).
      intros Hr. rewrite He in Hr. apply (yields_ready env rfidTag user s) in Hr. exact Hr. }
    split; [|intros Hr; contradiction].
    split; [intros Hr; contradiction|].
    intros Hc. exfalso. apply (proj2 Hm Hc user). reflexivity.
  - split; [|intros _; exact He]. rewrite He. cbn [result].
    split; [intros _; apply Hm; intros user; discriminate | reflexivity].
Qed.

(** A tag that is registered twice. *)
Lemma X11_witness :
  result (verifyFace Cases.env_duplicate "04A1B2C3" initial) = Ok (Rejected UserNotFound).
Proof.
  apply (proj2 (proj1 (X11_tag_must_match_one_row Cases.env_duplicate "04A1B2C3" initial
                         (v := Kiosk.camera) eq_refl))).
  right. vm_compute. discriminate.
Defined.

(** X12.  [verifyFace] takes the exit "no reference data" exactly when the
    tag matches one row whose descriptor is null and whose image URL is
    null or the empty string; it then ends right after the query, with a
    hold of 2000 ms. *)
Theorem X12_no_reference_data {num : Type} `{JsNumber num}
    (env : Env num) (rfidTag : string) (v : Video) (s : State) :
  videoRef env = Some v ->
  (result (verifyFace env rfidTag s) = Ok (Rejected NoReferenceData) <->
   exists user,
     select_error env = false /\
     filter (fun u => String.eqb (id u) rfidTag) (users env) = [user] /\
     face_embedding user = None /\
     (face_image_url user = None \/ face_image_url user = Some EmptyString)) /\
  (result (verifyFace env rfidTag s) = Ok (Rejected NoReferenceData) ->
   verifyFace env rfidTag s =
     {| result := Ok (Rejected NoReferenceData);
        after := delayed 2000 s;
        emitted := SelectUser rfidTag :: reject_block 2000 |}).
Proof.
  intros Hv. pose proof (verifyFace_early env rfidTag s Hv) as He.
  assert (Hrows : forall user,
            select_error env = false /\
            filter (fun u => String.eqb (id u) rfidTag) (users env) = [user] ->
            lookup env rfidTag = QueryData (Some user))
    by (intros user; apply lookup_user).
  destruct (lookup env rfidTag) as [|[user|]] eqn:E.
  - rewrite He. cbn [result]. split; [|discriminate].
    split; [discriminate|]. intros (user & Hs & Hf & _).
    specialize (Hrows user (conj Hs Hf)). discriminate.
  - apply lookup_user in E. destruct E as [Hs Hf].
    destruct (hasFaceData user) eqn:Hd.
    + assert (Hno : result (verifyFace env rfidTag s) <> Ok (Rejected NoReferenceData)).
      { destruct (isLoading (hook env)); [rewrite He; discriminate|].
        intros Hr. rewrite He in Hr. apply (yields_ready env rfidTag user s) in Hr. exact Hr. }
      split; [|intros Hr; contradiction].
      split; [intros Hr; contradiction|].
      intros (user' & _ & Hf' & Hnone). rewrite Hf in Hf'. injection Hf' as <-.
      apply hasFaceData_false in Hnone. congruence.
    + split; [|intros _; exact He]. rewrite He. cbn [result].
      split; [|reflexivity]. intros _. exists user.
      apply hasFaceData_false in Hd. tauto.
  - rewrite He. cbn [result]. split; [|discriminate].
    split; [discriminate|]. intros (user & Hs & Hf & _).
    specialize (Hrows user (conj Hs Hf)). discriminate.
Qed.

(** A row whose URL is the empty string. *)
Lemma X12_witness :
  result (verifyFace Cases.env_more "040D0E0F" initial) = Ok (Rejected NoReferenceData).
Proof.
  apply (proj2 (proj1 (X12_no_reference_data Cases.env_more "040D0E0F" initial
                         (v := Kiosk.camera) eq_refl))).
  exists Cases.erin. split; [reflexivity|]. split; [reflexivity|].
  split; [reflexivity|]. right. reflexivity.
Defined.

Section Unready.

Context {num : Type} `{JsNumber num}.
Variable env : Env num.

Lemma attempts_idle (remaining : nat) :
  reaches env (videoRef env) = false ->
  forall (attempt : nat) (s : State),
    attempt + remaining = S maxRetries ->
    result (attempts env remaining attempt s) = Ok None /\
    emitted (attempts env remaining attempt s) = idle_loop remaining attempt /\
    verification_events (after (attempts env remaining attempt s)) = verification_events s /\
    calls (after (attempts env remaining attempt s)) = calls s /\
    clock (after (attempts env remaining attempt s)) =
      (clock s + 1500 * Z.of_nat (pred remaining))%Z.
Proof.
  intros Hr. induction remaining as [|remaining IH]; intros attempt s Hsum.
  - cbn. repeat split; lia.
  - rewrite attempts_unfold.
    pose proof (iteration_result env attempt s) as E.
    rewrite (liveExtraction_skips env _ Hr) in E. cbn [option_map] in E.
    rewrite (bind_Ok _ _ _ E).
    assert (Ha : after (iteration env attempt s) = s)
      by (rewrite iteration_after, Hr; reflexivity).
    assert (He : emitted (iteration env attempt s) = [Attempt attempt; SetFaceDetected false]).
    { unfold iteration. rewrite bind_emit. cbn [emitted]. unfold bind at 1.
      rewrite (detectFaces_skips env _ s Hr). cbn [result after emitted app].
      rewrite bind_emit. cbn [emitted].
      rewrite (extractFaceEmbedding_skips env _ s Hr). reflexivity. }
    rewrite Ha, He.
    destruct remaining as [|more].
    + assert (Hatt : (attempt <? maxRetries)%nat = false) by (apply Nat.ltb_ge; lia).
      rewrite Hatt. cbn. repeat split; lia.
    + assert (Hatt : (attempt <? maxRetries)%nat = true) by (apply Nat.ltb_lt; lia).
      rewrite Hatt.
      assert (Es : result (sleep 1500 s) = Ok tt) by reflexivity.
      rewrite (bind_Ok _ _ _ Es).
      destruct (IH (S attempt) (after (sleep 1500 s))) as (Hres & Hem & Hve & Hca & Hcl); [lia|].
      cbn [result after emitted]. rewrite Hres, Hem, Hve, Hca, Hcl.
      cbn [idle_loop app]. repeat split.
      cbn [sleep bind emit advance result after clock pred]. lia.
Qed.

End Unready.

(** X13.  When [verifyFace] reads [isLoading] as true, as a closure of the
    render in which the hook is mounted does, it never invokes the
    detection capability, never accepts and never writes to the audit
    table; if the tag has a row with reference data it waits 2000 ms once,
    reports that the models are not ready and calls [onFailed] 2000 ms
    later. *)
Theorem X13_loading_hook_never_detects {num : Type} `{JsNumber num}
    (env : Env num) (rfidTag : string) (s : State) :
  isLoading (hook env) = true ->
  detections (emitted (verifyFace env rfidTag s)) = 0 /\
  calls (after (verifyFace env rfidTag s)) = calls s /\
  verification_events (after (verifyFace env rfidTag s)) = verification_events s /\
  (forall userId, result (verifyFace env rfidTag s) <> Ok (Matched userId)) /\
  (forall v user,
     videoRef env = Some v ->
     lookup env rfidTag = QueryData (Some user) ->
     hasFaceData user = true ->
     verifyFace env rfidTag s =
       {| result := Ok (Rejected ModelsNotReady);
          after := delayed 2000 (delayed 2000 s);
          emitted := SelectUser rfidTag :: Sleep 2000 :: reject_block 2000 |}).
Proof.
  intros Hl. destruct (videoRef env) as [v|] eqn:Hv.
  - pose proof (verifyFace_early env rfidTag s Hv) as He.
    destruct (lookup env rfidTag) as [|[user|]] eqn:E.
    + rewrite He. cbn. repeat split; try discriminate.
    + destruct (hasFaceData user) eqn:Hd.
      * rewrite Hl in He. rewrite He. cbn. repeat split; try discriminate.
      * rewrite He. cbn. repeat split; try discriminate.
        intros v' user' _ Hu Hd'. injection Hu as <-. congruence.
    + rewrite He. cbn. repeat split; try discriminate.
  - unfold verifyFace. rewrite Hv. cbn. repeat split; try discriminate.
Qed.

(** The hook as it is mounted. *)
Lemma X13_witness :
  hook Kiosk.env_loading = hookOf mountedHook /\
  detections (emitted (verifyFace Kiosk.env_loading "04A1B2C3" initial)) = 0.
Proof.
  split; [reflexivity|].
  exact (proj1 (X13_loading_hook_never_detects Kiosk.env_loading "04A1B2C3" initial eq_refl)).
Defined.

(** X14.  When [verifyFace] reads [isLoading] as false and the calls of
    [detectFaces] it makes on the video do not reach the detection
    capability (they read [modelsLoaded] as false, or the video has no
    width or no height), all ten attempts are made without a single
    detection, each clears the face flag, and the exit is the one of a
    camera that shows no face; the timers take 17 seconds. *)
Theorem X14_unready_detector_exhausts_attempts {num : Type} `{JsNumber num}
    (env : Env num) (rfidTag : string) (v : Video) (user : UserRow num) (s : State) :
  videoRef env = Some v ->
  lookup env rfidTag = QueryData (Some user) ->
  hasFaceData user = true ->
  isLoading (hook env) = false ->
  reaches env (videoRef env) = false ->
  result (verifyFace env rfidTag s) = Ok (Rejected NoLiveFace) /\
  emitted (verifyFace env rfidTag s) =
    SelectUser rfidTag :: Sleep 1500 :: idle_loop maxRetries 1 ++ reject_block 2000 /\
  verification_events (after (verifyFace env rfidTag s)) = verification_events s /\
  calls (after (verifyFace env rfidTag s)) = calls s /\
  clock (after (verifyFace env rfidTag s)) = (clock s + 17000)%Z.
Proof.
  intros Hv Hu Hd Hl Hr.
  pose proof (verifyFace_early env rfidTag s Hv) as He.
  rewrite Hu, Hd, Hl in He. rewrite He.
  unfold try_catch. rewrite bind_emit. cbn [result after emitted].
  unfold afterReady.
  assert (Es : result (sleep 1500 s) = Ok tt) by reflexivity.
  rewrite (bind_Ok _ _ _ Es).
  destruct (attempts_idle env maxRetries Hr 1 (after (sleep 1500 s)) eq_refl)
    as (Hres & Hem & Hve & Hca & Hcl).
  rewrite (bind_Ok _ _ _ Hres). cbn [result after emitted].
  rewrite Hem. cbn [reject bind emit setTimeout advance ret result after emitted
                    verification_events calls clock app].
  rewrite Hve, Hca, Hcl. cbn [sleep bind emit advance result after clock calls
                              verification_events maxRetries pred].
  repeat split. lia.
Qed.

(** A video that reports a width and no height. *)
Lemma X14_witness :
  result (verifyFace Cases.env_flat "04A1B2C3" initial) = Ok (Rejected NoLiveFace) /\
  clock (after (verifyFace Cases.env_flat "04A1B2C3" initial)) = 17000%Z.
Proof.
  pose proof (X14_unready_detector_exhausts_attempts Cases.env_flat "04A1B2C3"
                (v := {| videoWidth := 640; videoHeight := 0 |}) (user := Kiosk.alice) initial
                eq_refl eq_refl eq_refl eq_refl eq_refl) as (Hres & _ & _ & _ & Hcl).
  split; [exact Hres | exact Hcl].
Defined.

(** ** The closing block of each exit *)

Lemma exits_by_prepend (rfidTag : string) (evs : list Event) (r : Step Outcome) :
  exits_by rfidTag r -> Forall quiet evs ->
  exits_by rfidTag {| result := result r; after := after r; emitted := evs ++ emitted r |}.
Proof.
  unfold exits_by; cbn. intros Hr Hq.
  destruct (result r) as [o| |].
  - destruct Hr as (Hn & pre & Hpre & He). split; [assumption|].
    exists (evs ++ pre). split; [apply Forall_app; split; assumption|].
    rewrite He, app_assoc. reflexivity.
  - apply Forall_app; split; assumption.
  - assumption.
Qed.

Lemma exits_bind {A} (rfidTag : string) (m : M A) (f : A -> M Outcome) :
  silent m -> (forall a, exits rfidTag (f a)) -> exits rfidTag (bind m f).
Proof.
  intros Hm Hf s. destruct (Hm s) as (Hq & _ & Hh).
  destruct (result (m s)) as [a| |] eqn:E.
  - rewrite (bind_Ok _ _ _ E).
    apply (@exits_by_prepend rfidTag _ (f a (after (m s)))); [apply Hf | assumption].
  - rewrite (bind_Throw _ _ _ E). unfold exits_by; cbn. assumption.
  - contradiction.
Qed.

Lemma exits_try_catch (rfidTag : string) (m handler : M Outcome) :
  exits rfidTag m -> exits rfidTag handler -> exits rfidTag (try_catch m handler).
Proof.
  intros Hm Hh s. specialize (Hm s). unfold try_catch.
  destruct (result (m s)) as [o| |] eqn:E; try assumption.
  unfold exits_by in Hm. rewrite E in Hm.
  apply (@exits_by_prepend rfidTag _ (handler (after (m s)))); [apply Hh | assumption].
Qed.

Lemma exits_reject {num : Type} `{JsNumber num} (rfidTag : string) (reason : Reason) :
  reason <> VideoElementMissing -> exits rfidTag (reject (holdOf reason) reason).
Proof.
  intros Hn s. unfold exits_by; cbn. split; [congruence|].
  exists []. split; [constructor | reflexivity].
Qed.

Lemma statusAfter_app (l1 l2 : list Event) :
  forall status, statusAfter (l1 ++ l2) status = statusAfter l2 (statusAfter l1 status).
Proof.
  induction l1 as [|e l1 IH]; intros status; [reflexivity|].
  destruct e; cbn [app statusAfter]; apply IH.
Qed.

Lemma statusAfter_quiet (l : list Event) :
  Forall quiet l -> forall status, statusAfter l status = status.
Proof.
  induction 1 as [|e l He _ IH]; intros status; [reflexivity|].
  destruct e; cbn in He |- *; try contradiction; apply IH.
Qed.

Section Exits.

Context {num : Type} `{JsNumber num}.
Variable env : Env num.

Lemma exits_scoring (rfidTag : string) (user : UserRow num)
    (storedEmbedding : option (StoredFace num)) (currentEmbedding : FaceEmbedding num) :
  exits rfidTag (scoring env rfidTag user storedEmbedding currentEmbedding).
Proof.
  intros s. unfold scoring.
  destruct (compareStored_cases storedEmbedding currentEmbedding) as [-> | [similarity ->]];
    [unfold exits_by; cbn; constructor|].
  rewrite bind_ret.
  destruct (n_geb similarity n_threshold); cbn;
    unfold exits_by; cbn; (split; [discriminate|]);
    exists []; (split; [constructor | reflexivity]).
Qed.

(** The three ways lines 220-262 can go. *)
Lemma resolveStored_cases (user : UserRow num) :
  (exists url,
     face_embedding user = None /\ face_image_url user = Some url /\
     truthy (Some url) = true /\
     ((isPublicUrl (cleanImageUrl url) = false /\
       resolveStored env user = (r <- reject 3000 InvalidReference ;; ret (inl r))%flow) \/
      (isPublicUrl (cleanImageUrl url) = true /\
       resolveStored env user = resolveFromImage env (cleanImageUrl url)))) \/
  ((face_embedding user <> None \/ truthy (face_image_url user) = false) /\
   resolveStored env user = ret (inr (face_embedding user))).
Proof.
  unfold resolveStored.
  destruct (face_embedding user) as [stored|].
  { right. split; [left; discriminate | reflexivity]. }
  destruct (face_image_url user) as [url|].
  2:{ right. split; [right; reflexivity | reflexivity]. }
  destruct (truthy (Some url)) eqn:Ht.
  2:{ right. split; [right; reflexivity | reflexivity]. }
  left. exists url.
  split; [reflexivity|]. split; [reflexivity|]. split; [exact Ht|].
  destruct (isPublicUrl (cleanImageUrl url)); cbn [negb].
  - right. split; reflexivity.
  - left. split; reflexivity.
Qed.

Lemma exits_resolve_and_score (rfidTag : string) (user : UserRow num)
    (currentEmbedding : FaceEmbedding num) :
  exits rfidTag
    (stored <- resolveStored env user ;;
     match stored with
     | inl exit => ret exit
     | inr storedEmbedding => scoring env rfidTag user storedEmbedding currentEmbedding
     end)%flow.
Proof.
  destruct (resolveStored_cases user)
    as [(url & _ & _ & _ & [[_ ->] | [_ ->]]) | [_ ->]].
  - intros s. unfold exits_by; cbn. split; [discriminate|].
    exists []. split; [constructor | reflexivity].
  - intros s. unfold bind.
    pose proof (resolveFromImage_step env (cleanImageUrl url) s) as Hstep.
    cbv zeta in Hstep. rewrite Hstep.
    destruct (silent_extractEmbeddingFromImage env (cleanImageUrl url) s) as (Hq & _ & Hh).
    destruct (result (extractEmbeddingFromImage env (cleanImageUrl url) s)) as [e| |];
      cbn [result after emitted].
    + apply (@exits_by_prepend rfidTag _
               (scoring env rfidTag user (Some (StoredEmbedding e)) currentEmbedding
                  (after (extractEmbeddingFromImage env (cleanImageUrl url) s))));
        [apply exits_scoring | assumption].
    + unfold exits_by; cbn. split; [discriminate|].
      exists (emitted (extractEmbeddingFromImage env (cleanImageUrl url) s)).
      split; [assumption|]. rewrite app_nil_r. reflexivity.
    + contradiction.
  - intros s. rewrite (bind_Ok (ret (inr (face_embedding user))) _ s
                         (a := inr (face_embedding user)) eq_refl).
    apply (@exits_by_prepend rfidTag _
             (scoring env rfidTag user (face_embedding user) currentEmbedding s));
      [apply exits_scoring | constructor].
Qed.

Lemma exits_verifyFace (rfidTag : string) (v : Video) :
  videoRef env = Some v -> exits rfidTag (verifyFace env rfidTag).
Proof.
  intros Hv. unfold verifyFace. rewrite Hv.
  apply exits_try_catch; [|apply (exits_reject rfidTag (reason := UnexpectedError)); discriminate].
  apply exits_bind; [apply silent_selectUser|].
  intros [|[user|]];
    try (apply (exits_reject rfidTag (reason := UserNotFound)); discriminate).
  destruct (negb (hasFaceData user));
    [apply (exits_reject rfidTag (reason := NoReferenceData)); discriminate|].
  apply exits_bind.
  { destruct (isLoading (hook env)); [apply silent_sleep | apply silent_ret]. }
  intros _.
  destruct (isLoading (hook env));
    [apply (exits_reject rfidTag (reason := ModelsNotReady)); discriminate|].
  apply exits_bind; [apply silent_sleep|]. intros _.
  apply exits_bind; [apply silent_attempts|]. intros [current|].
  - apply exits_resolve_and_score.
  - apply (exits_reject rfidTag (reason := NoLiveFace)); discriminate.
Qed.

(** What [verifyFace] does once the loop has captured a live face. *)
Lemma verifyFace_captured (rfidTag : string) (v : Video) (user : UserRow num)
    (s : State) (current : FaceEmbedding num) :
  videoRef env = Some v ->
  lookup env rfidTag = QueryData (Some user) ->
  hasFaceData user = true ->
  isLoading (hook env) = false ->
  result (attempts env maxRetries 1 (after (sleep 1500 s))) = Ok (Some current) ->
  let loop := attempts env maxRetries 1 (after (sleep 1500 s)) in
  let rest :=
    try_catch
      (stored <- resolveStored env user ;;
       match stored with
       | inl exit => ret exit
       | inr storedEmbedding => scoring env rfidTag user storedEmbedding current
       end)%flow
      (reject 2000 UnexpectedError) (after loop) in
  result (verifyFace env rfidTag s) = result rest /\
  after (verifyFace env rfidTag s) = after rest /\
  emitted (verifyFace env rfidTag s) =
    SelectUser rfidTag :: Sleep 1500 :: emitted loop ++ emitted rest.
Proof.
  intros Hv Hu Hd Hl Hcur. cbv zeta.
  pose proof (verifyFace_early env rfidTag s Hv) as He.
  rewrite Hu, Hd, Hl in He. rewrite He.
  unfold try_catch. rewrite bind_emit. cbn [result after emitted].
  unfold afterReady.
  assert (Es : result (sleep 1500 s) = Ok tt) by reflexivity.
  rewrite (bind_Ok _ _ _ Es). cbn [result after emitted].
  rewrite (bind_Ok _ _ _ Hcur). cbn [result after emitted].
  set (inner := (stored <- resolveStored env user ;;
                 match stored with
                 | inl exit => ret exit
                 | inr storedEmbedding => scoring env rfidTag user storedEmbedding current
                 end)%flow
                  (after (attempts env maxRetries 1 (after (sleep 1500 s))))).
  destruct (result inner) eqn:Ei;
    cbn [result after emitted sleep bind emit advance app];
    rewrite ?Ei; repeat split; rewrite <- ?app_assoc; reflexivity.
Qed.

End Exits.

(** X15.  The exit [verifyFace] takes determines how it ends.  With no
    video element it calls [onFailed] at once and sets nothing.  Otherwise
    its events are quiet ones followed by the closing block of the exit:
    the status is set, the result is held (3000 ms when the face matched,
    when it did not match and when the stored URL is not public, 2000 ms
    for every other exit), then the camera is stopped and one continuation
    is called. *)
Theorem X15_exit_table {num : Type} `{JsNumber num}
    (env : Env num) (rfidTag : string) (s : State) :
  (videoRef env = None ->
   verifyFace env rfidTag s =
     {| result := Ok (Rejected VideoElementMissing); after := s; emitted := [Fire onFailed] |}) /\
  (forall v, videoRef env = Some v ->
   exists o pre,
     result (verifyFace env rfidTag s) = Ok o /\
     o <> Rejected VideoElementMissing /\
     Forall quiet pre /\
     emitted (verifyFace env rfidTag s) = pre ++ closing rfidTag o).
Proof.
  split.
  - intros Hv. unfold verifyFace. rewrite Hv. reflexivity.
  - intros v Hv. pose proof (exits_verifyFace env rfidTag Hv s) as Hx.
    destruct (verifyFace_returns env rfidTag s) as [o Ho].
    unfold exits_by in Hx. rewrite Ho in Hx. destruct Hx as (Hn & pre & Hq & He).
    exists o, pre. repeat split; assumption.
Qed.

(** A user whose stored URL is not public. *)
Lemma X15_witness :
  exists pre,
    Forall quiet pre /\
    emitted (verifyFace Cases.env_more "04070809" initial) =
      pre ++ closing "04070809" (Rejected InvalidReference).
Proof.
  destruct (proj2 (X15_exit_table Cases.env_more "04070809" initial) Kiosk.camera eq_refl)
    as (o & pre & Ho & _ & Hq & He).
  exists pre. split; [exact Hq|].
  assert (Hr : o = Rejected InvalidReference).
  { assert (E : result (verifyFace Cases.env_more "04070809" initial) =
                Ok (Rejected InvalidReference)) by reflexivity.
    rewrite E in Ho. injection Ho as <-. reflexivity. }
  rewrite <- Hr. exact He.
Defined.

(** X16.  What the component shows when [verifyFace] has ended, from the
    idle status with [isVerifying] set.  With a video element the guide,
    the checkmark and the line "Verifying your face..." are gone and the
    overlay reads "Verified!" exactly when the face matched, and
    "Verification Failed" otherwise.  With no video element nothing
    changes: no overlay, and the line "Verifying your face..." stays,
    although [onFailed] has been called. *)
Theorem X16_final_view {num : Type} `{JsNumber num}
    (env : Env num) (rfidTag : string) (s : State) (faceDetected : bool) :
  let r := verifyFace env rfidTag s in
  let view := render (statusAfter (emitted r) idle)
                (faceDetectedAfter (emitted r) faceDetected) true in
  (forall v, videoRef env = Some v ->
     overlay view = Some match result r with
                         | Ok (Matched _) => Verified
                         | _ => VerificationFailed
                         end /\
     guide view = false /\ checkmark view = false /\ pulse view = false) /\
  (videoRef env = None ->
     overlay view = None /\ guide view = true /\ pulse view = true /\
     faceHint view = faceDetected /\ fires (emitted r) = 1).
Proof.
  cbv zeta. split.
  - intros v Hv. pose proof (exits_verifyFace env rfidTag Hv s) as Hx.
    destruct (verifyFace_returns env rfidTag s) as [o Ho].
    unfold exits_by in Hx. rewrite Ho in Hx |- *. destruct Hx as (_ & pre & Hq & He).
    rewrite He, statusAfter_app, (statusAfter_quiet Hq).
    destruct o as [userId|reason]; cbn; repeat split.
  - intros Hv. unfold verifyFace. rewrite Hv. cbn. repeat split.
Qed.

(** The view after alice has been verified. *)
Lemma X16_witness :
  overlay (render (statusAfter (emitted (verifyFace Kiosk.env "04A1B2C3" initial)) idle)
             (faceDetectedAfter (emitted (verifyFace Kiosk.env "04A1B2C3" initial)) false) true)
    = Some Verified.
Proof.
  exact (proj1 (proj1 (X16_final_view Kiosk.env "04A1B2C3" initial false) Kiosk.camera eq_refl)).
Defined.

(** ** Which reference is used *)

Section Reference.

Context {num : Type} `{JsNumber num}.
Variable env : Env num.

Lemma emits_live_scoring (rfidTag : string) (user : UserRow num)
    (storedEmbedding : option (StoredFace num)) (currentEmbedding : FaceEmbedding num) :
  emits live (scoring env rfidTag user storedEmbedding currentEmbedding).
Proof.
  unfold scoring. apply emits_bind.
  - destruct (compareStored_cases storedEmbedding currentEmbedding) as [-> | [x ->]];
      [apply emits_throw | apply emits_ret].
  - intros similarity. destruct (n_geb similarity n_threshold).
    + apply emits_bind; [apply emits_emit; reflexivity|]. intros _.
      apply emits_bind; [apply emits_insert; reflexivity|]. intros _.
      apply emits_bind; [|intros _; apply emits_ret].
      apply emits_setTimeout; [reflexivity|].
      apply emits_bind; [apply emits_emit; reflexivity|]. intros _.
      apply emits_emit; reflexivity.
    + apply emits_reject; reflexivity.
Qed.

Lemma emits_live_attempts (remaining attempt : nat) :
  emits live (attempts env remaining attempt).
Proof. apply emits_attempts; intros; reflexivity. Qed.

Lemma resolveStored_stored (user : UserRow num) :
  face_embedding user <> None ->
  resolveStored env user = ret (inr (face_embedding user)).
Proof.
  intros Hn. unfold resolveStored.
  destruct (face_embedding user); [reflexivity | contradiction].
Qed.

Lemma hasFaceData_stored (user : UserRow num) :
  face_embedding user <> None -> hasFaceData user = true.
Proof.
  intros Hn. unfold hasFaceData.
  destruct (face_embedding user); [reflexivity | contradiction].
Qed.

Lemma afterReady_stored (rfidTag : string) (user : UserRow num) :
  face_embedding user <> None ->
  emits live (afterReady env rfidTag user) /\
  yields (fun o => o <> Rejected InvalidReference /\ o <> Rejected ReferenceImageFailed /\
                   o <> Rejected NoReferenceData)
    (afterReady env rfidTag user).
Proof.
  intros Hn. unfold afterReady. rewrite (resolveStored_stored user Hn). split.
  - apply emits_bind; [apply emits_sleep; reflexivity|]. intros _.
    apply emits_bind; [apply emits_live_attempts|]. intros [current|].
    + apply emits_bind; [apply emits_ret|]. intros [exit|stored];
        [apply emits_ret | apply emits_live_scoring].
    + apply emits_reject; reflexivity.
  - apply yields_bind with (Q := fun _ => True); [apply yields_any|]. intros _ _.
    apply yields_bind with (Q := fun _ => True); [apply yields_any|]. intros [current|] _.
    + apply yields_bind with (Q := fun x : Outcome + option (StoredFace num) =>
                                       x = inr (face_embedding user)).
      * intros s a E. cbn in E. injection E as <-. reflexivity.
      * intros x ->. intros s o. unfold scoring.
        destruct (compareStored_cases (face_embedding user) current)
          as [-> | [similarity ->]]; [cbn; discriminate|].
        rewrite bind_ret.
        destruct (n_geb similarity n_threshold); cbn;
          intros E; injection E as <-; repeat split; discriminate.
    + apply yields_reject. repeat split; discriminate.
Qed.

(** An URL that starts with white space is not public. *)
Lemma isPublicUrl_white (c : ascii) (rest : string) :
  is_white_space c = true -> isPublicUrl (String c rest) = false.
Proof.
  intros Hc. unfold isPublicUrl, startsWith. cbn [String.prefix].
  destruct (ascii_dec "h" c) as [<-|Hne]; [discriminate Hc | reflexivity].
Qed.

Lemma truthy_quoted (ws1 rest : string) :
  truthy (Some (ws1 ++ quote ++ rest)%string) = true.
Proof. destruct ws1; reflexivity. Qed.

Lemma attempts_events (remaining attempt : nat) (s : State) :
  verification_events (after (attempts env remaining attempt s)) = verification_events s.
Proof. apply (silent_attempts env remaining attempt s). Qed.

End Reference.

(** X17.  A stored descriptor takes precedence over a stored image: when
    the row of the tag has a value in [face_embedding], no image is ever
    loaded, whatever [face_image_url] holds, and the verification cannot
    end with one of the exits that concern the image or the absence of
    reference data. *)
Theorem X17_stored_descriptor_takes_precedence {num : Type} `{JsNumber num}
    (env : Env num) (rfidTag : string) (user : UserRow num) (s : State) :
  lookup env rfidTag = QueryData (Some user) ->
  face_embedding user <> None ->
  Forall live (emitted (verifyFace env rfidTag s)) /\
  result (verifyFace env rfidTag s) <> Ok (Rejected InvalidReference) /\
  result (verifyFace env rfidTag s) <> Ok (Rejected ReferenceImageFailed) /\
  result (verifyFace env rfidTag s) <> Ok (Rejected NoReferenceData).
Proof.
  intros Hu Hn. destruct (videoRef env) as [v|] eqn:Hv.
  2:{ unfold verifyFace. rewrite Hv. cbn. repeat split; try discriminate.
      repeat constructor. }
  pose proof (verifyFace_early env rfidTag s Hv) as He.
  rewrite Hu, (hasFaceData_stored user Hn) in He.
  destruct (isLoading (hook env)).
  { rewrite He. cbn. repeat split; try discriminate. repeat constructor. }
  rewrite He. destruct (afterReady_stored env rfidTag user Hn) as [Hlive Hy].
  split.
  - apply emits_try_catch; [|apply emits_reject; reflexivity].
    apply emits_bind; [apply emits_emit; reflexivity|]. intros _. exact Hlive.
  - assert (Hall : yields (fun o => o <> Rejected InvalidReference /\
                                    o <> Rejected ReferenceImageFailed /\
                                    o <> Rejected NoReferenceData)
                     (try_catch (emit (SelectUser rfidTag) ;; afterReady env rfidTag user)%flow
                        (reject 2000 UnexpectedError))).
    { apply yields_try_catch; [|apply yields_reject; repeat split; discriminate].
      apply yields_bind with (Q := fun _ => True); [apply yields_any|]. intros _ _. exact Hy. }
    destruct (result (try_catch (emit (SelectUser rfidTag) ;; afterReady env rfidTag user)%flow
                        (reject 2000 UnexpectedError) s)) as [o| |] eqn:E;
      try (repeat split; discriminate).
    destruct (Hall s o E) as (H1 & H2 & H3).
    repeat split; intros Ho; injection Ho as ->; contradiction.
Qed.

(** A row with a descriptor and an URL that is not public. *)
Lemma X17_witness :
  Forall live (emitted (verifyFace Cases.env_more "04101112" initial)) /\
  result (verifyFace Cases.env_more "04101112" initial) = Ok (Matched "04101112").
Proof.
  split; [|reflexivity].
  refine (proj1 (X17_stored_descriptor_takes_precedence Cases.env_more "04101112"
                   (user := Cases.frank) initial eq_refl _)).
  discriminate.
Defined.

(** X18.  The stored URL is trimmed before its quotes are removed and not
    after: white space just inside the quotes stays, so the URL does not
    start with a scheme and the row is refused as not holding a public
    URL.  The refusal comes only after a live face has been captured,
    holds for 3000 ms, and no image is loaded. *)
Theorem X18_padding_inside_quotes_is_kept {num : Type} `{JsNumber num}
    (env : Env num) (rfidTag : string) (v : Video) (user : UserRow num) (s : State)
    (current : FaceEmbedding num) (ws1 ws2 rest : string) (c : ascii) :
  videoRef env = Some v ->
  lookup env rfidTag = QueryData (Some user) ->
  isLoading (hook env) = false ->
  face_embedding user = None ->
  face_image_url user = Some (ws1 ++ quote ++ String c rest ++ quote ++ ws2)%string ->
  all_white_space ws1 = true ->
  all_white_space ws2 = true ->
  is_white_space c = true ->
  result (attempts env maxRetries 1 (after (sleep 1500 s))) = Ok (Some current) ->
  cleanImageUrl (ws1 ++ quote ++ String c rest ++ quote ++ ws2) = String c rest /\
  result (verifyFace env rfidTag s) = Ok (Rejected InvalidReference) /\
  emitted (verifyFace env rfidTag s) =
    SelectUser rfidTag :: Sleep 1500 ::
    emitted (attempts env maxRetries 1 (after (sleep 1500 s))) ++ reject_block 3000 /\
  Forall live (emitted (verifyFace env rfidTag s)).
Proof.
  intros Hv Hu Hl He Hurl Hw1 Hw2 Hc Hcur.
  pose proof (cleanImageUrl_quoted ws1 (String c rest) ws2 Hw1 Hw2) as Hclean.
  assert (Hd : hasFaceData user = true).
  { unfold hasFaceData. rewrite He, Hurl. apply truthy_quoted. }
  assert (Hres : resolveStored env user =
                 (r <- reject 3000 InvalidReference ;; ret (inl r))%flow).
  { unfold resolveStored. rewrite He, Hurl, truthy_quoted, Hclean.
    rewrite (@isPublicUrl_white c rest Hc). reflexivity. }
  destruct (verifyFace_captured env rfidTag s Hv Hu Hd Hl Hcur) as (Hr & _ & Hem).
  rewrite Hres in Hr, Hem.
  remember (attempts env maxRetries 1 (after (sleep 1500 s))) as loop eqn:Eloop.
  cbn in Hr, Hem.
  split; [exact Hclean|]. split; [exact Hr|]. split; [exact Hem|].
  rewrite Hem. constructor; [reflexivity|]. constructor; [reflexivity|].
  apply Forall_app. split; [|repeat constructor].
  rewrite Eloop. apply emits_live_attempts.
Qed.

(** A space between the opening quote and the scheme. *)
Lemma X18_witness :
  result (verifyFace Cases.env_more "04070809" initial) = Ok (Rejected InvalidReference).
Proof.
  refine (proj1 (proj2 (X18_padding_inside_quotes_is_kept Cases.env_more "04070809"
                   (v := Kiosk.camera) (user := Cases.carol) initial
                   (current := {| descriptor := [1; 0; 0]%float; timestamp := 1500 |})
                   EmptyString EmptyString "https://example.com/c.jpg" " "
                   eq_refl eq_refl eq_refl eq_refl eq_refl eq_refl eq_refl eq_refl eq_refl))).
Defined.

(** X19.  A truthy value in [face_embedding] is preferred to the image
    also when it is not an embedding; once a live face has been captured,
    in binary64:
    - when its descriptor is null or undefined, the comparison throws on
      reading the length, and the verification ends with the exit of the
      catch block after a hold of 2000 ms;
    - when its descriptor is there but has no array length, the comparison
      returns 0 for the length mismatch, and the verification ends with
      the exit of a face that does not match after a hold of 3000 ms.
    In both cases nothing is written to the audit table. *)
Theorem X19_malformed_stored_embedding
    (env : Env float) (rfidTag : string) (v : Video) (user : UserRow float) (s : State)
    (current : FaceEmbedding float) :
  videoRef env = Some v ->
  lookup env rfidTag = QueryData (Some user) ->
  isLoading (hook env) = false ->
  result (attempts env maxRetries 1 (after (sleep 1500 s))) = Ok (Some current) ->
  (face_embedding user = Some StoredNoDescriptor ->
   result (verifyFace env rfidTag s) = Ok (Rejected UnexpectedError) /\
   emitted (verifyFace env rfidTag s) =
     SelectUser rfidTag :: Sleep 1500 ::
     emitted (attempts env maxRetries 1 (after (sleep 1500 s))) ++ reject_block 2000 /\
   verification_events (after (verifyFace env rfidTag s)) = verification_events s) /\
  (face_embedding user = Some StoredUnsized ->
   result (verifyFace env rfidTag s) = Ok (Rejected BelowThreshold) /\
   emitted (verifyFace env rfidTag s) =
     SelectUser rfidTag :: Sleep 1500 ::
     emitted (attempts env maxRetries 1 (after (sleep 1500 s))) ++ reject_block 3000 /\
   verification_events (after (verifyFace env rfidTag s)) = verification_events s).
Proof.
  intros Hv Hu Hl Hcur.
  assert (Hcase : forall stored,
            face_embedding user = Some stored ->
            result (verifyFace env rfidTag s) =
              result (try_catch (scoring env rfidTag user (Some stored) current)
                        (reject 2000 UnexpectedError)
                        (after (attempts env maxRetries 1 (after (sleep 1500 s))))) /\
            after (verifyFace env rfidTag s) =
              after (try_catch (scoring env rfidTag user (Some stored) current)
                       (reject 2000 UnexpectedError)
                       (after (attempts env maxRetries 1 (after (sleep 1500 s))))) /\
            emitted (verifyFace env rfidTag s) =
              SelectUser rfidTag :: Sleep 1500 ::
              emitted (attempts env maxRetries 1 (after (sleep 1500 s))) ++
              emitted (try_catch (scoring env rfidTag user (Some stored) current)
                         (reject 2000 UnexpectedError)
                         (after (attempts env maxRetries 1 (after (sleep 1500 s)))))).
  { intros stored He.
    assert (Hn : face_embedding user <> None) by (rewrite He; discriminate).
    destruct (verifyFace_captured env rfidTag s Hv Hu (hasFaceData_stored user Hn) Hl Hcur)
      as (Hr & Ha & Hem).
    rewrite (resolveStored_stored env user Hn), He in Hr, Ha, Hem.
    remember (attempts env maxRetries 1 (after (sleep 1500 s))) as loop eqn:Eloop.
    unfold try_catch in Hr, Ha, Hem |- *.
    rewrite bind_ret in Hr, Ha, Hem. cbn [result after emitted] in Hr, Ha, Hem.
    destruct (result (scoring env rfidTag user (Some stored) current (after loop))) eqn:Es;
      cbn [result after emitted] in Hr, Ha, Hem |- *; rewrite ?Es;
      repeat split; assumption. }
  pose proof (attempts_events env maxRetries 1 (after (sleep 1500 s))) as Hev.
  split; intros He; destruct (Hcase _ He) as (Hr & Ha & Hem);
    remember (attempts env maxRetries 1 (after (sleep 1500 s))) as loop eqn:Eloop;
    cbn in Hr, Ha, Hem; (split; [exact Hr|]); (split; [exact Hem|]);
    rewrite Ha; exact Hev.
Qed.

(** A row whose embedding is a bare array, and a row whose embedding holds
    a number as its descriptor. *)
Lemma X19_witness :
  result (verifyFace Cases.env_more "040A0B0C" initial) = Ok (Rejected UnexpectedError) /\
  result (verifyFace Cases.env_more "04131415" initial) = Ok (Rejected BelowThreshold).
Proof.
  split.
  - refine (proj1 (proj1 (X19_malformed_stored_embedding Cases.env_more "040A0B0C"
                     (v := Kiosk.camera) (user := Cases.dave) initial
                     (current := {| descriptor := [1; 0; 0]%float; timestamp := 1500 |})
                     eq_refl eq_refl eq_refl eq_refl) eq_refl)).
  - refine (proj1 (proj2 (X19_malformed_stored_embedding Cases.env_more "04131415"
                     (v := Kiosk.camera) (user := Cases.grace) initial
                     (current := {| descriptor := [1; 0; 0]%float; timestamp := 1500 |})
                     eq_refl eq_refl eq_refl eq_refl) eq_refl)).
Defined.

(** ** The reference image *)

(** X20.  Loading the image and playing the scratch video being taken to
    settle, [extractEmbeddingFromImage] resolves exactly when the image
    loads and plays, the detection capability is reached and finds at
    least one face in it: the reference is then the descriptor of the
    first face found, taken 500 ms after the scratch video started to
    play.  In every other case it rejects. *)
Theorem X20_reference_is_first_face_of_image {num : Type} `{JsNumber num}
    (env : Env num) (imageUrl : string) (s : State) :
  result (extractEmbeddingFromImage env imageUrl s) <> Hang /\
  (forall e, result (extractEmbeddingFromImage env imageUrl s) = Ok e <->
     exists tempVideo d ds,
       loadImage env imageUrl = Playing tempVideo /\
       reaches env (Some tempVideo) = true /\
       detectAllFaces env (calls s) = Detected (d :: ds) /\
       e = {| descriptor := det_descriptor d; timestamp := (clock s + 500)%Z |}).
Proof.
  unfold extractEmbeddingFromImage. rewrite bind_emit. cbn [result].
  destruct (loadImage env imageUrl) as [| | |tempVideo] eqn:El;
    try (split; [discriminate|]; intros e; split;
         [discriminate | intros (tv & d & ds & Hl & _); discriminate]).
  assert (Es : result (sleep 500 s) = Ok tt) by reflexivity.
  rewrite (bind_Ok _ _ _ Es). cbn [result].
  set (s1 := after (sleep 500 s)).
  assert (Hcalls : calls s1 = calls s) by reflexivity.
  assert (Hclock : clock s1 = (clock s + 500)%Z) by reflexivity.
  destruct (reaches env (Some tempVideo)) eqn:Hr.
  - unfold bind. rewrite (extractFaceEmbedding_calls env _ s1 Hr). cbn [result after emitted].
    rewrite Hcalls, Hclock.
    destruct (detectAllFaces env (calls s)) as [|[|d ds]] eqn:Ed; cbn [first_face option_map result].
    + split; [discriminate|]. intros e. split; [discriminate|].
      intros (tv & d & ds & _ & _ & Hf & _). discriminate.
    + split; [discriminate|]. intros e. split; [discriminate|].
      intros (tv & d & ds & _ & _ & Hf & _). discriminate.
    + split; [discriminate|]. intros e. split.
      * intros E. injection E as <-. exists tempVideo, d, ds. repeat split. assumption.
      * intros (tv & d' & ds' & _ & _ & Hf & ->). injection Hf as <- _. reflexivity.
  - unfold bind. rewrite (extractFaceEmbedding_skips env _ s1 Hr). cbn [result].
    split; [discriminate|]. intros e. split; [discriminate|].
    intros (tv & d & ds & Hl & Hr' & _). injection Hl as <-. congruence.
Qed.

(** The image of bob on the kiosk. *)
Lemma X20_witness :
  result (extractEmbeddingFromImage Kiosk.env "https://example.com/f.jpg"
            {| verification_events := []; calls := 4; clock := 0 |}) =
    Ok {| descriptor := [1; 0; 0]%float; timestamp := 500 |}.
Proof.
  apply (proj2 (X20_reference_is_first_face_of_image Kiosk.env "https://example.com/f.jpg"
                  {| verification_events := []; calls := 4; clock := 0 |})).
  exists Kiosk.camera, (Kiosk.face [1; 0; 0]%float), [].
  repeat split.
Defined.

(** ** Time spent in timers *)

Lemma timed_weaken {A} (ok th ok' th' : Z) (m : M A) :
  (ok <= ok')%Z -> (th <= th')%Z -> timed ok th m -> timed ok' th' m.
Proof.
  intros Hok Hth Hm s. specialize (Hm s).
  destruct (result (m s)); [lia | lia | exact I].
Qed.

Lemma timed_ret {A} (ok th : Z) (a : A) : (0 <= ok)%Z -> timed ok th (ret a).
Proof. intros Hok s. cbn. lia. Qed.

Lemma timed_throw {A} (ok th : Z) : (0 <= th)%Z -> timed ok th (@throw A).
Proof. intros Hth s. cbn. lia. Qed.

Lemma timed_emit (ok th : Z) (e : Event) : (0 <= ok)%Z -> timed ok th (emit e).
Proof. intros Hok s. cbn. lia. Qed.

Lemma timed_sleep (ok th ms : Z) : (0 <= ms <= ok)%Z -> timed ok th (sleep ms).
Proof. intros Hms s. cbn. lia. Qed.

Lemma timed_reject {num : Type} `{JsNumber num} (ok th ms : Z) (reason : Reason) :
  (0 <= ms <= ok)%Z -> timed ok th (reject ms reason).
Proof. intros Hms s. cbn. lia. Qed.

Lemma timed_bind {A B} (ok1 th1 ok2 th2 ok th : Z) (m : M A) (f : A -> M B) :
  timed ok1 th1 m -> (forall a, timed ok2 th2 (f a)) ->
  (ok1 + ok2 <= ok)%Z -> (th1 <= th)%Z -> (ok1 + th2 <= th)%Z ->
  timed ok th (bind m f).
Proof.
  intros Hm Hf H1 H2 H3 s. specialize (Hm s). unfold bind.
  destruct (result (m s)) as [a| |]; cbn [result after]; [|lia|exact I].
  specialize (Hf a (after (m s))).
  destruct (result (f a (after (m s)))); [lia | lia | exact I].
Qed.

Lemma timed_try_catch {A} (ok1 th1 ok2 th2 ok th : Z) (m handler : M A) :
  timed ok1 th1 m -> timed ok2 th2 handler ->
  (ok1 <= ok)%Z -> (th1 + ok2 <= ok)%Z -> (th1 + th2 <= th)%Z ->
  timed ok th (try_catch m handler).
Proof.
  intros Hm Hh H1 H2 H3 s. specialize (Hm s). unfold try_catch.
  destruct (result (m s)) as [a| |] eqn:E; cbn [result after].
  - rewrite E. lia.
  - specialize (Hh (after (m s))).
    destruct (result (handler (after (m s)))); [lia | lia | exact I].
  - rewrite E. exact I.
Qed.

Section Timing.

Context {num : Type} `{JsNumber num}.
Variable env : Env num.

Lemma timed_extractFaceEmbedding (videoElement : option Video) :
  timed 0 0 (extractFaceEmbedding env videoElement).
Proof.
  intros s. destruct (reaches env videoElement) eqn:Hr.
  - rewrite (extractFaceEmbedding_calls _ _ _ Hr); cbn. lia.
  - rewrite (extractFaceEmbedding_skips _ _ _ Hr); cbn. lia.
Qed.

Lemma attempts_clock (remaining : nat) :
  forall (attempt : nat) (s : State),
    attempt + remaining = S maxRetries ->
    (clock s <= clock (after (attempts env remaining attempt s))
             <= clock s + 1500 * Z.of_nat (pred remaining))%Z.
Proof.
  induction remaining as [|remaining IH]; intros attempt s Hsum.
  - cbn. lia.
  - rewrite attempts_unfold.
    pose proof (iteration_result env attempt s) as E.
    rewrite (bind_Ok _ _ _ E). cbn [after].
    assert (Hc : clock (after (iteration env attempt s)) = clock s).
    { rewrite iteration_after. destruct (reaches env (videoRef env)); reflexivity. }
    destruct (option_map _ (liveExtraction env (S (calls s)))) as [e|].
    + cbn [ret after]. rewrite Hc. lia.
    + destruct remaining as [|more].
      * assert (Hatt : (attempt <? maxRetries)%nat = false) by (apply Nat.ltb_ge; lia).
        rewrite Hatt. cbn [attempts bind ret result after]. rewrite Hc. lia.
      * assert (Hatt : (attempt <? maxRetries)%nat = true) by (apply Nat.ltb_lt; lia).
        rewrite Hatt.
        assert (Es : result (sleep 1500 (after (iteration env attempt s))) = Ok tt)
          by reflexivity.
        rewrite (bind_Ok _ _ _ Es). cbn [after].
        specialize (IH (S attempt) (after (sleep 1500 (after (iteration env attempt s))))).
        assert (Hs : clock (after (sleep 1500 (after (iteration env attempt s)))) =
                     (clock s + 1500)%Z)
          by (cbn [sleep bind emit advance result after clock]; rewrite Hc; reflexivity).
        rewrite Hs in IH. cbn [pred] in IH |- *. lia.
Qed.

Lemma timed_attempts (th : Z) : timed 13500 th (attempts env maxRetries 1).
Proof.
  intros s. destruct (returns_attempts env maxRetries 1 s) as [a Ha]. rewrite Ha.
  pose proof (attempts_clock maxRetries 1 s eq_refl) as Hc.
  cbn [maxRetries pred] in Hc. lia.
Qed.

Lemma timed_extractEmbeddingFromImage (imageUrl : string) :
  timed 500 500 (extractEmbeddingFromImage env imageUrl).
Proof.
  unfold extractEmbeddingFromImage.
  apply (@timed_bind _ _ 0 0 500 500 500 500); try lia; [apply timed_emit; lia|]. intros _.
  destruct (loadImage env imageUrl); try (apply timed_throw; lia).
  apply (@timed_bind _ _ 500 0 0 0 500 500); try lia; [apply timed_sleep; lia|]. intros _.
  apply (@timed_bind _ _ 0 0 0 0 0 0); try lia; [apply timed_extractFaceEmbedding|].
  intros [e|]; [apply timed_ret | apply timed_throw]; lia.
Qed.

Lemma timed_scoring (rfidTag : string) (user : UserRow num)
    (storedEmbedding : option (StoredFace num)) (currentEmbedding : FaceEmbedding num) :
  timed 3000 0 (scoring env rfidTag user storedEmbedding currentEmbedding).
Proof.
  intros s. unfold scoring.
  destruct (compareStored_cases storedEmbedding currentEmbedding) as [-> | [similarity ->]];
    [cbn; lia|].
  rewrite bind_ret.
  destruct (n_geb similarity n_threshold); cbn; lia.
Qed.

Lemma timed_resolve_and_score (rfidTag : string) (user : UserRow num)
    (currentEmbedding : FaceEmbedding num) :
  timed 3500 500
    (stored <- resolveStored env user ;;
     match stored with
     | inl exit => ret exit
     | inr storedEmbedding => scoring env rfidTag user storedEmbedding currentEmbedding
     end)%flow.
Proof.
  destruct (resolveStored_cases env user)
    as [(url & _ & _ & _ & [[_ ->] | [_ ->]]) | [_ ->]].
  - intros s. cbn. lia.
  - intros s. unfold bind.
    pose proof (resolveFromImage_step env (cleanImageUrl url) s) as Hstep.
    cbv zeta in Hstep. rewrite Hstep.
    pose proof (timed_extractEmbeddingFromImage (cleanImageUrl url) s) as Hx.
    destruct (result (extractEmbeddingFromImage env (cleanImageUrl url) s)) as [e| |];
      cbn [result after emitted clock ret]; [|lia|exact I].
    pose proof (timed_scoring rfidTag user (Some (StoredEmbedding e)) currentEmbedding
                  (after (extractEmbeddingFromImage env (cleanImageUrl url) s))) as Hsc.
    destruct (result (scoring env rfidTag user (Some (StoredEmbedding e)) currentEmbedding
                        (after (extractEmbeddingFromImage env (cleanImageUrl url) s))));
      [lia | lia | exact I].
  - apply (@timed_bind _ _ 0 0 3000 0 3500 500); try lia; [apply timed_ret; lia|].
    intros [exit|stored]; [apply timed_ret; lia | apply timed_scoring].
Qed.

Lemma timed_verifyFace (rfidTag : string) :
  timed 18500 16500 (verifyFace env rfidTag).
Proof.
  unfold verifyFace. destruct (videoRef env) as [v|]; [|intros s; cbn; lia].
  apply (@timed_try_catch _ 18500 16500 2000 0 18500 16500); try lia;
    [|apply timed_reject; lia].
  apply (@timed_bind _ _ 0 0 18500 16500 18500 16500); try lia; [intros s; cbn; lia|].
  intros [|[user|]]; try (apply timed_reject; lia).
  destruct (negb (hasFaceData user)); [apply timed_reject; lia|].
  destruct (isLoading (hook env)).
  - apply (@timed_bind _ _ 2000 0 2000 0 18500 16500); try lia; [apply timed_sleep; lia|].
    intros _. apply timed_reject; lia.
  - apply (@timed_bind _ _ 0 0 18500 16500 18500 16500); try lia; [apply timed_ret; lia|].
    intros _.
    apply (@timed_bind _ _ 1500 0 17000 15000 18500 16500); try lia; [apply timed_sleep; lia|].
    intros _.
    apply (@timed_bind _ _ 13500 0 3500 1500 17000 15000); try lia; [apply timed_attempts|].
    intros [current|].
    + apply (@timed_weaken _ 3500 500 3500 1500); try lia. apply timed_resolve_and_score.
    + apply timed_reject; lia.
Qed.

Lemma startCamera_clock (s : State) :
  (clock s <= clock (after (startCamera env s)) <= clock s + pollTime env)%Z.
Proof.
  unfold startCamera, try_catch, pollTime. rewrite bind_emit.
  destruct (getUserMedia env); [|destruct (poll env); cbn; lia..].
  destruct (videoRef env) as [v|]; [|destruct (poll env); cbn; lia].
  destruct (play env); [|destruct (poll env); cbn; lia..].
  destruct (poll env) as [n|]; [|cbn; lia].
  destruct (ticks_step (S n) s) as (Hr & _ & _ & _ & Hk).
  cbn [result after emitted]. rewrite Hr. cbn [result after emitted]. rewrite Hk. lia.
Qed.

End Timing.

(** X21.  The timers a verification awaits add up to at most 18.5 seconds
    from the call of [verifyFace]; from the call of [startVerification]
    they add up to at most 22 seconds and the time the poll for the frame
    width takes, 100 ms for each of its ticks.  The clock never goes
    back. *)
Theorem X21_timers_are_bounded {num : Type} `{JsNumber num}
    (env : Env num) (rfidTag : string) (s : State) :
  (clock s <= clock (after (verifyFace env rfidTag s)) <= clock s + 18500)%Z /\
  (clock s <= clock (after (startVerification env rfidTag s))
           <= clock s + pollTime env + 22000)%Z /\
  (0 <= pollTime env)%Z /\
  (forall misses, poll env = Some misses -> pollTime env = (100 * (Z.of_nat misses + 1))%Z).
Proof.
  assert (Hv : forall s', (clock s' <= clock (after (verifyFace env rfidTag s'))
                                    <= clock s' + 18500)%Z).
  { intros s'. pose proof (timed_verifyFace env rfidTag s') as Ht.
    destruct (verifyFace_returns env rfidTag s') as [o Ho]. rewrite Ho in Ht. exact Ht. }
  split; [apply Hv|].
  assert (Hpos : (0 <= pollTime env)%Z) by (unfold pollTime; destruct (poll env); lia).
  split; [|split; [exact Hpos | intros misses Hm; unfold pollTime; rewrite Hm; lia]].
  pose proof (startCamera_clock env s) as Hc.
  destruct (startCamera_settles env s) as [Er | [Er _]].
  - rewrite (startVerification_step env rfidTag s Er). cbn [after].
    specialize (Hv (delayed 3500 (after (startCamera env s)))).
    cbn [delayed clock] in Hv. lia.
  - rewrite (startVerification_hangs env rfidTag s Er). cbn [after]. lia.
Qed.

(** Both bounds are reached when the video reports its width at the fourth
    tick, the tenth attempt is the first to capture a face and the
    reference is an image that matches. *)
Lemma X21_witness :
  (clock (after (startVerification Cases.env_late "04D4E5F6" initial)) <= 400 + 22000)%Z /\
  clock (after (verifyFace Cases.env_late "04D4E5F6" initial)) = 18500%Z /\
  clock (after (startVerification Cases.env_late "04D4E5F6" initial)) = 22400%Z.
Proof.
  split; [|split; reflexivity].
  exact (proj2 (proj1 (proj2 (X21_timers_are_bounded Cases.env_late "04D4E5F6" initial)))).
Defined.
